(** * KryptonAnalyzer: pad-by-pad gain calibration from krypton decay spectra

    Shallow embedding of the calibration core of [KryptonAnalyzer.cc]:
    the cluster loop that fills the charge spectra, the peak search and
    fit of every pad spectrum, and the loop that computes the gains and
    writes the gain table and the result tree.

    C++ [double] is IEEE binary64 and is modelled by Rocq's primitive
    floats, so that NaN, infinities and division by zero behave as in
    the program.  Unsigned counters and identifiers are [N], signed bin
    indices are [Z]; conversions between integer types are written
    out.  The gain table is text: a number in it is the string that
    [operator<<] makes of a double. *)

From Stdlib Require Import ZArith List Bool Floats Lia.
From stdpp Require Import base option list gmap strings.

Local Open Scope float_scope.
Set Warnings "-inexact-float".

(** ** Numeric conversions *)

(** Conversion of an unsigned integer to [double]; exact below 2^53. *)
Definition N2double (n : N) : float := of_uint63 (Uint63.of_Z (Z.of_N n)).

(** [unsigned int] to [Int_t]: the value modulo 2^32, read as a signed
    32-bit integer. *)
Definition Int_t_of_UInt (n : N) : Z :=
  let w := (Z.of_N n mod 2 ^ 32)%Z in
  if (w <? 2 ^ 31)%Z then w else (w - 2 ^ 32)%Z.

(** [int] to [unsigned int]: the value modulo 2^32. *)
Definition UInt_of_int (z : Z) : N := Z.to_N (z mod 2 ^ 32).

(** [size_t] arithmetic wraps at 2^64; [string::npos] is its largest
    value. *)
Definition size_t (z : Z) : Z := (z mod 2 ^ 64)%Z.

Definition npos : Z := (2 ^ 64 - 1)%Z.

(** Conversion of a (non-negative) bin content, held as a count, to
    [double]. *)
Definition Z2double (z : Z) : float :=
  if (z <? 0)%Z then - of_uint63 (Uint63.of_Z (- z))
  else of_uint63 (Uint63.of_Z z).

(** ** Configuration: the globals declared in KryptonAnalyzer.h *)

Record Config := {
  fTPCIdList : gset N;
  fFitFunction : string;
  fMinAcceptableGain : float;
  fMaxAcceptableGain : float;
  fMinHistogramEntries : N;
  fHistogramBins : N;
  fHistogramPadding : float;
  fMinPads : N;
  fMaxPads : N;
  fMinTimeSliceNumber : N;
  fMinTimeSlices : N;
  fMaxTimeSlices : N;
  fMaxADCCut : float;
  fChargeCut : float;
  fMinADCPeakSearch : float;
  fMinADCPeakSearchVTPC1Upstream : float
}.

(** ** Detector description (det::TPC and below), in iteration order *)

Record TPCPadrow := {
  padrow_GetId : N;
  padrow_GetNPads : N;
  padrow_GetPadGain : N -> float
}.

Record TPCSector := {
  sector_GetId : N;
  sector_Padrows : list TPCPadrow
}.

Record TPCChamber := {
  chamber_GetId : N;
  chamber_Sectors : list TPCSector
}.

(** [sector.GetPadrow(id)]: the padrow with that identifier, if any. *)
Definition sector_GetPadrow (s : TPCSector) (id : N) : option TPCPadrow :=
  find (fun r => (padrow_GetId r =? id)%N) (sector_Padrows s).

(** [sector.GetNPadrows()] *)
Definition sector_GetNPadrows (s : TPCSector) : N :=
  N.of_nat (length (sector_Padrows s)).

(** [chamber.GetSector(id)] and [tpc.GetChamber(id)], likewise. *)
Definition chamber_GetSector (c : TPCChamber) (id : N) : option TPCSector :=
  find (fun s => (sector_GetId s =? id)%N) (chamber_Sectors c).

Definition tpc_GetChamber (tpc : list TPCChamber) (id : N) : option TPCChamber :=
  find (fun c => (chamber_GetId c =? id)%N) tpc.

(** The pad identifiers visited by
    [for (padId = 1; padId <= padrow.GetNPads(); ++padId)]. *)
Definition pad_ids (n : N) : list N := map N.of_nat (seq 1 (N.to_nat n)).

(** ** Cluster entries of the input trees *)

Record Cluster := {
  fCharge : float;
  fMaxADC : N;
  fTimeSlice : N;
  fNPixels : N;
  fNTimeSlices : N;
  fNPads : N;
  fPadrow : N;
  fPad : N
}.

(** A cluster tree of an input file: its name, of the form
    [TPCName]Sector[SectorId]Clusters, and its entries. *)
Record ClusterTree := {
  tree_GetName : string;
  tree_entries : list Cluster
}.

(** ** Histograms *)

Record TAxis := {
  axis_Nbins : Z;
  axis_Xmin : float;
  axis_Xmax : float
}.

(** A one-dimensional histogram: its axis and the values it was filled
    with, oldest first.  Every [Fill] adds one entry and one unit of
    content to the bin the axis assigns to the value. *)
Record TH1D := {
  GetXaxis : TAxis;
  fills : list float
}.

(** [new TH1D(name,title,nbins,xmin,xmax)]; the constructor of [TH1]
    turns a bin count that is not positive into 1. *)
Definition new_TH1D (nbins : Z) (xmin xmax : float) : TH1D :=
  {| GetXaxis := {| axis_Nbins := if (nbins <=? 0)%Z then 1%Z else nbins;
                    axis_Xmin := xmin; axis_Xmax := xmax |};
     fills := [] |}.

Definition Fill (h : TH1D) (x : float) : TH1D :=
  {| GetXaxis := GetXaxis h; fills := fills h ++ [x] |}.

Definition GetEntries (h : TH1D) : Z := Z.of_nat (length (fills h)).

(** The sector-level quality histograms; only what they were filled
    with is kept.  The program holds a (no cuts, all cuts) pair of each. *)
Record SectorQA := {
  qa_spectrum : list float;
  qa_padEntries : list (N * N);
  qa_timeSlices : list N;
  qa_chargeVsMaxADC : list (float * N);
  qa_nPadsVsNTimeSlices : list (N * N)
}.

Definition empty_QA : SectorQA :=
  {| qa_spectrum := []; qa_padEntries := []; qa_timeSlices := [];
     qa_chargeVsMaxADC := []; qa_nPadsVsNTimeSlices := [] |}.

Definition fill_QA (q : SectorQA) (charge : float) (e : Cluster) : SectorQA :=
  {| qa_spectrum := qa_spectrum q ++ [charge];
     qa_padEntries := qa_padEntries q ++ [(fPad e, fPadrow e)];
     qa_timeSlices := qa_timeSlices q ++ [fTimeSlice e];
     qa_chargeVsMaxADC := qa_chargeVsMaxADC q ++ [(charge, fMaxADC e)];
     qa_nPadsVsNTimeSlices := qa_nPadsVsNTimeSlices q ++ [(fNPads e, fNTimeSlices e)] |}.

Abbreviation PadKey := (N * N * N * N)%type.
Abbreviation SectorKey := (N * N)%type.

(** The histograms the cluster loop writes to: [fSpectraHistograms]
    (one per pad, clusters passing the cuts) and the sector quality
    pairs ([first]: no cuts, [second]: all cuts). *)
Record Spectra := {
  fSpectraHistograms : gmap PadKey TH1D;
  sectorQAHistograms : gmap SectorKey (SectorQA * SectorQA)
}.

(** ** Abnormal termination *)

Inductive Abort :=
| NullHistogram   (* [->Fill] through the null pointer that [operator[]] inserted *)
| NoSuchPadrow    (* [sector.GetPadrow] has no padrow to return *)
| NoSuchSector    (* [chamber.GetSector] has no sector to return *)
| NoSuchChamber   (* [tpc.GetChamber] has no chamber to return *)
| OutOfRange      (* [substr] from a position behind the end of the name *)
| NoNumber        (* [stoi] finds no number, or one that is no [int] *).

Inductive outcome (A : Type) :=
| Done (a : A)
| Aborted (why : Abort).
Arguments Done {A} a.
Arguments Aborted {A} why.

#[global] Instance outcome_ret : MRet outcome := fun A a => Done a.

#[global] Instance outcome_bind : MBind outcome := fun A B k m =>
  match m with
  | Done a => k a
  | Aborted w => Aborted w
  end.

(** A loop whose body can abort. *)
Fixpoint for_each {A S} (body : A -> S -> outcome S) (l : list A) (s : S)
  : outcome S :=
  match l with
  | [] => Done s
  | a :: l' => s' ← body a s; for_each body l' s'
  end.

(** ** Fit functions (TF1) *)

Record TF1 := {
  tf1_formula : string;
  tf1_xmin : float;
  tf1_xmax : float;
  tf1_fixed : list (nat * float);             (* FixParameter *)
  tf1_start : list (nat * float);             (* SetParameter *)
  tf1_limits : list (nat * (float * float))   (* SetParLimits *)
}.

(** ** Sector averagers *)

Abbreviation SectorAveragers := (gmap SectorKey (float * N)).

(** Modelled from the spec: [DEDXTools::SectorAveragers] is not part of
    the sources; it keeps a running (sum, count) per sector key. *)
Definition AddValue (acc : SectorAveragers) (tpcId sectorId : N) (v : float)
  : SectorAveragers :=
  let '(sum, count) := default (0, 0%N) (acc !! (tpcId, sectorId)) in
  <[(tpcId, sectorId) := (sum + v, (count + 1)%N)]> acc.

(** Modelled from the spec: the average of [DEDXTools::SectorAveragers]
    is sum/count, so it is 0/0 for a sector that received no value. *)
Definition GetAverage (acc : SectorAveragers) (tpcId sectorId : N) : float :=
  let '(sum, count) := default (0, 0%N) (acc !! (tpcId, sectorId)) in
  sum / N2double count.

(** ** What the program takes from ROOT, from the detector library and
    from the C++ library *)

Class External := {
  eVTPC1 : N;                               (* det::TPCConst::eVTPC1 *)
  GetId : string -> N;                      (* det::TPCConst::GetId *)
  to_float32 : float -> float;              (* narrowing double -> Float16_t *)
  FindBin : TAxis -> float -> Z;            (* TAxis::FindBin *)
  GetBinCenter : TAxis -> Z -> float;       (* TAxis::GetBinCenter *)
  Fit : TH1D -> TF1 -> nat -> float;        (* TH1::Fit, then GetParameter(i) *)
  stoi : string -> option Z;                (* std::stoi; [None] when it throws *)
  ostream_double : float -> string;         (* the text [stream << double] writes *)
  (* The order in which the nested unordered maps enumerate the pad
     histograms; the language leaves it open. *)
  iteration_order : gmap PadKey TH1D -> list (PadKey * TH1D)
}.

Section Analyzer.

Context {ext : External}.

Variable cfg : Config.
Variable updateGains : bool.

(** [TH1::GetBinContent]: the number of fills that fell in the bin. *)
Definition GetBinContent (h : TH1D) (bin : Z) : Z :=
  Z.of_nat (length (filter (fun x => (FindBin (GetXaxis h) x =? bin)%Z) (fills h))).

(** The lower search bound for the krypton peak; the two upstream
    sectors of VTPC1 have their own. *)
Definition minADCPeakSearch (tpcId sectorId : N) : float :=
  if ((tpcId =? eVTPC1)%N && ((sectorId =? 1)%N || (sectorId =? 4)%N))%bool
  then fMinADCPeakSearchVTPC1Upstream cfg
  else fMinADCPeakSearch cfg.

(** *** Creation of one histogram per active pad *)

Definition create_pad (tpcId sectorId padrowId : N)
    (m : gmap PadKey TH1D) (padId : N) : gmap PadKey TH1D :=
  let histogramMax := minADCPeakSearch tpcId sectorId * fHistogramPadding cfg in
  <[(tpcId, sectorId, padrowId, padId) :=
      new_TH1D (Int_t_of_UInt (fHistogramBins cfg)) 0 histogramMax]> m.

Definition create_padrow (tpcId sectorId : N)
    (m : gmap PadKey TH1D) (padrow : TPCPadrow) : gmap PadKey TH1D :=
  fold_left (create_pad tpcId sectorId (padrow_GetId padrow))
            (pad_ids (padrow_GetNPads padrow)) m.

Definition create_sector (tpcId : N)
    (m : gmap PadKey TH1D) (sector : TPCSector) : gmap PadKey TH1D :=
  fold_left (create_padrow tpcId (sector_GetId sector)) (sector_Padrows sector) m.

Definition create_chamber
    (m : gmap PadKey TH1D) (chamber : TPCChamber) : gmap PadKey TH1D :=
  if decide (chamber_GetId chamber ∈ fTPCIdList cfg)
  then fold_left (create_sector (chamber_GetId chamber)) (chamber_Sectors chamber) m
  else m.

Definition create_histograms (tpc : list TPCChamber) : gmap PadKey TH1D :=
  fold_left create_chamber tpc ∅.

(** *** The cluster loop *)

Definition QA_pair (st : Spectra) (k : SectorKey) : SectorQA * SectorQA :=
  default (empty_QA, empty_QA) (sectorQAHistograms st !! k).

Definition fill_no_cuts (k : SectorKey) (e : Cluster) (st : Spectra) : Spectra :=
  let '(first, second) := QA_pair st k in
  {| fSpectraHistograms := fSpectraHistograms st;
     sectorQAHistograms :=
       <[k := (fill_QA first (fCharge e) e, second)]> (sectorQAHistograms st) |}.

Definition fill_all_cuts (k : SectorKey) (charge : float) (e : Cluster)
    (h : TH1D) (st : Spectra) : Spectra :=
  let '(first, second) := QA_pair st k in
  {| fSpectraHistograms :=
       <[(k.1, k.2, fPadrow e, fPad e) := Fill h charge]> (fSpectraHistograms st);
     sectorQAHistograms :=
       <[k := (first, fill_QA second charge e)]> (sectorQAHistograms st) |}.

(** The body of the loop over the entries of one tree. *)
Definition process_entry (tpcId sectorId : N) (sector : TPCSector)
    (e : Cluster) (st : Spectra) : outcome Spectra :=
  let pad := fPad e in
  let padrow := fPadrow e in
  let nPads := fNPads e in
  let nTimeSlices := fNTimeSlices e in
  (* Fill sector QA histograms (no cuts). *)
  let st := fill_no_cuts (tpcId, sectorId) e st in
  (* Ignore zero charge bins. *)
  if fCharge e =? 0 then Done st else
  (* Cluster cuts. *)
  if (nPads <? fMinPads cfg)%N then Done st else
  if (fMaxPads cfg <? nPads)%N then Done st else
  if (nTimeSlices <? fMinTimeSlices cfg)%N then Done st else
  if (fMaxTimeSlices cfg <? nTimeSlices)%N then Done st else
  if (fTimeSlice e <? fMinTimeSliceNumber cfg)%N then Done st else
  if ((fCharge e <? fChargeCut cfg) && (N2double (fMaxADC e) <? fMaxADCCut cfg))%bool
  then Done st else
  charge ←
    (if updateGains then
       match sector_GetPadrow sector padrow with
       | Some detPadrow =>
           Done (to_float32 (fCharge e * padrow_GetPadGain detPadrow pad))
       | None => Aborted NoSuchPadrow
       end
     else Done (fCharge e));
  (* Fill pad histogram, then the sector QA histograms (all cuts). *)
  match fSpectraHistograms st !! (tpcId, sectorId, padrow, pad) with
  | Some h => Done (fill_all_cuts (tpcId, sectorId) charge e h st)
  | None => Aborted NullHistogram
  end.

(** [s.find(word)]: the position of the first occurrence, or [npos]. *)
Definition string_find (word s : string) : Z :=
  match String.index 0 word s with
  | Some n => Z.of_nat n
  | None => npos
  end.

(** [s.substr(pos,count)]: it throws when [pos] is behind the end, and
    stops at the end. *)
Definition substr (s : string) (pos count : Z) : outcome string :=
  let size := Z.of_nat (String.length s) in
  if (size <? pos)%Z then Aborted OutOfRange
  else Done (String.substring (Z.to_nat pos)
                              (Z.to_nat (Z.min count (size - pos))) s).

(** Identify TPC and sector from the name of the tree. *)
Definition identify (treeName : string) : outcome (N * N) :=
  tpcName ← substr treeName 0 (string_find "Sector" treeName);
  let sectorIdStart := size_t (string_find "Sector" treeName + 6) in
  let sectorIdStop := string_find "Clusters" treeName in
  sectorIdString ← substr treeName sectorIdStart
                          (size_t (sectorIdStop - sectorIdStart));
  let tpcId := GetId tpcName in
  match stoi sectorIdString with
  | Some sectorId => Done (tpcId, UInt_of_int sectorId)
  | None => Aborted NoNumber
  end.

(** [tpc.GetChamber(tpcId).GetSector(sectorId)] *)
Definition GetSector (tpc : list TPCChamber) (tpcId sectorId : N)
  : outcome TPCSector :=
  match tpc_GetChamber tpc tpcId with
  | Some chamber =>
      match chamber_GetSector chamber sectorId with
      | Some sector => Done sector
      | None => Aborted NoSuchSector
      end
  | None => Aborted NoSuchChamber
  end.

(** What is done for a tree before its chamber is looked up in the
    calibration list. *)
Definition resolve (tpc : list TPCChamber) (t : ClusterTree)
  : outcome (N * N * TPCSector) :=
  ids ← identify (tree_GetName t);
  sector ← GetSector tpc ids.1 ids.2;
  Done (ids.1, ids.2, sector).

(** One tree: trees without entries are ignored, and trees of chambers
    that are not calibrated are skipped once they are identified.  The
    quality histograms of the sector are dimensioned with the pad
    count of [sector.GetPadrow(sector.GetNPadrows())]. *)
Definition process_tree (tpc : list TPCChamber) (t : ClusterTree) (st : Spectra)
  : outcome Spectra :=
  match tree_entries t with
  | [] => Done st
  | _ =>
    ids ← resolve tpc t;
    let tpcId := ids.1.1 in
    let sectorId := ids.1.2 in
    let sector := ids.2 in
    if decide (tpcId ∈ fTPCIdList cfg) then
      match sector_GetPadrow sector (sector_GetNPadrows sector) with
      | Some _ =>
        let k := (tpcId, sectorId) in
        let st :=
          {| fSpectraHistograms := fSpectraHistograms st;
             sectorQAHistograms := <[k := QA_pair st k]> (sectorQAHistograms st) |} in
        for_each (process_entry tpcId sectorId sector) (tree_entries t) st
      | None => Aborted NoSuchPadrow
      end
    else Done st
  end.

(** The cluster loop; [trees] are the trees of the input files that
    could be opened, in the order of the files and of their keys. *)
Definition fill_spectra (tpc : list TPCChamber) (trees : list ClusterTree)
  : outcome Spectra :=
  for_each (process_tree tpc) trees
    {| fSpectraHistograms := create_histograms tpc; sectorQAHistograms := ∅ |}.

(** *** Peak search and fit of one pad spectrum *)

Definition lastBin (h : TH1D) : Z := axis_Nbins (GetXaxis h) - 1.

Definition maxCharge (h : TH1D) : float := GetBinCenter (GetXaxis h) (lastBin h).

(** The running maximum of the search: [maxBin], [chargePeak],
    [chargePeakValue].  Bin contents are counts of fills, which doubles
    hold exactly, so [chargePeakValue] is kept as an integer and
    [binContent < 0.5*chargePeakValue] is [2*binContent < chargePeakValue]. *)
Record PeakSearch := {
  maxBin : Z;
  chargePeak : float;
  chargePeakValue : Z
}.

Definition scan_bin (tpcId sectorId : N) (h : TH1D) (p : PeakSearch) (i : Z)
  : PeakSearch :=
  let binCenter := GetBinCenter (GetXaxis h) i in
  if binCenter <? minADCPeakSearch tpcId sectorId then p else
  let value := GetBinContent h i in
  if (chargePeakValue p <? value)%Z
  then {| maxBin := i; chargePeak := binCenter; chargePeakValue := value |}
  else p.

(** [for (int i = 0; i < lastBin; ++i)] *)
Definition find_peak (tpcId sectorId : N) (h : TH1D) : PeakSearch :=
  fold_left (scan_bin tpcId sectorId h) (seqZ 0 (lastBin h))
            {| maxBin := 0; chargePeak := 0; chargePeakValue := 0 |}.

Definition below_half (h : TH1D) (p : PeakSearch) (bin : Z) : bool :=
  (2 * GetBinContent h bin <? chargePeakValue p)%Z.

(** [for (int bin = maxBin; bin > 0; --bin)], left at the first bin
    below half of the peak value. *)
Definition minChargeForFit (h : TH1D) (p : PeakSearch) : float :=
  match find (below_half h p) (reverse (seqZ 1 (maxBin p))) with
  | Some bin => GetBinCenter (GetXaxis h) bin
  | None => 0
  end.

(** [for (int bin = maxBin; bin <= lastBin; ++bin)], likewise. *)
Definition maxChargeForFit (h : TH1D) (p : PeakSearch) : float :=
  match find (below_half h p) (seqZ (maxBin p) (lastBin h - maxBin p + 1)) with
  | Some bin => GetBinCenter (GetXaxis h) bin
  | None => 0
  end.

Definition gausFit (h : TH1D) (p : PeakSearch) : TF1 :=
  {| tf1_formula := "gaus";
     tf1_xmin := minChargeForFit h p;
     tf1_xmax := maxChargeForFit h p;
     tf1_fixed := []; tf1_start := []; tf1_limits := [] |}.

Definition fermiFit (h : TH1D) (p : PeakSearch) : TF1 :=
  {| tf1_formula := "[0]/(1+TMath::Exp([1]*(x-[2])))";
     tf1_xmin := chargePeak p;
     tf1_xmax := maxCharge h;
     tf1_fixed := [(0%nat, Z2double (chargePeakValue p))];
     tf1_start := [(1%nat, 0.01); (2%nat, chargePeak p)];
     tf1_limits := [(1%nat, (0.0001, 1))] |}.

(** What the second pass computes: the fitted position of every pad
    that was fitted, and the sector averagers. *)
Record Peaks := {
  spectrumADCs : gmap PadKey float;
  totalAccumulators : SectorAveragers
}.

Definition record_peak (k : PadKey) (v : float) (p : Peaks) : Peaks :=
  {| spectrumADCs := <[k := v]> (spectrumADCs p);
     totalAccumulators := AddValue (totalAccumulators p) k.1.1.1 k.1.1.2 v |}.

(** The body of the pad loop of the second pass. *)
Definition locate_pad (p : Peaks) (kh : PadKey * TH1D) : Peaks :=
  let '(k, padHistogram) := kh in
  let tpcId := k.1.1.1 in
  let sectorId := k.1.1.2 in
  let peak := find_peak tpcId sectorId padHistogram in
  (* Don't do anything for pads with too few entries. *)
  if (Z.of_N (fMinHistogramEntries cfg) <=? GetEntries padHistogram)%Z then
    if String.eqb (fFitFunction cfg) "Gaussian" then
      record_peak k (Fit padHistogram (gausFit padHistogram peak) 1%nat) p
    else if String.eqb (fFitFunction cfg) "Fermi" then
      record_peak k (Fit padHistogram (fermiFit padHistogram peak) 2%nat) p
    else p
  else p.

(** The second pass, over the pad histograms in the order the
    unordered containers happen to enumerate them. *)
Definition locate_all (order : list (PadKey * TH1D)) : Peaks :=
  fold_left locate_pad order {| spectrumADCs := ∅; totalAccumulators := ∅ |}.

(** *** Gains, gain table and result tree *)

Inductive Token :=
| XML_header                  (* prolog and <PadByPadGain ...> *)
| TPC_open (tpcId : N)        (* <TPC name=...> *)
| Sector_open (sectorId : N)  (* <Sector id=...> *)
| Padrow_open (padrowId : N)  (* <Padrow id=...> *)
| PadGains_open               (* <PadGains> *)
| Value (text : string)       (* one number, as text, and a blank *)
| PadGains_close
| Padrow_close
| Sector_close
| TPC_close
| XML_footer                  (* </PadByPadGain> *).

Record ResultRow := {
  row_TPCId : N;
  row_SectorId : N;
  row_PadrowId : N;
  row_PadId : N;
  row_SpectrumADC : float;
  row_Gain : float
}.

Record Output := {
  gainsFileStream : list Token;
  fResultTree : list ResultRow
}.

Definition put (out : Output) (t : Token) : Output :=
  {| gainsFileStream := gainsFileStream out ++ [t]; fResultTree := fResultTree out |}.

(** [spectrumADCs[tpcId][sectorId][padrowId][padId]]: a pad that was
    not fitted reads as the value-initialised 0. *)
Definition padADC_of (p : Peaks) (k : PadKey) : float :=
  default 0 (spectrumADCs p !! k).

Definition computeGain (priorGain sectorADC padADC : float) : float :=
  if updateGains then priorGain * sectorADC / padADC else sectorADC / padADC.

Definition sanitize (gain : float) : float :=
  if (is_nan gain || is_infinity gain)%bool then 0 else gain.

Definition acceptable (gain : float) : bool :=
  ((fMinAcceptableGain cfg <? gain) && (gain <? fMaxAcceptableGain cfg))%bool.

(** The number that is written: [gain], or [-1.0]. *)
Definition table_value (gain : float) : float :=
  if acceptable gain then gain else -1.

(** The body of the pad loop of the third pass. *)
Definition emit_pad (p : Peaks) (chamber : TPCChamber) (sectorId : N)
    (sectorADC : float) (padrow : TPCPadrow) (out : Output) (padId : N) : Output :=
  let tpcId := chamber_GetId chamber in
  let padrowId := padrow_GetId padrow in
  let padADC := padADC_of p (tpcId, sectorId, padrowId, padId) in
  let gain := computeGain (padrow_GetPadGain padrow padId) sectorADC padADC in
  if decide (chamber_GetId chamber ∈ fTPCIdList cfg) then
    (* Record information in output file. *)
    let row := {| row_TPCId := tpcId; row_SectorId := sectorId;
                  row_PadrowId := padrowId; row_PadId := padId;
                  row_SpectrumADC := padADC; row_Gain := sanitize gain |} in
    {| gainsFileStream :=
         gainsFileStream out ++ [Value (ostream_double (table_value gain))];
       fResultTree := fResultTree out ++ [row] |}
  else out.

Definition emit_padrow (p : Peaks) (chamber : TPCChamber) (sectorId : N)
    (sectorADC : float) (out : Output) (padrow : TPCPadrow) : Output :=
  let out := put out (Padrow_open (padrow_GetId padrow)) in
  let out := put out PadGains_open in
  let out := fold_left (emit_pad p chamber sectorId sectorADC padrow)
                       (pad_ids (padrow_GetNPads padrow)) out in
  let out := put out PadGains_close in
  put out Padrow_close.

Definition emit_sector (p : Peaks) (chamber : TPCChamber)
    (out : Output) (sector : TPCSector) : Output :=
  let sectorId := sector_GetId sector in
  let sectorADC := GetAverage (totalAccumulators p) (chamber_GetId chamber) sectorId in
  let out := put out (Sector_open sectorId) in
  let out := fold_left (emit_padrow p chamber sectorId sectorADC)
                       (sector_Padrows sector) out in
  put out Sector_close.

Definition emit_chamber (p : Peaks) (out : Output) (chamber : TPCChamber) : Output :=
  let out := put out (TPC_open (chamber_GetId chamber)) in
  let out := fold_left (emit_sector p chamber) (chamber_Sectors chamber) out in
  put out TPC_close.

Definition emit_table (p : Peaks) (tpc : list TPCChamber) : Output :=
  let out := {| gainsFileStream := [XML_header]; fResultTree := [] |} in
  let out := fold_left (emit_chamber p) tpc out in
  put out XML_footer.

(** *** The whole run *)

Record Run := {
  exitCode : Z;
  gainsFile : list Token;
  resultTree : list ResultRow
}.

Definition analyze (tpc : list TPCChamber) (trees : list ClusterTree) : outcome Run :=
  st ← fill_spectra tpc trees;
  let peaks := locate_all (iteration_order (fSpectraHistograms st)) in
  let out := emit_table peaks tpc in
  Done {| exitCode := 0;
          gainsFile := gainsFileStream out;
          resultTree := fResultTree out |}.

End Analyzer.

(** ** A concrete instance, to run the program on examples

    Fixed-width axes as ROOT computes them, a conversion to single
    precision that keeps the value, the enumeration order of the map
    library, the chamber names of the detector, [stoi] on decimal
    numbers and the default formatting of doubles stand in for the
    parts the program takes from outside. *)

Module ROOT.

(** Truncation of a double towards zero ([int(x)] in [TAxis::FindBin]). *)
Definition trunc (x : float) : Z :=
  match Prim2SF x with
  | S754_finite s m e =>
      let a := match e with
               | Zneg k => (Zpos m / 2 ^ Zpos k)%Z
               | _ => (Zpos m * 2 ^ e)%Z
               end in
      if s then (- a)%Z else a
  | _ => 0%Z
  end.

Definition axis_FindBin (ax : TAxis) (x : float) : Z :=
  if x <? axis_Xmin ax then 0%Z
  else if negb (x <? axis_Xmax ax) then (axis_Nbins ax + 1)%Z
  else (1 + trunc (Z2double (axis_Nbins ax) * (x - axis_Xmin ax)
                   / (axis_Xmax ax - axis_Xmin ax)))%Z.

Definition axis_GetBinCenter (ax : TAxis) (bin : Z) : float :=
  let binwidth := (axis_Xmax ax - axis_Xmin ax) / Z2double (axis_Nbins ax) in
  axis_Xmin ax + Z2double (bin - 1) * binwidth + 0.5 * binwidth.

(** A stand-in for the minimiser: it reports the middle of the fit
    range for every parameter. *)
Definition midrange_Fit (h : TH1D) (f : TF1) (i : nat) : float :=
  (tf1_xmin f + tf1_xmax f) / 2.

(** The chamber names; 0 stands for [eUnknown]. *)
Definition TPCConst_GetId (name : string) : N :=
  if String.eqb name "VTPC1" then 1
  else if String.eqb name "VTPC2" then 2
  else if String.eqb name "GTPC" then 3
  else if String.eqb name "MTPCL" then 4
  else if String.eqb name "MTPCR" then 5
  else if String.eqb name "FTPC1" then 6
  else if String.eqb name "FTPC2" then 7
  else if String.eqb name "FTPC3" then 8
  else 0.

(** [std::stoi]: blanks, a sign, decimal digits; what follows the
    digits is ignored. *)
Definition is_space (c : Ascii.ascii) : bool :=
  let n := Ascii.nat_of_ascii c in
  ((n =? 32) || ((9 <=? n) && (n <=? 13)))%nat.

Fixpoint skip_spaces (s : string) : string :=
  match s with
  | String c s' => if is_space c then skip_spaces s' else s
  | EmptyString => s
  end.

Fixpoint read_digits (s : string) (acc : option Z) : option Z :=
  match s with
  | String c s' =>
      let n := Ascii.nat_of_ascii c in
      if ((48 <=? n) && (n <=? 57))%nat
      then read_digits s' (Some (10 * default 0 acc + Z.of_nat (n - 48))%Z)
      else acc
  | EmptyString => acc
  end.

Definition std_stoi (s : string) : option Z :=
  let s := skip_spaces s in
  let '(negative, digits) :=
    if String.prefix "-" s then (true, String.substring 1 (String.length s) s)
    else if String.prefix "+" s then (false, String.substring 1 (String.length s) s)
    else (false, s) in
  match read_digits digits None with
  | Some v =>
      let v := if negative then (- v)%Z else v in
      if ((- 2 ^ 31 <=? v) && (v <? 2 ^ 31))%Z then Some v else None
  | None => None
  end.

(** Decimal digits of a non-negative integer, most significant first. *)
Fixpoint digits_of (fuel : nat) (n : Z) (acc : list Z) : list Z :=
  match fuel with
  | O => acc
  | S fuel' =>
      let acc' := (n mod 10)%Z :: acc in
      if (n <? 10)%Z then acc' else digits_of fuel' (n / 10)%Z acc'
  end.

Definition digit_char (d : Z) : Ascii.ascii := Ascii.ascii_of_nat (48 + Z.to_nat d).

Definition text_of_digits (ds : list Z) : string :=
  fold_right (fun d s => String (digit_char d) s) EmptyString ds.

Fixpoint strip_zeros (rev_digits : list Z) : list Z :=
  match rev_digits with
  | 0%Z :: ds => strip_zeros ds
  | _ => rev_digits
  end.

(** The digits of a fraction without its trailing zeros, with the point
    when any digit is left. *)
Definition fraction_text (ds : list Z) : string :=
  match rev (strip_zeros (rev ds)) with
  | [] => EmptyString
  | ds' => ("." ++ text_of_digits ds')%string
  end.

(** [v = num/den] compared with [10^X]. *)
Definition at_least_pow10 (num den X : Z) : bool :=
  if (0 <=? X)%Z then (den * 10 ^ X <=? num)%Z else (den <=? num * 10 ^ (- X))%Z.

Fixpoint adjust_exponent (fuel : nat) (num den X : Z) : Z :=
  match fuel with
  | O => X
  | S fuel' =>
      if negb (at_least_pow10 num den X) then adjust_exponent fuel' num den (X - 1)
      else if at_least_pow10 num den (X + 1) then adjust_exponent fuel' num den (X + 1)
      else X
  end.

(** [num/den * 10^(5-X)] rounded to the nearest integer, ties to even. *)
Definition six_digits (num den X : Z) : Z :=
  let '(n, d) := if (X <=? 5)%Z then (num * 10 ^ (5 - X), den)%Z
                 else (num, den * 10 ^ (X - 5))%Z in
  let q := (n / d)%Z in
  let r := (n mod d)%Z in
  match (2 * r ?= d)%Z with
  | Lt => q
  | Gt => (q + 1)%Z
  | Eq => if Z.even q then q else (q + 1)%Z
  end.

Definition exponent_text (X : Z) : string :=
  let a := Z.abs X in
  let ds := digits_of 5 a [] in
  ("e" ++ (if (X <? 0)%Z then "-" else "+")
   ++ text_of_digits (if (a <? 10)%Z then 0%Z :: ds else ds))%string.

(** A positive [num/den] as [%g] prints it with precision 6. *)
Definition positive_text (num den : Z) : string :=
  let X0 := ((Z.log2 num - Z.log2 den) * 30103 / 100000)%Z in
  let X1 := adjust_exponent 4 num den X0 in
  let d1 := six_digits num den X1 in
  let '(d, X) := if (1000000 <=? d1)%Z then (100000, X1 + 1)%Z else (d1, X1) in
  let ds := digits_of 6 d [] in
  if ((X <? -4) || (6 <=? X))%Z then
    (text_of_digits (take 1 ds) ++ fraction_text (drop 1 ds) ++ exponent_text X)%string
  else if (X <? 0)%Z then
    ("0" ++ fraction_text (replicate (Z.to_nat (- X - 1)) 0%Z ++ ds))%string
  else
    (text_of_digits (take (Z.to_nat (X + 1)) ds)
     ++ fraction_text (drop (Z.to_nat (X + 1)) ds))%string.

(** [operator<<(double)] of a stream in its initial state: [%g] with
    precision 6. *)
Definition print_double (x : float) : string :=
  match Prim2SF x with
  | S754_zero s => if s then "-0" else "0"
  | S754_infinity s => if s then "-inf" else "inf"
  | S754_nan => "nan"
  | S754_finite s m e =>
      let '(num, den) := if (0 <=? e)%Z then (Zpos m * 2 ^ e, 1)%Z
                         else (Zpos m, 2 ^ (- e))%Z in
      ((if s then "-" else EmptyString) ++ positive_text num den)%string
  end.

#[global] Instance instance : External := {|
  eVTPC1 := 1;
  GetId := TPCConst_GetId;
  to_float32 := fun x => x;
  FindBin := axis_FindBin;
  GetBinCenter := axis_GetBinCenter;
  Fit := midrange_Fit;
  stoi := std_stoi;
  ostream_double := print_double;
  iteration_order := map_to_list
|}.

End ROOT.

(** ** Blocks of the gain table, as the format describes them

    The table is a sequence of TPC blocks in detector order; a TPC
    block holds its sector blocks, a sector block its padrow blocks,
    and a padrow block one value per pad, pads ascending from 1. *)

Section Layout.

Context {ext : External} (cfg : Config) (updateGains : bool) (p : Peaks).

Definition pad_gain (tpcId sectorId : N) (sectorADC : float)
    (padrow : TPCPadrow) (padId : N) : float :=
  computeGain updateGains (padrow_GetPadGain padrow padId) sectorADC
    (padADC_of p (tpcId, sectorId, padrow_GetId padrow, padId)).

Definition pad_row (tpcId sectorId : N) (sectorADC : float)
    (padrow : TPCPadrow) (padId : N) : ResultRow :=
  {| row_TPCId := tpcId; row_SectorId := sectorId;
     row_PadrowId := padrow_GetId padrow; row_PadId := padId;
     row_SpectrumADC := padADC_of p (tpcId, sectorId, padrow_GetId padrow, padId);
     row_Gain := sanitize (pad_gain tpcId sectorId sectorADC padrow padId) |}.

Definition padrow_values (chamber : TPCChamber) (sectorId : N)
    (sectorADC : float) (padrow : TPCPadrow) : list Token :=
  if decide (chamber_GetId chamber ∈ fTPCIdList cfg) then
    map (fun padId => Value (ostream_double (table_value cfg
           (pad_gain (chamber_GetId chamber) sectorId sectorADC padrow padId))))
        (pad_ids (padrow_GetNPads padrow))
  else [].

Definition padrow_rows (chamber : TPCChamber) (sectorId : N)
    (sectorADC : float) (padrow : TPCPadrow) : list ResultRow :=
  if decide (chamber_GetId chamber ∈ fTPCIdList cfg) then
    map (pad_row (chamber_GetId chamber) sectorId sectorADC padrow)
        (pad_ids (padrow_GetNPads padrow))
  else [].

Definition padrow_block (chamber : TPCChamber) (sectorId : N)
    (sectorADC : float) (padrow : TPCPadrow) : list Token :=
  [Padrow_open (padrow_GetId padrow); PadGains_open]
  ++ padrow_values chamber sectorId sectorADC padrow
  ++ [PadGains_close; Padrow_close].

Definition sector_block (chamber : TPCChamber) (sector : TPCSector) : list Token :=
  let sectorADC := GetAverage (totalAccumulators p)
                     (chamber_GetId chamber) (sector_GetId sector) in
  [Sector_open (sector_GetId sector)]
  ++ flat_map (padrow_block chamber (sector_GetId sector) sectorADC)
              (sector_Padrows sector)
  ++ [Sector_close].

Definition sector_rows (chamber : TPCChamber) (sector : TPCSector) : list ResultRow :=
  let sectorADC := GetAverage (totalAccumulators p)
                     (chamber_GetId chamber) (sector_GetId sector) in
  flat_map (padrow_rows chamber (sector_GetId sector) sectorADC)
           (sector_Padrows sector).

Definition chamber_block (chamber : TPCChamber) : list Token :=
  [TPC_open (chamber_GetId chamber)]
  ++ flat_map (sector_block chamber) (chamber_Sectors chamber)
  ++ [TPC_close].

Definition chamber_rows (chamber : TPCChamber) : list ResultRow :=
  flat_map (sector_rows chamber) (chamber_Sectors chamber).

Definition table_layout (tpc : list TPCChamber) : list Token :=
  [XML_header] ++ flat_map chamber_block tpc ++ [XML_footer].

End Layout.

(** The markers of a TPC block, with nothing between <PadGains> and
    </PadGains>. *)
Definition empty_padrow_block (padrow : TPCPadrow) : list Token :=
  [Padrow_open (padrow_GetId padrow); PadGains_open; PadGains_close; Padrow_close].

Definition empty_sector_block (sector : TPCSector) : list Token :=
  [Sector_open (sector_GetId sector)]
  ++ flat_map empty_padrow_block (sector_Padrows sector)
  ++ [Sector_close].

Definition empty_chamber_block (chamber : TPCChamber) : list Token :=
  [TPC_open (chamber_GetId chamber)]
  ++ flat_map empty_sector_block (chamber_Sectors chamber)
  ++ [TPC_close].

(** A table with its numbers blanked: what is left is its nesting. *)
Definition blank (t : Token) : Token :=
  match t with
  | Value _ => Value EmptyString
  | _ => t
  end.

Definition is_value (t : Token) : bool :=
  match t with
  | Value _ => true
  | _ => false
  end.

Definition extend (out : Output) (ts : list Token) (rs : list ResultRow) : Output :=
  {| gainsFileStream := gainsFileStream out ++ ts;
     fResultTree := fResultTree out ++ rs |}.

(** ** Notions used to state the properties *)

(** The number a token carries is the text of −1, or of a finite
    gain that passed the test of the bounds. *)
Definition value_ok `{ext : External} (cfg : Config) (t : Token) : Prop :=
  match t with
  | Value text =>
      exists v, text = ostream_double v
                /\ (v = -1 \/ (acceptable cfg v = true /\ is_finite v = true))
  | _ => True
  end.

(** The number a token carries is the text of −1 or of a positive
    number. *)
Definition value_positive `{ext : External} (t : Token) : Prop :=
  match t with
  | Value text => exists v, text = ostream_double v /\ (v = -1 \/ (0 <? v) = true)
  | _ => True
  end.

(** The conditions under which the loop body leaves a cluster out,
    in the order the program tests them. *)
Definition skipped (cfg : Config) (e : Cluster) : bool :=
  (fCharge e =? 0)
  || (fNPads e <? fMinPads cfg)%N
  || (fMaxPads cfg <? fNPads e)%N
  || (fNTimeSlices e <? fMinTimeSlices cfg)%N
  || (fMaxTimeSlices cfg <? fNTimeSlices e)%N
  || (fTimeSlice e <? fMinTimeSliceNumber cfg)%N
  || ((fCharge e <? fChargeCut cfg) && (N2double (fMaxADC e) <? fMaxADCCut cfg)).

(** The acceptance predicate, as C1 words it. *)
Definition accepted (cfg : Config) (e : Cluster) : Prop :=
  (fCharge e =? 0) = false
  /\ (fMinPads cfg <= fNPads e <= fMaxPads cfg)%N
  /\ (fMinTimeSlices cfg <= fNTimeSlices e <= fMaxTimeSlices cfg)%N
  /\ (fMinTimeSliceNumber cfg <= fTimeSlice e)%N
  /\ ((fChargeCut cfg <=? fCharge e) = true
      \/ (fMaxADCCut cfg <=? N2double (fMaxADC e)) = true).

(** The charge that goes into the histograms of accepted clusters. *)
Definition filled_charge `{ext : External} (updateGains : bool)
    (sector : TPCSector) (e : Cluster) : outcome float :=
  if updateGains then
    match sector_GetPadrow sector (fPadrow e) with
    | Some detPadrow =>
        Done (to_float32 (fCharge e * padrow_GetPadGain detPadrow (fPad e)))
    | None => Aborted NoSuchPadrow
    end
  else Done (fCharge e).

(** The pad histogram has the entries a fit needs. *)
Definition enough_entries (cfg : Config) (h : TH1D) : bool :=
  (Z.of_N (fMinHistogramEntries cfg) <=? GetEntries h)%Z.

(** The number of values a sector's averager has received. *)
Definition sector_count (acc : SectorAveragers) (tpcId sectorId : N) : N :=
  (default (0, 0%N) (acc !! (tpcId, sectorId))).2.

Definition in_sector (tpcId sectorId : N) (k : PadKey) : bool :=
  ((k.1.1.1 =? tpcId)%N && (k.1.1.2 =? sectorId)%N)%bool.

(** A bin takes part in the peak search: its centre is not below the
    lower search bound. *)
Definition eligible `{ext : External} (cfg : Config) (tpcId sectorId : N)
    (h : TH1D) (i : Z) : Prop :=
  (GetBinCenter (GetXaxis h) i <? minADCPeakSearch cfg tpcId sectorId) = false.

Definition no_peak : PeakSearch :=
  {| maxBin := 0; chargePeak := 0; chargePeakValue := 0 |}.

(** What the search has established after the bins below [n]:
    [chargePeakValue] bounds the content of every eligible bin; when it
    is positive, [maxBin] is the first eligible bin holding it and
    [chargePeak] is its centre. *)
Definition peak_found `{ext : External} (cfg : Config) (tpcId sectorId : N)
    (h : TH1D) (n : Z) (pk : PeakSearch) : Prop :=
  (0 <= chargePeakValue pk)%Z
  /\ (forall i, (0 <= i < n)%Z -> eligible cfg tpcId sectorId h i ->
                (GetBinContent h i <= chargePeakValue pk)%Z)
  /\ (chargePeakValue pk = 0%Z -> pk = no_peak)
  /\ ((0 < chargePeakValue pk)%Z ->
      (0 <= maxBin pk < n)%Z
      /\ eligible cfg tpcId sectorId h (maxBin pk)
      /\ GetBinContent h (maxBin pk) = chargePeakValue pk
      /\ chargePeak pk = GetBinCenter (GetXaxis h) (maxBin pk)
      /\ forall i, (0 <= i < maxBin pk)%Z -> eligible cfg tpcId sectorId h i ->
                   (GetBinContent h i < chargePeakValue pk)%Z).


(** ** Example data *)

Definition cfgA : Config :=
  {| fTPCIdList := {[ 1%N ]};
     fFitFunction := "Gaussian";
     fMinAcceptableGain := 0.5;
     fMaxAcceptableGain := 2;
     fMinHistogramEntries := 2;
     fHistogramBins := 8;
     fHistogramPadding := 4;
     fMinPads := 2; fMaxPads := 5; fMinTimeSliceNumber := 3;
     fMinTimeSlices := 2; fMaxTimeSlices := 6;
     fMaxADCCut := 50; fChargeCut := 1;
     fMinADCPeakSearch := 2; fMinADCPeakSearchVTPC1Upstream := 2 |}.

Definition padrowA : TPCPadrow :=
  {| padrow_GetId := 1; padrow_GetNPads := 2; padrow_GetPadGain := fun _ => 2 |}.

Definition sectorA : TPCSector :=
  {| sector_GetId := 2; sector_Padrows := [padrowA] |}.

(** Chamber 1 is calibrated by [cfgA], chamber 7 is not. *)
Definition chamber1 : TPCChamber := {| chamber_GetId := 1; chamber_Sectors := [sectorA] |}.
Definition chamber7 : TPCChamber := {| chamber_GetId := 7; chamber_Sectors := [sectorA] |}.

Definition no_peaks : Peaks := {| spectrumADCs := ∅; totalAccumulators := ∅ |}.

Definition no_output : Output := {| gainsFileStream := []; fResultTree := [] |}.

(** Pad 1 of padrow 1, sector 2, chamber 1 was fitted at 50; the sector
    received the two values 50 and 150. *)
Definition peaksA : Peaks :=
  {| spectrumADCs := {[ (1%N, 2%N, 1%N, 1%N) := 50 ]};
     totalAccumulators := {[ (1%N, 2%N) := (200, 2%N) ]} |}.

(** Bounds that have 0 strictly between them. *)
Definition cfgW : Config :=
  {| fTPCIdList := {[ 1%N ]};
     fFitFunction := "Gaussian";
     fMinAcceptableGain := -1;
     fMaxAcceptableGain := 1;
     fMinHistogramEntries := 2;
     fHistogramBins := 8;
     fHistogramPadding := 4;
     fMinPads := 2; fMaxPads := 5; fMinTimeSliceNumber := 3;
     fMinTimeSlices := 2; fMaxTimeSlices := 6;
     fMaxADCCut := 50; fChargeCut := 1;
     fMinADCPeakSearch := 2; fMinADCPeakSearchVTPC1Upstream := 2 |}.

(** The histograms before the first cluster, for chamber 1 of the
    examples: pads 1 and 2 of padrow 1 in sector 2. *)
Definition spectraA : Spectra :=
  {| fSpectraHistograms := create_histograms cfgA [chamber1; chamber7];
     sectorQAHistograms := ∅ |}.

Definition cluster (q : float) (nPads pad : N) : Cluster :=
  {| fCharge := q; fMaxADC := 60; fTimeSlice := 10; fNPixels := 9;
     fNTimeSlices := 3; fNPads := nPads; fPadrow := 1; fPad := pad |}.

(** A tree of sector 2 of chamber 1.  Pad 9 does not exist in padrow
    1, which has two pads. *)
Definition treeA (entries : list Cluster) : ClusterTree :=
  {| tree_GetName := "VTPC1Sector2Clusters"; tree_entries := entries |}.

(** A tree of a chamber that is not calibrated, with a name that holds
    no sector number. *)
Definition treeUnnumbered : ClusterTree :=
  {| tree_GetName := "VTPC2SectorClusters";
     tree_entries := [cluster 2.5 3 1] |}.

(** A cluster whose charge is NaN and whose maximal ADC is below the cut. *)
Definition nan_cluster : Cluster :=
  {| fCharge := nan; fMaxADC := 0; fTimeSlice := 10; fNPixels := 9;
     fNTimeSlices := 3; fNPads := 3; fPadrow := 1; fPad := 1 |}.

(** Pad 1 was fitted at 50 and its sector averages −25. *)
Definition peaksNeg : Peaks :=
  {| spectrumADCs := {[ (1%N, 2%N, 1%N, 1%N) := 50 ]};
     totalAccumulators := {[ (1%N, 2%N) := (-50, 2%N) ]} |}.

(** A histogram with three fills, all in the bin around 5.5. *)
Definition histA : TH1D :=
  {| GetXaxis := {| axis_Nbins := 8; axis_Xmin := 0; axis_Xmax := 8 |};
     fills := [5.5; 5.2; 5.7] |}.

(** A histogram whose fullest bin is the last but one, bin 7. *)
Definition histB : TH1D :=
  {| GetXaxis := {| axis_Nbins := 8; axis_Xmin := 0; axis_Xmax := 8 |};
     fills := [6.5; 6.2; 6.7; 5.5] |}.

Definition cfgLower : Config :=
  {| fTPCIdList := {[ 1%N ]};
     fFitFunction := "gaussian";
     fMinAcceptableGain := 0.5;
     fMaxAcceptableGain := 2;
     fMinHistogramEntries := 2;
     fHistogramBins := 8;
     fHistogramPadding := 4;
     fMinPads := 2; fMaxPads := 5; fMinTimeSliceNumber := 3;
     fMinTimeSlices := 2; fMaxTimeSlices := 6;
     fMaxADCCut := 50; fChargeCut := 1;
     fMinADCPeakSearch := 2; fMinADCPeakSearchVTPC1Upstream := 2 |}.

Definition cfgFermi : Config :=
  {| fTPCIdList := {[ 1%N ]};
     fFitFunction := "Fermi";
     fMinAcceptableGain := 0.5;
     fMaxAcceptableGain := 2;
     fMinHistogramEntries := 2;
     fHistogramBins := 8;
     fHistogramPadding := 4;
     fMinPads := 2; fMaxPads := 5; fMinTimeSliceNumber := 3;
     fMinTimeSlices := 2; fMaxTimeSlices := 6;
     fMaxADCCut := 50; fChargeCut := 1;
     fMinADCPeakSearch := 2; fMinADCPeakSearchVTPC1Upstream := 2 |}.

(** A histogram with a single entry. *)
Definition histOne : TH1D :=
  {| GetXaxis := {| axis_Nbins := 8; axis_Xmin := 0; axis_Xmax := 8 |};
     fills := [5.5] |}.

(** ** Notions used to state further properties *)

(** The pads that get a histogram, in the order of the creation loops:
    every pad of every padrow of every sector of the chambers in the
    calibration list. *)
Definition padrow_pads (tpcId sectorId : N) (padrow : TPCPadrow) : list PadKey :=
  map (fun padId => (tpcId, sectorId, padrow_GetId padrow, padId))
      (pad_ids (padrow_GetNPads padrow)).

Definition sector_pads (tpcId : N) (sector : TPCSector) : list PadKey :=
  flat_map (padrow_pads tpcId (sector_GetId sector)) (sector_Padrows sector).

Definition chamber_pads (cfg : Config) (chamber : TPCChamber) : list PadKey :=
  if decide (chamber_GetId chamber ∈ fTPCIdList cfg)
  then flat_map (sector_pads (chamber_GetId chamber)) (chamber_Sectors chamber)
  else [].

Definition calibrated_pads (cfg : Config) (tpc : list TPCChamber) : list PadKey :=
  flat_map (chamber_pads cfg) tpc.

(** The histogram a pad starts with. *)
Definition fresh_histogram `{ext : External} (cfg : Config) (k : PadKey) : TH1D :=
  new_TH1D (Int_t_of_UInt (fHistogramBins cfg)) 0
           (minADCPeakSearch cfg k.1.1.1 k.1.1.2 * fHistogramPadding cfg).

(** The axis the pad histograms of a sector are created with: from 0 to
    the search bound times the padding, with [fHistogramBins] bins when
    that is a positive [Int_t], and with one bin when it is 0 or, as
    [Int_t], negative. *)
Definition created_axis `{ext : External} (cfg : Config) (tpcId sectorId : N)
    (ax : TAxis) : Prop :=
  axis_Xmin ax = 0
  /\ axis_Xmax ax = minADCPeakSearch cfg tpcId sectorId * fHistogramPadding cfg
  /\ ((1 <= fHistogramBins cfg < 2 ^ 31)%N ->
      axis_Nbins ax = Z.of_N (fHistogramBins cfg))
  /\ (fHistogramBins cfg = 0%N \/ (2 ^ 31 <= fHistogramBins cfg < 2 ^ 32)%N ->
      axis_Nbins ax = 1%Z)
  /\ (1 <= axis_Nbins ax < 2 ^ 31)%Z.

(** The charges of the clusters of a sector's quality histograms that
    hit one pad, oldest first. *)
Definition charges_of_pad (q : SectorQA) (padrow pad : N) : list float :=
  (filter (fun cp => cp.2 = (pad, padrow))
          (zip (qa_spectrum q) (qa_padEntries q))).*1.

Definition add_fresh `{ext : External} (cfg : Config)
    (m : gmap PadKey TH1D) (k : PadKey) : gmap PadKey TH1D :=
  <[k := fresh_histogram cfg k]> m.

(** A histogram that has only been filled since: same axis, the old
    entries first. *)
Definition filled_from (h0 h : TH1D) : Prop :=
  GetXaxis h = GetXaxis h0 /\ exists added, fills h = fills h0 ++ added.

(** The pad histograms of [m] are those of [m0], filled further. *)
Definition grown (m0 m : gmap PadKey TH1D) : Prop :=
  forall k, option_Forall2 filled_from (m0 !! k) (m !! k).

(** Every pad histogram holds the charges of its sector's all-cuts
    quality histograms that hit the pad, and the charge and pad logs of
    these histograms go together. *)
Definition pads_match_QA (st : Spectra) : Prop :=
  forall t s : N,
    length (qa_spectrum (QA_pair st (t, s)).2)
    = length (qa_padEntries (QA_pair st (t, s)).2)
    /\ forall r pad h,
         fSpectraHistograms st !! (t, s, r, pad) = Some h ->
         fills h = charges_of_pad (QA_pair st (t, s)).2 r pad.

(** The all-cuts quality histograms of a sector hold a part of what its
    no-cuts histograms hold, in the same order. *)
Definition QA_nested (st : Spectra) : Prop :=
  forall k : SectorKey,
    qa_padEntries (QA_pair st k).2 `sublist_of` qa_padEntries (QA_pair st k).1
    /\ qa_timeSlices (QA_pair st k).2 `sublist_of` qa_timeSlices (QA_pair st k).1
    /\ qa_nPadsVsNTimeSlices (QA_pair st k).2
       `sublist_of` qa_nPadsVsNTimeSlices (QA_pair st k).1.

(** The position the second pass stores for a pad, if any. *)
Definition located_position `{ext : External} (cfg : Config)
    (k : PadKey) (h : TH1D) : option float :=
  if enough_entries cfg h then
    if String.eqb (fFitFunction cfg) "Gaussian" then
      Some (Fit h (gausFit h (find_peak cfg k.1.1.1 k.1.1.2 h)) 1%nat)
    else if String.eqb (fFitFunction cfg) "Fermi" then
      Some (Fit h (fermiFit h (find_peak cfg k.1.1.1 k.1.1.2 h)) 2%nat)
    else None
  else None.

(** The numbers of a gain table, in the order they were written. *)
Definition values_of (ts : list Token) : list string :=
  omap (fun t => match t with Value v => Some v | _ => None end) ts.

Definition row_key (row : ResultRow) : PadKey :=
  (row_TPCId row, row_SectorId row, row_PadrowId row, row_PadId row).

(** ** The padrow colours of the gain plots *)

(** [GetPadrowColorMap]; [color] is the index of the first colour of the
    gradient, as [TColor::CreateGradientColorTable] returns it.  The
    [int] additions are taken in [Z]: signed overflow is undefined in
    C++, and colour indices and padrow counts are far from it. *)
Definition GetPadrowColorMap (color : Z) (maxPadrows : Z) : gmap Z Z :=
  let nColors := maxPadrows in
  fold_left (fun colorsByPadrow i => <[(i + 1)%Z := (color + i)%Z]> colorsByPadrow)
            (seqZ 0 nColors) ∅.

(** ** The command line *)

Record Options := {
  configFilename : string;
  outputPrefix : string;
  previousGainsFilename : string;
  opt_updateGains : bool;
  filenamesVector : list string
}.

(** The values of the variables before the argument loop. *)
Definition initial_options : Options :=
  {| configFilename := "Config.txt";
     outputPrefix := EmptyString;
     previousGainsFilename := EmptyString;
     opt_updateGains := false;
     filenamesVector := [] |}.

(** What the start of [main] ends with: the options, or [DisplayUsage],
    which prints the usage and exits with status −1. *)
Inductive CommandLine :=
| Accepted (o : Options)
| Usage.

(** [s.rfind("-",0) != string::npos]: [s] starts with a dash. *)
Definition starts_with_dash (s : string) : bool := String.prefix "-" s.

(** The two tests after the argument loop. *)
Definition check_options (o : Options) : CommandLine :=
  match filenamesVector o with
  | [] => Usage
  | _ =>
    match outputPrefix o with
    | EmptyString => Usage
    | _ => Accepted o
    end
  end.

(** The argument loop, from the options read so far. *)
Fixpoint parse_arguments (args : list string) (o : Options) : CommandLine :=
  match args with
  | [] => check_options o
  | it :: rest =>
    if (String.eqb it "-h" || String.eqb it "--help")%bool then Usage
    else if String.eqb it "-o" then
      match rest with
      | [] => Usage
      | v :: rest' =>
        if starts_with_dash v then Usage
        else parse_arguments rest'
               {| configFilename := configFilename o;
                  outputPrefix := v ++ "-KryptonAnalysis";
                  previousGainsFilename := previousGainsFilename o;
                  opt_updateGains := opt_updateGains o;
                  filenamesVector := filenamesVector o |}
      end
    else if (String.eqb it "-c" || String.eqb it "--config")%bool then
      match rest with
      | [] => Usage
      | v :: rest' =>
        if starts_with_dash v then Usage
        else parse_arguments rest'
               {| configFilename := v;
                  outputPrefix := outputPrefix o;
                  previousGainsFilename := previousGainsFilename o;
                  opt_updateGains := opt_updateGains o;
                  filenamesVector := filenamesVector o |}
      end
    else if (String.eqb it "-u" || String.eqb it "--updateGains")%bool then
      match rest with
      | [] => Usage
      | v :: rest' =>
        if starts_with_dash v then Usage
        else parse_arguments rest'
               {| configFilename := configFilename o;
                  outputPrefix := outputPrefix o;
                  previousGainsFilename := v;
                  opt_updateGains := true;
                  filenamesVector := filenamesVector o |}
      end
    else if (String.eqb it "-i" || String.eqb it "--inputFiles")%bool then
      check_options
        {| configFilename := configFilename o;
           outputPrefix := outputPrefix o;
           previousGainsFilename := previousGainsFilename o;
           opt_updateGains := opt_updateGains o;
           filenamesVector := rest |}
    else Usage
  end.

Definition command_line (args : list string) : CommandLine :=
  parse_arguments args initial_options.

(** ** Replacing the pad gain path of the bootstrap file *)

Definition defaultPadGainXML : string := "&configDir;/TPCPadGainFixedManager.xml".

(** The characters of a string from position [n] on. *)
Fixpoint string_drop (n : nat) (s : string) : string :=
  match n, s with
  | O, _ => s
  | S n', String _ s' => string_drop n' s'
  | S _, EmptyString => EmptyString
  end.

(** What [ReplacePadGainPath] does to one line: [line.find], then
    [line.replace] of the characters found. *)
Definition replace_in_line (newPadGainXML line : string) : string :=
  match String.index 0 defaultPadGainXML line with
  | Some foundPosition =>
      (String.substring 0 foundPosition line
       ++ newPadGainXML
       ++ string_drop (foundPosition + String.length defaultPadGainXML) line)%string
  | None => line
  end.

(** The lines written to the temporary file, which then takes the place
    of the bootstrap file. *)
Definition ReplacePadGainPath (newPadGainXML : string) (lines : list string)
  : list string :=
  map (replace_in_line newPadGainXML) lines.

(** ** The keywords of the configuration file *)

Inductive ConfigKey :=
| key_fitFunction
| key_minAcceptableGain
| key_maxAcceptableGain
| key_minADCPeakSearch
| key_vtpc1UpstreamSectorsMinADCPeakSearch
| key_minHistogramEntries
| key_histogramBins
| key_histogramPadding
| key_minPads
| key_maxPads
| key_minTimeSliceNumber
| key_minTimeSlices
| key_maxTimeSlices
| key_maxADCCut
| key_chargeCut.

Definition keyword (k : ConfigKey) : string :=
  match k with
  | key_fitFunction => "fitFunction"
  | key_minAcceptableGain => "minAcceptableGain"
  | key_maxAcceptableGain => "maxAcceptableGain"
  | key_minADCPeakSearch => "minADCPeakSearch"
  | key_vtpc1UpstreamSectorsMinADCPeakSearch => "vtpc1UpstreamSectorsMinADCPeakSearch"
  | key_minHistogramEntries => "minHistogramEntries"
  | key_histogramBins => "histogramBins"
  | key_histogramPadding => "histogramPadding"
  | key_minPads => "minPads"
  | key_maxPads => "maxPads"
  | key_minTimeSliceNumber => "minTimeSliceNumber"
  | key_minTimeSlices => "minTimeSlices"
  | key_maxTimeSlices => "maxTimeSlices"
  | key_maxADCCut => "maxADCCut"
  | key_chargeCut => "chargeCut"
  end.

(** [line.find(word,0) != string::npos] *)
Definition found (word line : string) : bool :=
  match String.index 0 word line with
  | Some _ => true
  | None => false
  end.

(** The branch of [ParseConfigFile] a line is read by: the first
    keyword, in the order of the tests, that occurs anywhere in it. *)
Definition config_branch (line : string) : option ConfigKey :=
  if found "fitFunction" line then Some key_fitFunction
  else if found "minAcceptableGain" line then Some key_minAcceptableGain
  else if found "maxAcceptableGain" line then Some key_maxAcceptableGain
  else if found "minADCPeakSearch" line then Some key_minADCPeakSearch
  else if found "vtpc1UpstreamSectorsMinADCPeakSearch" line
    then Some key_vtpc1UpstreamSectorsMinADCPeakSearch
  else if found "minHistogramEntries" line then Some key_minHistogramEntries
  else if found "histogramBins" line then Some key_histogramBins
  else if found "histogramPadding" line then Some key_histogramPadding
  else if found "minPads" line then Some key_minPads
  else if found "maxPads" line then Some key_maxPads
  else if found "minTimeSliceNumber" line then Some key_minTimeSliceNumber
  else if found "minTimeSlices" line then Some key_minTimeSlices
  else if found "maxTimeSlices" line then Some key_maxTimeSlices
  else if found "maxADCCut" line then Some key_maxADCCut
  else if found "chargeCut" line then Some key_chargeCut
  else None.

(** Lines that begin with a hash are ignored.  ([front()] of an empty
    line is the terminating zero in practice: an empty line is not
    ignored.) *)
Definition ignored (line : string) : bool := String.prefix "#" line.

(** What [ParseConfigFile] does with the lines it reads: a line of the
    chamber list is looked up as a chamber name, and a line that one of
    the keyword tests finds has the value of that keyword read from
    it. *)
Inductive ConfigEvent :=
| ChamberLine (line : string)
| Assignment (k : ConfigKey) (line : string).

(** Where the function is: in its outer loop, or in the inner loop over
    the chamber list that the line [header] opened. *)
Inductive Position :=
| Outer
| ChamberList (header : string).

(** The function returns at the end of the file when it is in the
    outer loop.  In the inner loop [getline] fails there and leaves a
    line without "tpcListEnd" behind, so the loop never ends. *)
Inductive Parsed :=
| Returns (events : list ConfigEvent)
| Hangs (events : list ConfigEvent).

Definition add_events (events : list ConfigEvent) (r : Parsed) : Parsed :=
  match r with
  | Returns events' => Returns (events ++ events')
  | Hangs events' => Hangs (events ++ events')
  end.

(** The keyword tests, applied to one line. *)
Definition assignment (line : string) : list ConfigEvent :=
  match config_branch line with
  | Some k => [Assignment k line]
  | None => []
  end.

(** The two loops over the lines that are left.  The inner loop is
    entered from a line that holds "tpcList" and not "tpcListEnd"; it
    ends after the first line that holds "tpcListEnd", comment or not,
    and the keyword tests are then applied to the line that opened the
    list. *)
Fixpoint parse_lines (pos : Position) (lines : list string) : Parsed :=
  match lines with
  | [] =>
      match pos with
      | Outer => Returns []
      | ChamberList _ => Hangs []
      end
  | line :: rest =>
      match pos with
      | Outer =>
          if ignored line then parse_lines Outer rest
          else if found "tpcList" line then
            if found "tpcListEnd" line
            then add_events (assignment line) (parse_lines Outer rest)
            else parse_lines (ChamberList line) rest
          else add_events (assignment line) (parse_lines Outer rest)
      | ChamberList header =>
          let name := if ignored line then [] else [ChamberLine line] in
          if found "tpcListEnd" line
          then add_events (name ++ assignment header) (parse_lines Outer rest)
          else add_events name (parse_lines (ChamberList header) rest)
      end
  end.

Definition ParseConfigFile (lines : list string) : Parsed :=
  parse_lines Outer lines.

(** A value written with digits, a point, signs and an exponent mark. *)
Fixpoint numeric (v : string) : bool :=
  match v with
  | EmptyString => true
  | String c v' => found (String c EmptyString) "0123456789.+-eE" && numeric v'
  end.

(** A word without a blank. *)
Fixpoint no_blank (word : string) : bool :=
  match word with
  | EmptyString => true
  | String c word' => negb (Ascii.eqb c Ascii.Space) && no_blank word'
  end.

(** A cluster the loop can take: it fails a cut, or it names a pad that
    has a histogram and, when gains are updated, a padrow of the sector
    of its tree. *)
Definition entry_ok (cfg : Config) (updateGains : bool) (tpc : list TPCChamber)
    (tpcId sectorId : N) (sector : TPCSector) (e : Cluster) : Prop :=
  skipped cfg e = false ->
  (tpcId, sectorId, fPadrow e, fPad e) ∈ calibrated_pads cfg tpc
  /\ (updateGains = true -> is_Some (sector_GetPadrow sector (fPadrow e))).

(** A tree the loop can take: it is empty, or it is identified as a
    sector of the detector and, when its chamber is calibrated, the
    sector has a padrow numbered as its padrow count and every cluster
    can be taken. *)
Definition tree_ok `{ext : External} (cfg : Config) (updateGains : bool)
    (tpc : list TPCChamber) (t : ClusterTree) : Prop :=
  tree_entries t <> [] ->
  exists tpcId sectorId sector,
    resolve tpc t = Done (tpcId, sectorId, sector)
    /\ (tpcId ∈ fTPCIdList cfg ->
        is_Some (sector_GetPadrow sector (sector_GetNPadrows sector))
        /\ Forall (entry_ok cfg updateGains tpc tpcId sectorId sector)
                  (tree_entries t)).

(** ** Example data for the further properties *)

(** One tree of sector 2 of chamber 1: a cluster on pad 1 that passes
    the cuts, and one that has too few pads. *)
Definition treesA : list ClusterTree := [treeA [cluster 2.5 3 1; cluster 3.5 1 2]].

(** The state after the cluster loop over [treesA]. *)
Definition spectraA_filled : Spectra :=
  match fill_spectra cfgA false [chamber1; chamber7] treesA with
  | Done st => st
  | Aborted _ => spectraA
  end.

(** The histogram of a pad of sector 2 as created under [cfgA], and
    after the charge 2.5 was filled. *)
Definition histFresh : TH1D :=
  {| GetXaxis := {| axis_Nbins := 8; axis_Xmin := 0; axis_Xmax := 8 |};
     fills := [] |}.

Definition histFilled : TH1D :=
  {| GetXaxis := {| axis_Nbins := 8; axis_Xmin := 0; axis_Xmax := 8 |};
     fills := [2.5] |}.

(** Two pad spectra, and an enumeration of them. *)
Definition spectrumMap : gmap PadKey TH1D :=
  {[ (1%N, 2%N, 1%N, 1%N) := histA; (1%N, 2%N, 1%N, 2%N) := histOne ]}.

Definition spectrumOrder : list (PadKey * TH1D) :=
  [((1%N, 2%N, 1%N, 2%N), histOne); ((1%N, 2%N, 1%N, 1%N), histA)].

(** Pad 1 of padrow 1, sector 2, chamber 1 has the stored position
    [v]. *)
Definition peaksAt (v : float) : Peaks :=
  {| spectrumADCs := {[ (1%N, 2%N, 1%N, 1%N) := v ]};
     totalAccumulators := ∅ |}.

(** Pad 1 has the stored position 0. *)
Definition peaksZero : Peaks :=
  {| spectrumADCs := {[ (1%N, 2%N, 1%N, 1%N) := 0 ]};
     totalAccumulators := {[ (1%N, 2%N) := (200, 2%N) ]} |}.

Definition optionsA : Options :=
  {| configFilename := "Config.txt";
     outputPrefix := "out-KryptonAnalysis";
     previousGainsFilename := "gains.root";
     opt_updateGains := true;
     filenamesVector := ["a.root"; "b.root"] |}.

(** * Properties *)

(** ** IEEE facts used by the gain computation *)

Module Double.

Lemma SF_zero : Prim2SF 0 = S754_zero false.
Proof. reflexivity. Qed.

Lemma SF_infinity : Prim2SF infinity = S754_infinity false.
Proof. reflexivity. Qed.

Lemma is_nan_SF (x : float) :
  is_nan x = true <-> Prim2SF x = S754_nan.
Proof.
  unfold is_nan. rewrite FloatAxioms.eqb_spec. unfold SFeqb.
  destruct (Prim2SF x) as [s| s| |s m e]; simpl.
  - split; [discriminate | discriminate].
  - destruct s; simpl; split; discriminate.
  - split; reflexivity.
  - destruct s; rewrite Z.compare_refl, Pos.compare_cont_refl; simpl;
      split; discriminate.
Qed.

Lemma is_infinity_SF (x : float) :
  is_infinity x = true <-> exists s, Prim2SF x = S754_infinity s.
Proof.
  unfold is_infinity. rewrite FloatAxioms.eqb_spec, FloatAxioms.abs_spec, SF_infinity. unfold SFeqb.
  destruct (Prim2SF x) as [s| s| |s m e]; simpl.
  - split; [discriminate | intros [s' H]; discriminate].
  - split; [intros _; exists s; reflexivity | reflexivity].
  - split; [discriminate | intros [s' H]; discriminate].
  - split; [discriminate | intros [s' H]; discriminate].
Qed.

(** Any value divided by (positive) zero is NaN or infinite. *)
Lemma div_zero (x : float) :
  is_nan (x / 0) = true \/ is_infinity (x / 0) = true.
Proof.
  rewrite is_nan_SF, is_infinity_SF, FloatAxioms.div_spec, SF_zero.
  unfold SF64div, SFdiv.
  destruct (Prim2SF x) as [s| s| |s m e].
  - left; reflexivity.
  - right; eexists; reflexivity.
  - left; reflexivity.
  - right; eexists; reflexivity.
Qed.

(** Comparisons with NaN are false. *)
Lemma ltb_nan_l (x y : float) : is_nan x = true -> (x <? y) = false.
Proof.
  rewrite is_nan_SF, FloatAxioms.ltb_spec. intros ->. reflexivity.
Qed.

Lemma ltb_nan_r (x y : float) : is_nan y = true -> (x <? y) = false.
Proof.
  rewrite is_nan_SF, FloatAxioms.ltb_spec. intros ->. unfold SFltb, SFcompare.
  destruct (Prim2SF x); reflexivity.
Qed.

(** Nothing lies strictly between two bounds when it is infinite. *)
Lemma between_infinity (lo hi x : float) :
  is_infinity x = true -> (lo <? x) && (x <? hi) = false.
Proof.
  rewrite is_infinity_SF. intros [s Hx].
  rewrite !FloatAxioms.ltb_spec, Hx. unfold SFltb, SFcompare.
  destruct s.
  - destruct (Prim2SF lo) as [sl| sl| |sl ml el]; try destruct sl; reflexivity.
  - rewrite andb_comm.
    destruct (Prim2SF hi) as [sh| sh| |sh mh eh]; try destruct sh; reflexivity.
Qed.

Lemma between_nan (lo hi x : float) :
  is_nan x = true -> (lo <? x) && (x <? hi) = false.
Proof.
  intros H. rewrite (ltb_nan_r lo x H). reflexivity.
Qed.

(** A value strictly between two bounds is a finite number. *)
Lemma between_finite (lo hi x : float) :
  (lo <? x) && (x <? hi) = true -> is_finite x = true.
Proof.
  intros H. unfold is_finite.
  destruct (is_nan x) eqn:Hn.
  - rewrite between_nan in H by assumption. discriminate.
  - destruct (is_infinity x) eqn:Hi; [|reflexivity].
    rewrite between_infinity in H by assumption. discriminate.
Qed.


(** Above a non-negative bound means positive. *)
Lemma ltb_above_nonneg (lo x : float) :
  (0 <=? lo) = true -> (lo <? x) = true -> (0 <? x) = true.
Proof.
  rewrite FloatAxioms.leb_spec, !FloatAxioms.ltb_spec, SF_zero. unfold SFleb, SFltb, SFcompare.
  destruct (Prim2SF lo) as [sl| sl| |sl ml el]; try destruct sl;
    destruct (Prim2SF x) as [sx| sx| |sx mx ex]; try destruct sx;
    simpl; congruence.
Qed.

Lemma compare_cont_Eq_antisym (p q : positive) :
  Pos.compare_cont Eq q p = CompOpp (Pos.compare_cont Eq p q).
Proof. rewrite (Pos.compare_cont_antisym p q Eq). reflexivity. Qed.

Lemma SFcompare_antisym (a b : spec_float) :
  SFcompare b a = option_map CompOpp (SFcompare a b).
Proof.
  destruct a as [sa| sa| |sa ma ea]; destruct b as [sb| sb| |sb mb eb];
    try destruct sa; try destruct sb; try reflexivity; simpl;
    rewrite (Z.compare_antisym ea eb);
    destruct (ea ?= eb)%Z eqn:He; simpl; try reflexivity;
    rewrite (compare_cont_Eq_antisym ma mb);
    try rewrite CompOpp_involutive; reflexivity.
Qed.

(** On numbers, [not (x < y)] is [y <= x]; with a NaN operand both
    comparisons are false. *)
Lemma ltb_false_leb (x y : float) :
  is_nan x = false -> is_nan y = false ->
  negb (x <? y) = (y <=? x).
Proof.
  intros Hx Hy. rewrite FloatAxioms.ltb_spec, FloatAxioms.leb_spec. unfold SFltb, SFleb.
  rewrite (SFcompare_antisym (Prim2SF x) (Prim2SF y)).
  assert (Prim2SF x <> S754_nan) as Nx
    by (intros E; apply is_nan_SF in E; congruence).
  assert (Prim2SF y <> S754_nan) as Ny
    by (intros E; apply is_nan_SF in E; congruence).
  destruct (SFcompare (Prim2SF x) (Prim2SF y)) as [[ | | ]|] eqn:E;
    try reflexivity.
  exfalso. unfold SFcompare in E.
  destruct (Prim2SF x) as [sa| sa| |sa ma ea];
    destruct (Prim2SF y) as [sb| sb| |sb mb eb]; congruence.
Qed.

(** A conversion from an integer never gives NaN. *)
Lemma shr_1_nonneg (mrs : shr_record) :
  (0 <= shr_m mrs)%Z -> (0 <= shr_m (shr_1 mrs))%Z.
Proof.
  destruct mrs as [m r s]. simpl.
  destruct m as [|[q|q|]|q]; simpl; lia.
Qed.

Lemma iter_shr_1_nonneg (n : positive) (mrs : shr_record) :
  (0 <= shr_m mrs)%Z -> (0 <= shr_m (SpecFloat.iter_pos shr_1 n mrs))%Z.
Proof.
  revert mrs. induction n as [n IH|n IH|]; intros mrs H; simpl.
  - apply IH, IH, shr_1_nonneg, H.
  - apply IH, IH, H.
  - apply shr_1_nonneg, H.
Qed.

Lemma shr_fexp_nonneg (m e : Z) (l : location) :
  (0 <= m)%Z -> (0 <= shr_m (shr_fexp prec emax m e l).1)%Z.
Proof.
  intros H. unfold shr_fexp, shr.
  assert (0 <= shr_m (shr_record_of_loc m l))%Z as H'
    by (destruct l as [|[ | | ]]; exact H).
  destruct (_ - _)%Z; simpl; try exact H'.
  apply iter_shr_1_nonneg, H'.
Qed.

Lemma round_nearest_even_nonneg (m : Z) (l : location) :
  (0 <= m)%Z -> (0 <= round_nearest_even m l)%Z.
Proof.
  intros H. unfold round_nearest_even.
  destruct l as [|[ | | ]]; try destruct (Z.even m); lia.
Qed.

Lemma binary_round_aux_number (sx : bool) (mx ex : Z) (lx : location) :
  (0 <= mx)%Z -> binary_round_aux prec emax sx mx ex lx <> S754_nan.
Proof.
  intros H. unfold binary_round_aux.
  pose proof (shr_fexp_nonneg mx ex lx H) as H1.
  destruct (shr_fexp prec emax mx ex lx) as [mrs1 e1]. simpl in H1.
  pose proof (shr_fexp_nonneg _ e1 loc_Exact
                (round_nearest_even_nonneg _ (loc_of_shr_record mrs1) H1)) as H2.
  destruct (shr_fexp prec emax _ e1 loc_Exact) as [mrs2 e2]. simpl in H2.
  destruct (shr_m mrs2) as [|q|q]; [discriminate| |lia].
  destruct (_ <=? _)%Z; discriminate.
Qed.

Lemma of_uint63_number (i : PrimInt63.int) : is_nan (of_uint63 i) = false.
Proof.
  apply not_true_is_false. rewrite is_nan_SF, of_uint63_spec.
  pose proof (Uint63.to_Z_bounded i) as [Hi _].
  unfold binary_normalize.
  destruct (Uint63.to_Z i) as [|q|q]; [discriminate| |lia].
  unfold binary_round. destruct (shl_align _ _ _) as [mz ez].
  apply binary_round_aux_number. lia.
Qed.

End Double.

(** ** The gain table and the result tree *)

Section EmitFacts.

Context {ext : External} (cfg : Config) (updateGains : bool) (p : Peaks).

Lemma extend_nil (out : Output) : extend out [] [] = out.
Proof. destruct out. unfold extend. simpl. rewrite !app_nil_r. reflexivity. Qed.

Lemma extend_extend (out : Output) ts1 rs1 ts2 rs2 :
  extend (extend out ts1 rs1) ts2 rs2 = extend out (ts1 ++ ts2) (rs1 ++ rs2).
Proof. unfold extend. simpl. rewrite <- !app_assoc. reflexivity. Qed.

Lemma put_extend (out : Output) (t : Token) : put out t = extend out [t] [].
Proof. unfold put, extend. rewrite app_nil_r. reflexivity. Qed.

(** A loop whose body only appends, appends the bodies' blocks in the
    order of the loop. *)
Lemma fold_left_extend {A} (f : Output -> A -> Output)
    (g : A -> list Token) (r : A -> list ResultRow) :
  (forall out a, f out a = extend out (g a) (r a)) ->
  forall l out, fold_left f l out = extend out (flat_map g l) (flat_map r l).
Proof.
  intros Hf l. induction l as [|a l IH]; intros out; simpl.
  - symmetry. apply extend_nil.
  - rewrite IH, Hf, extend_extend. reflexivity.
Qed.

Lemma flat_map_singleton {A B} (f : A -> B) (l : list A) :
  flat_map (fun a => [f a]) l = map f l.
Proof. induction l as [|a l IH]; simpl; [reflexivity | now rewrite IH]. Qed.

Lemma flat_map_nil {A B} (l : list A) :
  flat_map (fun _ : A => @nil B) l = [].
Proof. induction l as [|a l IH]; simpl; [reflexivity | exact IH]. Qed.

Lemma emit_pad_extend chamber sectorId sectorADC padrow out padId :
  emit_pad cfg updateGains p chamber sectorId sectorADC padrow out padId =
  extend out
    (if decide (chamber_GetId chamber ∈ fTPCIdList cfg)
     then [Value (ostream_double (table_value cfg
             (pad_gain updateGains p (chamber_GetId chamber) sectorId sectorADC
                       padrow padId)))]
     else [])
    (if decide (chamber_GetId chamber ∈ fTPCIdList cfg)
     then [pad_row updateGains p (chamber_GetId chamber) sectorId sectorADC padrow padId]
     else []).
Proof.
  unfold emit_pad. destruct (decide _) as [Hin|Hout].
  - reflexivity.
  - symmetry. apply extend_nil.
Qed.

Lemma emit_padrow_extend chamber sectorId sectorADC out padrow :
  emit_padrow cfg updateGains p chamber sectorId sectorADC out padrow =
  extend out (padrow_block cfg updateGains p chamber sectorId sectorADC padrow)
             (padrow_rows cfg updateGains p chamber sectorId sectorADC padrow).
Proof.
  unfold emit_padrow.
  rewrite (fold_left_extend _ _ _
             (fun o a => emit_pad_extend chamber sectorId sectorADC padrow o a)).
  rewrite !put_extend, !extend_extend. simpl.
  unfold padrow_block, padrow_values, padrow_rows.
  destruct (decide _) as [Hin|Hout].
  - rewrite !flat_map_singleton, app_nil_r. simpl.
    reflexivity.
  - rewrite !flat_map_nil. reflexivity.
Qed.

Lemma emit_sector_extend chamber out sector :
  emit_sector cfg updateGains p chamber out sector =
  extend out (sector_block cfg updateGains p chamber sector)
             (sector_rows cfg updateGains p chamber sector).
Proof.
  unfold emit_sector.
  rewrite (fold_left_extend _ _ _
             (fun o a => emit_padrow_extend chamber (sector_GetId sector) _ o a)).
  rewrite !put_extend, !extend_extend. simpl.
  unfold sector_block, sector_rows. rewrite app_nil_r. reflexivity.
Qed.

Lemma emit_chamber_extend out chamber :
  emit_chamber cfg updateGains p out chamber =
  extend out (chamber_block cfg updateGains p chamber)
             (chamber_rows cfg updateGains p chamber).
Proof.
  unfold emit_chamber.
  rewrite (fold_left_extend _ _ _ (fun o a => emit_sector_extend chamber o a)).
  rewrite !put_extend, !extend_extend. simpl.
  unfold chamber_block, chamber_rows. rewrite app_nil_r. reflexivity.
Qed.

Lemma emit_table_layout (tpc : list TPCChamber) :
  emit_table cfg updateGains p tpc =
  {| gainsFileStream := table_layout cfg updateGains p tpc;
     fResultTree := flat_map (chamber_rows cfg updateGains p) tpc |}.
Proof.
  unfold emit_table.
  rewrite (fold_left_extend _ _ _ emit_chamber_extend).
  rewrite put_extend, extend_extend. unfold extend, table_layout. simpl.
  rewrite app_nil_r. reflexivity.
Qed.

End EmitFacts.

Section GainFacts.

Context (cfg : Config).

Lemma table_value_nan_or_inf (gain : float) :
  (is_nan gain || is_infinity gain)%bool = true -> table_value cfg gain = -1.
Proof.
  intros H. unfold table_value, acceptable.
  apply orb_true_iff in H as [H|H].
  - rewrite Double.between_nan by exact H. reflexivity.
  - rewrite Double.between_infinity by exact H. reflexivity.
Qed.

Lemma table_value_cases (gain : float) :
  table_value cfg gain = -1
  \/ (table_value cfg gain = gain /\ acceptable cfg gain = true
      /\ is_finite gain = true).
Proof.
  unfold table_value. destruct (acceptable cfg gain) eqn:E.
  - right. repeat split. apply (Double.between_finite _ _ _ E).
  - left. reflexivity.
Qed.



Lemma sanitize_finite (gain : float) : is_finite (sanitize gain) = true.
Proof.
  unfold sanitize. destruct (is_nan gain || is_infinity gain)%bool eqn:E.
  - reflexivity.
  - unfold is_finite. rewrite E. reflexivity.
Qed.

(** The gain of a pad that was not fitted is NaN or infinite, whatever
    the sector average and the previous gain are. *)
Lemma computeGain_unfitted (updateGains : bool) (priorGain sectorADC : float) :
  (is_nan (computeGain updateGains priorGain sectorADC 0)
   || is_infinity (computeGain updateGains priorGain sectorADC 0))%bool = true.
Proof.
  apply orb_true_iff. unfold computeGain.
  destruct updateGains; apply Double.div_zero.
Qed.

End GainFacts.

Lemma Forall_flat_map {A B} (P : B -> Prop) (f : A -> list B) (l : list A) :
  (forall a, Forall P (f a)) -> Forall P (flat_map f l).
Proof.
  intros H. induction l as [|a l IH]; simpl.
  - constructor.
  - apply Forall_app. split; [apply H | exact IH].
Qed.

Lemma table_layout_values_ok `{ext : External} cfg updateGains p tpc :
  Forall (value_ok cfg) (table_layout cfg updateGains p tpc).
Proof.
  unfold table_layout. apply Forall_app. split; [repeat constructor|].
  apply Forall_app. split; [|repeat constructor].
  apply Forall_flat_map. intros c. unfold chamber_block.
  apply Forall_app. split; [repeat constructor|].
  apply Forall_app. split; [|repeat constructor].
  apply Forall_flat_map. intros s. unfold sector_block.
  apply Forall_app. split; [repeat constructor|].
  apply Forall_app. split; [|repeat constructor].
  apply Forall_flat_map. intros r. unfold padrow_block.
  apply Forall_app. split; [repeat constructor|].
  apply Forall_app. split; [|repeat constructor].
  unfold padrow_values. destruct (decide _); [|constructor].
  apply Forall_map, Forall_forall. intros padId _. simpl.
  eexists. split; [reflexivity|].
  destruct (table_value_cases cfg
              (pad_gain updateGains p (chamber_GetId c) (sector_GetId s)
                 (GetAverage (totalAccumulators p) (chamber_GetId c) (sector_GetId s))
                 r padId)) as [E|(E & Ha & Hf)].
  - left. exact E.
  - right. rewrite E. split; assumption.
Qed.

(** The nesting of the table does not depend on the fitted positions. *)
Lemma table_layout_blank `{ext : External} cfg updateGains p1 p2 tpc :
  map blank (table_layout cfg updateGains p1 tpc)
  = map blank (table_layout cfg updateGains p2 tpc).
Proof.
  unfold table_layout. rewrite !map_app. f_equal. f_equal.
  rewrite !flat_map_concat_map, !concat_map, !map_map. f_equal.
  apply map_ext. intros c. unfold chamber_block.
  rewrite !map_app. f_equal. f_equal.
  rewrite !flat_map_concat_map, !concat_map, !map_map. f_equal.
  apply map_ext. intros s. unfold sector_block.
  rewrite !map_app. f_equal. f_equal.
  rewrite !flat_map_concat_map, !concat_map, !map_map. f_equal.
  apply map_ext. intros r. unfold padrow_block.
  rewrite !map_app. f_equal. f_equal.
  unfold padrow_values. destruct (decide _); [|reflexivity].
  rewrite !map_map. reflexivity.
Qed.

Lemma pad_ids_length (n : N) : length (pad_ids n) = N.to_nat n.
Proof. unfold pad_ids. rewrite length_map, length_seq. reflexivity. Qed.

Lemma pad_ids_lookup (n : N) (i : nat) :
  (i < N.to_nat n)%nat -> pad_ids n !! i = Some (N.of_nat (i + 1)).
Proof.
  intros Hi. unfold pad_ids. rewrite list_lookup_fmap.
  rewrite lookup_seq_lt by exact Hi. simpl. f_equal. f_equal. lia.
Qed.

Lemma chamber_block_uncalibrated `{ext : External} cfg updateGains p chamber :
  chamber_GetId chamber ∉ fTPCIdList cfg ->
  chamber_block cfg updateGains p chamber = empty_chamber_block chamber
  /\ chamber_rows cfg updateGains p chamber = [].
Proof.
  intros Hout. unfold chamber_block, empty_chamber_block, chamber_rows. split.
  - f_equal. f_equal. apply flat_map_ext. intros s.
    unfold sector_block, empty_sector_block. f_equal. f_equal.
    apply flat_map_ext. intros r.
    unfold padrow_block, padrow_values, empty_padrow_block.
    destruct (decide _); [contradiction | reflexivity].
  - rewrite flat_map_concat_map. apply concat_nil_Forall, Forall_map, Forall_forall.
    intros s _. simpl. unfold sector_rows.
    rewrite flat_map_concat_map. apply concat_nil_Forall, Forall_map, Forall_forall.
    intros r _. simpl. unfold padrow_rows.
    destruct (decide _); [contradiction | reflexivity].
Qed.

Lemma empty_chamber_block_no_value (chamber : TPCChamber) :
  Forall (fun t => is_value t = false) (empty_chamber_block chamber).
Proof.
  unfold empty_chamber_block.
  apply Forall_app. split; [repeat constructor|].
  apply Forall_app. split; [|repeat constructor].
  apply Forall_flat_map. intros s. unfold empty_sector_block.
  apply Forall_app. split; [repeat constructor|].
  apply Forall_app. split; [|repeat constructor].
  apply Forall_flat_map. intros r. repeat constructor.
Qed.

Lemma result_rows_calibrated cfg updateGains p tpc :
  Forall (fun row => row_TPCId row ∈ fTPCIdList cfg)
         (flat_map (chamber_rows cfg updateGains p) tpc).
Proof.
  apply Forall_flat_map. intros c. unfold chamber_rows.
  apply Forall_flat_map. intros s. unfold sector_rows.
  apply Forall_flat_map. intros r. unfold padrow_rows.
  destruct (decide _) as [Hin|Hout]; [|constructor].
  apply Forall_map, Forall_forall. intros padId _. exact Hin.
Qed.

(** ** C10, C4: the layout of the gain table *)

(** C10. The emission loop writes the block of every chamber of the
    detector: the block of a chamber that is not in the calibration
    list keeps its TPC, Sector, Padrow and PadGains markers and has no
    value between them, and the result tree gets rows of calibrated
    chambers only. *)
Theorem uncalibrated_chamber_keeps_markers
    `{ext : External} (cfg : Config) (updateGains : bool) (p : Peaks)
    (tpc : list TPCChamber) :
  gainsFileStream (emit_table cfg updateGains p tpc)
  = [XML_header]
    ++ flat_map (fun c => if decide (chamber_GetId c ∈ fTPCIdList cfg)
                          then chamber_block cfg updateGains p c
                          else empty_chamber_block c) tpc
    ++ [XML_footer]
  /\ (forall c, Forall (fun t => is_value t = false) (empty_chamber_block c))
  /\ Forall (fun row => row_TPCId row ∈ fTPCIdList cfg)
            (fResultTree (emit_table cfg updateGains p tpc)).
Proof.
  rewrite emit_table_layout. simpl. split; [|split].
  - unfold table_layout. f_equal. f_equal. apply flat_map_ext. intros c.
    destruct (decide _) as [Hin|Hout]; [reflexivity|].
    apply chamber_block_uncalibrated, Hout.
  - apply empty_chamber_block_no_value.
  - apply result_rows_calibrated.
Qed.

(** C4 fails as stated.  The padrow of a chamber outside the
    calibration list has two pads and gets no value; and with a negative
    lower bound a negative gain is written (here −0.5, for a pad fitted
    at 50 in a sector that averages −25, with bounds −1 and 1). *)
Lemma uncalibrated_padrow_has_no_value :
  filter is_value (gainsFileStream (emit_table cfgA false no_peaks [chamber7])) = []
  /\ padrow_GetNPads padrowA = 2%N
  /\ gainsFileStream (emit_table cfgA false no_peaks [chamber7])
     = [XML_header; TPC_open 7; Sector_open 2; Padrow_open 1; PadGains_open;
        PadGains_close; Padrow_close; Sector_close; TPC_close; XML_footer]
  /\ gainsFileStream (emit_table cfgW false peaksNeg [chamber1])
     = [XML_header; TPC_open 1; Sector_open 2; Padrow_open 1; PadGains_open;
        Value "-0.5"; Value "-1";
        PadGains_close; Padrow_close; Sector_close; TPC_close; XML_footer].
Proof. vm_compute. repeat split. Qed.

(** C4, amended. The table follows the detector's nesting order with
    the markers of every level; a padrow of a calibrated chamber holds
    exactly one value per pad, pads ascending from 1; a pad without a
    fitted position gets −1; every value is the text of −1 or of a
    finite gain that passed the test of the bounds, never of a NaN or
    an infinity, and it is the text of −1 or of a positive number when
    the lower bound is not negative; and the nesting is the same
    whatever the second pass stored. *)
Theorem gain_table_layout
    `{ext : External} (cfg : Config) (updateGains : bool) (p : Peaks)
    (tpc : list TPCChamber) :
  gainsFileStream (emit_table cfg updateGains p tpc)
  = table_layout cfg updateGains p tpc
  /\ (forall c sectorId sectorADC r,
        chamber_GetId c ∈ fTPCIdList cfg ->
        padrow_values cfg updateGains p c sectorId sectorADC r
        = map (fun padId => Value (ostream_double (table_value cfg
                 (pad_gain updateGains p (chamber_GetId c) sectorId sectorADC r padId))))
              (pad_ids (padrow_GetNPads r)))
  /\ (forall n, length (pad_ids n) = N.to_nat n)
  /\ (forall n i, (i < N.to_nat n)%nat -> pad_ids n !! i = Some (N.of_nat (i + 1)))
  /\ (forall k priorGain sectorADC,
        spectrumADCs p !! k = None ->
        table_value cfg (computeGain updateGains priorGain sectorADC (padADC_of p k)) = -1)
  /\ Forall (value_ok cfg) (gainsFileStream (emit_table cfg updateGains p tpc))
  /\ ((0 <=? fMinAcceptableGain cfg) = true ->
      Forall value_positive (gainsFileStream (emit_table cfg updateGains p tpc)))
  /\ (forall p',
        map blank (gainsFileStream (emit_table cfg updateGains p' tpc))
        = map blank (gainsFileStream (emit_table cfg updateGains p tpc))).
Proof.
  assert (forall q, gainsFileStream (emit_table cfg updateGains q tpc)
                    = table_layout cfg updateGains q tpc) as Hlayout
    by (intros q; rewrite emit_table_layout; reflexivity).
  rewrite Hlayout.
  split; [reflexivity|].
  split. { intros c sectorId sectorADC r Hin. unfold padrow_values.
           destruct (decide _); [reflexivity | contradiction]. }
  split; [apply pad_ids_length|].
  split; [apply pad_ids_lookup|].
  split. { intros k priorGain sectorADC Hk. unfold padADC_of. rewrite Hk. simpl.
           apply table_value_nan_or_inf, computeGain_unfitted. }
  split; [apply table_layout_values_ok|].
  split. { intros Hmin.
           eapply Forall_impl; [apply table_layout_values_ok|].
           intros [] Hv; simpl in *; try exact I.
           destruct Hv as (v & Htext & Hv). exists v. split; [exact Htext|].
           destruct Hv as [Hv|[Ha _]]; [left; exact Hv | right].
           unfold acceptable in Ha. apply andb_true_iff in Ha as [Hlo _].
           exact (Double.ltb_above_nonneg _ _ Hmin Hlo). }
  intros p'. rewrite Hlayout. apply table_layout_blank.
Qed.

(** ** C2, C3: the gain of one pad *)

(** C2. For a pad with a fitted position [padPeak], the pad loop
    computes [sectorADC / padPeak] when gains are not updated and
    [priorGain * sectorADC / padPeak] when they are; with sector average
    100, peak 50 and previous gain 2 the gain is 4. *)
Theorem gain_formula
    `{ext : External} (cfg : Config) (p : Peaks) (chamber : TPCChamber)
    (sectorId : N) (sectorADC : float) (padrow : TPCPadrow) (out : Output)
    (padId : N) (padPeak : float) :
  chamber_GetId chamber ∈ fTPCIdList cfg ->
  spectrumADCs p !! (chamber_GetId chamber, sectorId, padrow_GetId padrow, padId)
    = Some padPeak ->
  emit_pad cfg false p chamber sectorId sectorADC padrow out padId
  = extend out
      [Value (ostream_double (table_value cfg (sectorADC / padPeak)))]
      [{| row_TPCId := chamber_GetId chamber; row_SectorId := sectorId;
          row_PadrowId := padrow_GetId padrow; row_PadId := padId;
          row_SpectrumADC := padPeak;
          row_Gain := sanitize (sectorADC / padPeak) |}]
  /\ emit_pad cfg true p chamber sectorId sectorADC padrow out padId
     = extend out
         [Value (ostream_double
                   (table_value cfg
                      (padrow_GetPadGain padrow padId * sectorADC / padPeak)))]
         [{| row_TPCId := chamber_GetId chamber; row_SectorId := sectorId;
             row_PadrowId := padrow_GetId padrow; row_PadId := padId;
             row_SpectrumADC := padPeak;
             row_Gain := sanitize
                           (padrow_GetPadGain padrow padId * sectorADC / padPeak) |}]
  /\ computeGain false (padrow_GetPadGain padrow padId) sectorADC padPeak
     = sectorADC / padPeak
  /\ computeGain true (padrow_GetPadGain padrow padId) sectorADC padPeak
     = padrow_GetPadGain padrow padId * sectorADC / padPeak
  /\ computeGain true 2 100 50 = 4.
Proof.
  intros Hin Hk.
  rewrite !emit_pad_extend.
  destruct (decide _) as [_|Hout]; [|contradiction].
  unfold pad_row, pad_gain, padADC_of. rewrite Hk. simpl.
  repeat split; reflexivity.
Qed.

Lemma gain_formula_witness :
  emit_pad cfgA true peaksA chamber1 2 100 padrowA no_output 1
  = {| gainsFileStream := [Value "-1"];
       fResultTree := [{| row_TPCId := 1; row_SectorId := 2; row_PadrowId := 1;
                          row_PadId := 1; row_SpectrumADC := 50; row_Gain := 4 |}] |}.
Proof.
  pose proof (gain_formula cfgA peaksA chamber1 2 100 padrowA no_output 1 50) as H.
  destruct H as (_ & H & _).
  - vm_compute. reflexivity.
  - reflexivity.
  - rewrite H. reflexivity.
Defined.



(** ** C1, C8: the cluster loop *)

Section ClusterLoopFacts.

Context {ext : External} (cfg : Config) (updateGains : bool).
Context (tpcId sectorId : N) (sector : TPCSector).

Lemma process_entry_skipped (e : Cluster) (st : Spectra) :
  skipped cfg e = true ->
  process_entry cfg updateGains tpcId sectorId sector e st
  = Done (fill_no_cuts (tpcId, sectorId) e st).
Proof.
  unfold skipped, process_entry. intros H.
  destruct (fCharge e =? 0); [reflexivity|].
  destruct (fNPads e <? fMinPads cfg)%N; [reflexivity|].
  destruct (fMaxPads cfg <? fNPads e)%N; [reflexivity|].
  destruct (fNTimeSlices e <? fMinTimeSlices cfg)%N; [reflexivity|].
  destruct (fMaxTimeSlices cfg <? fNTimeSlices e)%N; [reflexivity|].
  destruct (fTimeSlice e <? fMinTimeSliceNumber cfg)%N; [reflexivity|].
  simpl in H. rewrite H. reflexivity.
Qed.

Lemma process_entry_kept (e : Cluster) (st : Spectra) :
  skipped cfg e = false ->
  process_entry cfg updateGains tpcId sectorId sector e st
  = (charge ← filled_charge updateGains sector e;
     match fSpectraHistograms st !! (tpcId, sectorId, fPadrow e, fPad e) with
     | Some h => Done (fill_all_cuts (tpcId, sectorId) charge e h
                         (fill_no_cuts (tpcId, sectorId) e st))
     | None => Aborted NullHistogram
     end).
Proof.
  unfold skipped, process_entry, filled_charge. intros H.
  repeat (apply orb_false_iff in H as [H ?]).
  repeat match goal with E : _ = false |- _ => rewrite E; clear E end.
  assert (fSpectraHistograms (fill_no_cuts (tpcId, sectorId) e st)
          = fSpectraHistograms st) as ->
    by (unfold fill_no_cuts; destruct (QA_pair st (tpcId, sectorId)); reflexivity).
  reflexivity.
Qed.

Lemma fill_no_cuts_pads (k : SectorKey) (e : Cluster) (st : Spectra) :
  fSpectraHistograms (fill_no_cuts k e st) = fSpectraHistograms st.
Proof. unfold fill_no_cuts. destruct (QA_pair st k). reflexivity. Qed.

Lemma fill_no_cuts_QA (k : SectorKey) (e : Cluster) (st : Spectra) :
  QA_pair (fill_no_cuts k e st) k
  = (fill_QA (QA_pair st k).1 (fCharge e) e, (QA_pair st k).2).
Proof.
  unfold fill_no_cuts. destruct (QA_pair st k) as [q1 q2] eqn:E.
  unfold QA_pair at 1. simpl. rewrite lookup_insert_eq. reflexivity.
Qed.

Lemma fill_all_cuts_QA (k : SectorKey) charge (e : Cluster) h (st : Spectra) :
  QA_pair (fill_all_cuts k charge e h st) k
  = ((QA_pair st k).1, fill_QA (QA_pair st k).2 charge e).
Proof.
  unfold fill_all_cuts. destruct (QA_pair st k) as [q1 q2] eqn:E.
  unfold QA_pair at 1. simpl. rewrite lookup_insert_eq. reflexivity.
Qed.

(** Without NaN operands, the program's tests are the predicate. *)
Lemma skipped_iff_not_accepted (e : Cluster) :
  is_nan (fCharge e) = false ->
  is_nan (fChargeCut cfg) = false ->
  is_nan (fMaxADCCut cfg) = false ->
  is_nan (N2double (fMaxADC e)) = false ->
  skipped cfg e = false <-> accepted cfg e.
Proof.
  intros Hq Hc Ha Hm. unfold skipped, accepted.
  rewrite !orb_false_iff, andb_false_iff, !N.ltb_ge.
  rewrite <- (Double.ltb_false_leb _ _ Hq Hc), <- (Double.ltb_false_leb _ _ Hm Ha).
  rewrite !negb_true_iff.
  intuition lia.
Qed.

End ClusterLoopFacts.

(** [fMaxADC] as a double is a number. *)
Lemma N2double_number (n : N) : is_nan (N2double n) = false.
Proof. apply Double.of_uint63_number. Qed.

(** C1 fails as stated.  No histogram of the pad is filled for every
    cluster: a cluster with one pad fewer than [fMinPads] reaches the
    no-cuts histograms of its sector only, and every pad histogram stays
    as it was (here: empty).  And the program's last test is not the
    predicate of C1 on a NaN: a cluster with charge NaN and a maximal
    ADC below the cut is kept and fills the histogram of its pad,
    although neither [charge >= chargeCut] nor [maxADC >= maxADCCut]
    holds. *)
Lemma no_pad_histogram_without_cuts :
  process_entry cfgA false 1 2 sectorA (cluster 2.5 1 1) spectraA
  = Done (fill_no_cuts (1%N, 2%N) (cluster 2.5 1 1) spectraA)
  /\ fSpectraHistograms (fill_no_cuts (1%N, 2%N) (cluster 2.5 1 1) spectraA)
     = fSpectraHistograms spectraA
  /\ map (fun kh => fills kh.2)
         (map_to_list (fSpectraHistograms
                         (fill_no_cuts (1%N, 2%N) (cluster 2.5 1 1) spectraA)))
     = [[]; []]
  /\ qa_spectrum (QA_pair (fill_no_cuts (1%N, 2%N) (cluster 2.5 1 1) spectraA)
                          (1%N, 2%N)).1 = [2.5]
  /\ skipped cfgA nan_cluster = false
  /\ (fChargeCut cfgA <=? fCharge nan_cluster) = false
  /\ (fMaxADCCut cfgA <=? N2double (fMaxADC nan_cluster)) = false
  /\ (exists st,
        process_entry cfgA false 1 2 sectorA nan_cluster spectraA = Done st
        /\ (fills <$> fSpectraHistograms st !! (1%N, 2%N, 1%N, 1%N))
           = Some [fCharge nan_cluster]).
Proof.
  repeat split; try (vm_compute; reflexivity).
  eexists. split; vm_compute; reflexivity.
Qed.

(** C1, amended. Every cluster the loop body handles is filled, with
    its charge, into the no-cuts histograms of its sector; the histogram
    of its pad and the sector's all-cuts histograms are filled if and
    only if none of the program's tests leaves the cluster out, which,
    for a charge and cuts that are numbers, is the acceptance predicate
    of C1.  A cluster with [fMinPads − 1] pads is left out; with
    [fMinPads] pads the pad-count test passes. *)
Theorem cluster_cuts
    `{ext : External} (cfg : Config) (updateGains : bool)
    (tpcId sectorId : N) (sector : TPCSector) (e : Cluster) (st : Spectra) :
  (forall st',
      process_entry cfg updateGains tpcId sectorId sector e st = Done st' ->
      qa_spectrum (QA_pair st' (tpcId, sectorId)).1
      = qa_spectrum (QA_pair st (tpcId, sectorId)).1 ++ [fCharge e]
      /\ ((skipped cfg e = true
           /\ fSpectraHistograms st' = fSpectraHistograms st
           /\ (QA_pair st' (tpcId, sectorId)).2 = (QA_pair st (tpcId, sectorId)).2)
          \/ (skipped cfg e = false
              /\ exists h charge,
                  fSpectraHistograms st !! (tpcId, sectorId, fPadrow e, fPad e) = Some h
                  /\ fSpectraHistograms st'
                     = <[(tpcId, sectorId, fPadrow e, fPad e) := Fill h charge]>
                         (fSpectraHistograms st)
                  /\ qa_spectrum (QA_pair st' (tpcId, sectorId)).2
                     = qa_spectrum (QA_pair st (tpcId, sectorId)).2 ++ [charge]
                  /\ (updateGains = false -> charge = fCharge e))))
  /\ (forall h,
        fSpectraHistograms st !! (tpcId, sectorId, fPadrow e, fPad e) = Some h ->
        updateGains = false \/ is_Some (sector_GetPadrow sector (fPadrow e)) ->
        exists st', process_entry cfg updateGains tpcId sectorId sector e st = Done st')
  /\ (is_nan (fCharge e) = false -> is_nan (fChargeCut cfg) = false ->
      is_nan (fMaxADCCut cfg) = false ->
      skipped cfg e = false <-> accepted cfg e)
  /\ ((fNPads e + 1 = fMinPads cfg)%N -> skipped cfg e = true)
  /\ (fNPads e = fMinPads cfg -> (fNPads e <? fMinPads cfg)%N = false).
Proof.
  split; [|split; [|split; [|split]]].
  - intros st' Hrun.
    destruct (skipped cfg e) eqn:Hs.
    + rewrite process_entry_skipped in Hrun by exact Hs.
      injection Hrun as <-. rewrite fill_no_cuts_QA. simpl.
      split; [reflexivity|]. left.
      split; [reflexivity|]. split; [apply fill_no_cuts_pads | reflexivity].
    + rewrite process_entry_kept in Hrun by exact Hs.
      destruct (filled_charge updateGains sector e) as [charge|w] eqn:Hq;
        [|discriminate].
      simpl in Hrun.
      destruct (fSpectraHistograms st !! (tpcId, sectorId, fPadrow e, fPad e))
        as [h|] eqn:Hh; [|discriminate].
      injection Hrun as <-.
      rewrite fill_all_cuts_QA, fill_no_cuts_QA. simpl.
      split; [reflexivity|]. right.
      split; [reflexivity|]. exists h, charge.
      split; [reflexivity|]. split; [|split; [reflexivity|]].
      * unfold fill_all_cuts.
        destruct (QA_pair (fill_no_cuts _ _ _) _). simpl.
        rewrite fill_no_cuts_pads. reflexivity.
      * intros ->. unfold filled_charge in Hq. congruence.
  - intros h Hh Hok.
    destruct (skipped cfg e) eqn:Hs.
    + eexists. apply process_entry_skipped, Hs.
    + rewrite process_entry_kept by exact Hs. rewrite Hh.
      unfold filled_charge.
      destruct Hok as [->|[r Hr]].
      * eexists. reflexivity.
      * rewrite Hr. destruct updateGains; eexists; reflexivity.
  - intros Hq Hc Ha.
    apply skipped_iff_not_accepted; try assumption.
    apply N2double_number.
  - intros Hn. unfold skipped.
    assert ((fNPads e <? fMinPads cfg)%N = true) as -> by (apply N.ltb_lt; lia).
    rewrite orb_true_r. reflexivity.
  - intros Hn. apply N.ltb_ge. lia.
Qed.

(** C8 fails as stated: a cluster that passes the cuts and names a pad
    without histogram ends the run.  The fill goes through a null
    pointer; the cluster after it is never processed.  A tree whose
    name holds no sector number ends the run as well, before its
    chamber is looked up in the calibration list: [stoi] throws. *)
Lemma unknown_pad_ends_the_run :
  fSpectraHistograms spectraA !! (1%N, 2%N, 1%N, 9%N) = None
  /\ skipped cfgA (cluster 2.5 3 9) = false
  /\ process_entry cfgA false 1 2 sectorA (cluster 2.5 3 9) spectraA
     = Aborted NullHistogram
  /\ process_tree cfgA false [chamber1; chamber7]
       (treeA [cluster 2.5 3 9; cluster 2.5 3 1]) spectraA
     = Aborted NullHistogram
  /\ analyze cfgA false [chamber1; chamber7] [treeA [cluster 2.5 3 9; cluster 2.5 3 1]]
     = Aborted NullHistogram
  /\ identify (tree_GetName treeUnnumbered) = Aborted NoNumber
  /\ process_tree cfgA false [chamber1; chamber7] treeUnnumbered spectraA
     = Aborted NoNumber.
Proof. vm_compute. repeat split. Qed.

(** C8, amended. A cluster that names a pad without histogram is
    dropped, leaving every pad histogram as it was and the loop
    running, exactly when one of the cuts leaves it out; when it passes
    the cuts the run ends there.  The clusters of a tree that is
    identified as a sector of the detector and whose chamber is not
    calibrated are skipped with all histograms unchanged; a tree with
    entries that is not identified ends the run. *)
Theorem unknown_pad_cluster
    `{ext : External} (cfg : Config) (updateGains : bool)
    (tpcId sectorId : N) (sector : TPCSector) (e : Cluster) (st : Spectra) :
  fSpectraHistograms st !! (tpcId, sectorId, fPadrow e, fPad e) = None ->
  (skipped cfg e = true ->
     process_entry cfg updateGains tpcId sectorId sector e st
     = Done (fill_no_cuts (tpcId, sectorId) e st)
     /\ fSpectraHistograms (fill_no_cuts (tpcId, sectorId) e st)
        = fSpectraHistograms st
     /\ forall rest,
         for_each (process_entry cfg updateGains tpcId sectorId sector) (e :: rest) st
         = for_each (process_entry cfg updateGains tpcId sectorId sector) rest
                    (fill_no_cuts (tpcId, sectorId) e st))
  /\ (skipped cfg e = false ->
      (exists why,
          process_entry cfg updateGains tpcId sectorId sector e st = Aborted why)
      /\ forall rest, exists why,
          for_each (process_entry cfg updateGains tpcId sectorId sector) (e :: rest) st
          = Aborted why)
  /\ (forall tpc t tpcId' sectorId' sector',
        resolve tpc t = Done (tpcId', sectorId', sector') ->
        tpcId' ∉ fTPCIdList cfg ->
        process_tree cfg updateGains tpc t st = Done st)
  /\ (forall tpc t why,
        tree_entries t <> [] ->
        resolve tpc t = Aborted why ->
        process_tree cfg updateGains tpc t st = Aborted why).
Proof.
  intros Hnone. split; [|split; [|split]].
  - intros Hs. split; [apply process_entry_skipped, Hs|].
    split; [apply fill_no_cuts_pads|].
    intros rest. simpl. rewrite process_entry_skipped by exact Hs. reflexivity.
  - intros Hs.
    assert (exists why,
               process_entry cfg updateGains tpcId sectorId sector e st = Aborted why)
      as [why Hwhy].
    { rewrite process_entry_kept by exact Hs. rewrite Hnone.
      destruct (filled_charge updateGains sector e) as [c|w]; eexists; reflexivity. }
    split; [exists why; exact Hwhy|].
    intros rest. exists why. simpl. rewrite Hwhy. reflexivity.
  - intros tpc t tpcId' sectorId' sector' Hres Ht. unfold process_tree.
    destruct (tree_entries t); [reflexivity|].
    rewrite Hres. simpl.
    destruct (decide _); [contradiction | reflexivity].
  - intros tpc t why Hne Hres. unfold process_tree.
    destruct (tree_entries t); [contradiction|].
    rewrite Hres. reflexivity.
Qed.

Lemma unknown_pad_cluster_witness :
  process_entry cfgA false 1 2 sectorA (cluster 2.5 1 9) spectraA
  = Done (fill_no_cuts (1%N, 2%N) (cluster 2.5 1 9) spectraA).
Proof.
  pose proof (unknown_pad_cluster cfgA false 1 2 sectorA (cluster 2.5 1 9) spectraA)
    as H.
  destruct H as (H & _).
  - vm_compute. reflexivity.
  - destruct H as (H & _).
    + vm_compute. reflexivity.
    + exact H.
Defined.

(** ** C5, C6, C7: the second pass *)

Section LocateFacts.

Context {ext : External} (cfg : Config).

#[local] Arguments locate_pad : simpl never.

Lemma locate_pad_few_entries (p : Peaks) (k : PadKey) (h : TH1D) :
  enough_entries cfg h = false -> locate_pad cfg p (k, h) = p.
Proof.
  unfold enough_entries, locate_pad. intros ->. reflexivity.
Qed.

Lemma locate_pad_gaussian (p : Peaks) (k : PadKey) (h : TH1D) :
  enough_entries cfg h = true -> fFitFunction cfg = "Gaussian" ->
  locate_pad cfg p (k, h)
  = record_peak k (Fit h (gausFit h (find_peak cfg k.1.1.1 k.1.1.2 h)) 1%nat) p.
Proof.
  unfold enough_entries, locate_pad. intros -> ->. reflexivity.
Qed.

Lemma locate_pad_fermi (p : Peaks) (k : PadKey) (h : TH1D) :
  enough_entries cfg h = true -> fFitFunction cfg = "Fermi" ->
  locate_pad cfg p (k, h)
  = record_peak k (Fit h (fermiFit h (find_peak cfg k.1.1.1 k.1.1.2 h)) 2%nat) p.
Proof.
  unfold enough_entries, locate_pad. intros -> ->. reflexivity.
Qed.

(** Whatever the fit function, the body either records one value for
    the pad or does nothing, and it records only with enough entries. *)
Lemma locate_pad_cases (p : Peaks) (k : PadKey) (h : TH1D) :
  locate_pad cfg p (k, h) = p
  \/ (enough_entries cfg h = true
      /\ exists v, locate_pad cfg p (k, h) = record_peak k v p).
Proof.
  unfold enough_entries, locate_pad.
  destruct (_ <=? _)%Z; [|left; reflexivity].
  destruct (String.eqb _ "Gaussian"); [right; split; [reflexivity|eexists; reflexivity]|].
  destruct (String.eqb _ "Fermi"); [right; split; [reflexivity|eexists; reflexivity]|].
  left; reflexivity.
Qed.

Lemma locate_pad_valid_mode (p : Peaks) (k : PadKey) (h : TH1D) :
  fFitFunction cfg = "Gaussian" \/ fFitFunction cfg = "Fermi" ->
  enough_entries cfg h = true ->
  exists v, locate_pad cfg p (k, h) = record_peak k v p.
Proof.
  intros [Hm|Hm] He.
  - eexists. apply locate_pad_gaussian; assumption.
  - eexists. apply locate_pad_fermi; assumption.
Qed.

Lemma sector_count_AddValue acc t s v t' s' :
  sector_count (AddValue acc t s v) t' s'
  = (sector_count acc t' s'
     + if decide ((t, s) = (t', s')) then 1 else 0)%N.
Proof.
  unfold sector_count, AddValue.
  destruct (default (0, 0%N) (acc !! (t, s))) as [sum count] eqn:E.
  destruct (decide ((t, s) = (t', s'))) as [Heq|Hne].
  - injection Heq as <- <-. simpl. rewrite lookup_insert_eq, E. reflexivity.
  - simpl. rewrite lookup_insert_ne by exact Hne. lia.
Qed.

(** Pads with too few entries could as well be absent. *)
Lemma fold_locate_filter (order : list (PadKey * TH1D)) (p : Peaks) :
  fold_left (locate_pad cfg) (filter (fun kh => enough_entries cfg kh.2 = true) order) p
  = fold_left (locate_pad cfg) order p.
Proof.
  revert p. induction order as [|[k h] order IH]; intros p; [reflexivity|].
  rewrite filter_cons. simpl.
  destruct (decide (enough_entries cfg h = true)) as [He|He].
  - simpl. apply IH.
  - rewrite IH. apply not_true_is_false in He.
    rewrite locate_pad_few_entries by exact He. reflexivity.
Qed.

(** A stored position comes from a pad of the pass that has enough
    entries. *)
Lemma fold_locate_record (order : list (PadKey * TH1D)) (p : Peaks) k v :
  spectrumADCs (fold_left (locate_pad cfg) order p) !! k = Some v ->
  spectrumADCs p !! k = Some v
  \/ exists h, (k, h) ∈ order /\ enough_entries cfg h = true.
Proof.
  revert p. induction order as [|[k' h'] order IH]; intros p Hk; [left; exact Hk|].
  simpl in Hk. apply IH in Hk as [Hk|(h & Hin & He)].
  - destruct (locate_pad_cases p k' h') as [E|(He & w & E)]; rewrite E in Hk.
    + left. exact Hk.
    + unfold record_peak in Hk. simpl in Hk.
      destruct (decide (k' = k)) as [->|Hne].
      * right. exists h'. split; [left | exact He].
      * rewrite lookup_insert_ne in Hk by exact Hne. left. exact Hk.
  - right. exists h. split; [right; exact Hin | exact He].
Qed.

(** With one of the two fit functions configured, a sector's averager
    has received one value per pad of the sector with enough entries. *)
Lemma fold_locate_count (order : list (PadKey * TH1D)) (p : Peaks) t s :
  fFitFunction cfg = "Gaussian" \/ fFitFunction cfg = "Fermi" ->
  sector_count (totalAccumulators (fold_left (locate_pad cfg) order p)) t s
  = (sector_count (totalAccumulators p) t s
     + N.of_nat (length (filter (fun kh => (in_sector t s kh.1
                                            && enough_entries cfg kh.2)%bool = true)
                                order)))%N.
Proof.
  intros Hm. revert p.
  induction order as [|[k h] order IH]; intros p; [simpl; lia|].
  rewrite filter_cons. simpl. rewrite IH.
  destruct (enough_entries cfg h) eqn:He.
  - destruct (locate_pad_valid_mode p k h Hm He) as [v ->].
    unfold record_peak. simpl. rewrite sector_count_AddValue.
    rewrite andb_true_r.
    assert (in_sector t s k = true <-> (k.1.1.1, k.1.1.2) = (t, s)) as Hs.
    { unfold in_sector. rewrite andb_true_iff, !N.eqb_eq.
      split; [intros [-> ->]; reflexivity | intros [= -> ->]; split; reflexivity]. }
    repeat case_decide; simpl; try lia; exfalso; tauto.
  - rewrite locate_pad_few_entries by exact He.
    rewrite andb_false_r.
    case_decide; [discriminate | lia].
Qed.

End LocateFacts.

Section PeakFacts.

Context {ext : External} (cfg : Config) (tpcId sectorId : N) (h : TH1D).

Lemma GetBinContent_nonneg (i : Z) : (0 <= GetBinContent h i)%Z.
Proof. unfold GetBinContent. lia. Qed.

Lemma scan_bin_step (n : Z) (pk : PeakSearch) :
  (0 <= n)%Z ->
  peak_found cfg tpcId sectorId h n pk ->
  peak_found cfg tpcId sectorId h (n + 1) (scan_bin cfg tpcId sectorId h pk n).
Proof.
  intros Hn (Hpos & Hmax & Hnone & Hsome).
  unfold scan_bin.
  destruct (GetBinCenter (GetXaxis h) n <? minADCPeakSearch cfg tpcId sectorId)
    eqn:Hel.
  - (* the bin is below the search bound *)
    split; [exact Hpos|]. split; [|split; [exact Hnone|]].
    + intros i Hi Ei. destruct (decide (i = n)) as [->|Hne].
      * unfold eligible in Ei. congruence.
      * apply Hmax; [lia | exact Ei].
    + intros Hv. destruct (Hsome Hv) as (Hb & Hrest). split; [lia | exact Hrest].
  - destruct (chargePeakValue pk <? GetBinContent h n)%Z eqn:Hgt.
    + (* a new maximum *)
      apply Z.ltb_lt in Hgt. unfold peak_found. simpl.
      split; [lia|]. split; [|split].
      * intros i Hi Ei. destruct (decide (i = n)) as [->|Hne]; [lia|].
        specialize (Hmax i ltac:(lia) Ei). lia.
      * simpl. lia.
      * intros _. simpl. split; [lia|]. split; [exact Hel|].
        split; [reflexivity|]. split; [reflexivity|].
        intros i Hi Ei. specialize (Hmax i ltac:(lia) Ei). lia.
    + (* the running maximum stays *)
      apply Z.ltb_ge in Hgt.
      split; [exact Hpos|]. split; [|split; [exact Hnone|]].
      * intros i Hi Ei. destruct (decide (i = n)) as [->|Hne]; [exact Hgt|].
        apply Hmax; [lia | exact Ei].
      * intros Hv. destruct (Hsome Hv) as (Hb & Hrest). split; [lia | exact Hrest].
Qed.

Lemma scan_prefix (n : nat) :
  peak_found cfg tpcId sectorId h (Z.of_nat n)
    (fold_left (scan_bin cfg tpcId sectorId h) (seqZ 0 (Z.of_nat n)) no_peak).
Proof.
  induction n as [|n IH].
  - simpl. split; [reflexivity|]. split; [intros i Hi; lia|].
    split; [reflexivity | simpl; lia].
  - rewrite seqZ_S, fold_left_app. simpl.
    replace (Z.of_nat (S n)) with (Z.of_nat n + 1)%Z by lia.
    apply scan_bin_step; [lia | exact IH].
Qed.

(** The search, over the bins [0 .. lastBin − 1]. *)
Lemma find_peak_found :
  peak_found cfg tpcId sectorId h (lastBin h) (find_peak cfg tpcId sectorId h).
Proof.
  unfold find_peak. fold no_peak.
  destruct (decide (0 <= lastBin h)%Z) as [Hl|Hl].
  - rewrite <- (Z2Nat.id (lastBin h)) by exact Hl. apply scan_prefix.
  - rewrite seqZ_nil by lia. simpl.
    split; [reflexivity|]. split; [intros i Hi; lia|].
    split; [reflexivity | simpl; lia].
Qed.

End PeakFacts.

Lemma find_first {A} (P : A -> bool) (l1 l2 : list A) (b : A) :
  Forall (fun x => P x = false) l1 -> P b = true ->
  find P (l1 ++ b :: l2) = Some b.
Proof.
  intros Hl Hb. induction Hl as [|x l1 Hx _ IH]; simpl.
  - rewrite Hb. reflexivity.
  - rewrite Hx. exact IH.
Qed.

Lemma find_nowhere {A} (P : A -> bool) (l : list A) :
  Forall (fun x => P x = false) l -> find P l = None.
Proof.
  intros Hl. induction Hl as [|x l Hx _ IH]; simpl; [reflexivity|].
  rewrite Hx. exact IH.
Qed.

Section WalkFacts.

Context {ext : External} (h : TH1D) (pk : PeakSearch).

(** The walk to the left ends at the first bin, from [maxBin] down to
    1, that is below half of the peak value. *)
Lemma minChargeForFit_first (b : Z) :
  (1 <= b <= maxBin pk)%Z ->
  below_half h pk b = true ->
  (forall b', (b < b' <= maxBin pk)%Z -> below_half h pk b' = false) ->
  minChargeForFit h pk = GetBinCenter (GetXaxis h) b.
Proof.
  intros Hb Hbelow Habove. unfold minChargeForFit.
  replace (maxBin pk) with ((b - 1) + (maxBin pk - b + 1))%Z at 1 by lia.
  rewrite seqZ_app by lia.
  rewrite (seqZ_cons (1 + (b - 1))) by lia.
  rewrite reverse_app, reverse_cons, <- app_assoc. simpl.
  replace (1 + (b - 1))%Z with b by lia.
  rewrite (find_first _ _ _ b); [reflexivity| |exact Hbelow].
  apply Forall_reverse, Forall_seqZ. intros b' Hb'. apply Habove. lia.
Qed.

Lemma minChargeForFit_none :
  (forall b, (1 <= b <= maxBin pk)%Z -> below_half h pk b = false) ->
  minChargeForFit h pk = 0.
Proof.
  intros Hall. unfold minChargeForFit.
  rewrite find_nowhere; [reflexivity|].
  apply Forall_reverse, Forall_seqZ. intros b Hb. apply Hall. lia.
Qed.

(** The walk to the right ends at the first such bin from [maxBin] up
    to [lastBin]. *)
Lemma maxChargeForFit_first (b : Z) :
  (maxBin pk <= b <= lastBin h)%Z ->
  below_half h pk b = true ->
  (forall b', (maxBin pk <= b' < b)%Z -> below_half h pk b' = false) ->
  maxChargeForFit h pk = GetBinCenter (GetXaxis h) b.
Proof.
  intros Hb Hbelow Habove. unfold maxChargeForFit.
  replace (lastBin h - maxBin pk + 1)%Z
    with ((b - maxBin pk) + (lastBin h - b + 1))%Z by lia.
  rewrite seqZ_app by lia.
  rewrite (seqZ_cons (maxBin pk + (b - maxBin pk))) by lia.
  replace (maxBin pk + (b - maxBin pk))%Z with b by lia.
  rewrite (find_first _ _ _ b); [reflexivity| |exact Hbelow].
  apply Forall_seqZ. intros b' Hb'. apply Habove. lia.
Qed.

Lemma maxChargeForFit_none :
  (forall b, (maxBin pk <= b <= lastBin h)%Z -> below_half h pk b = false) ->
  maxChargeForFit h pk = 0.
Proof.
  intros Hall. unfold maxChargeForFit.
  rewrite find_nowhere; [reflexivity|].
  apply Forall_seqZ. intros b Hb. apply Hall. lia.
Qed.

End WalkFacts.

(** C5 fails as stated.  With a fit function that is neither
    "Gaussian" nor "Fermi" (here "gaussian", in lower case), a pad with
    enough entries is not fitted and its sector receives nothing.  And
    a pad below the threshold is not absent downstream: pad 1, with one
    entry where two are required, gets a row in the result tree, with
    position 0 and gain 0, and −1 in the gain table. *)
Lemma excluded_pad_gets_a_row :
  enough_entries cfgLower histA = true
  /\ locate_pad cfgLower no_peaks ((1%N, 2%N, 1%N, 1%N), histA) = no_peaks
  /\ sector_count
       (totalAccumulators (locate_all cfgLower [((1%N, 2%N, 1%N, 1%N), histA)]))
       1 2 = 0%N
  /\ enough_entries cfgA histOne = false
  /\ emit_pad cfgA false (locate_all cfgA [((1%N, 2%N, 1%N, 1%N), histOne)])
       chamber1 2 100 padrowA no_output 1
     = {| gainsFileStream := [Value "-1"];
          fResultTree := [{| row_TPCId := 1; row_SectorId := 2; row_PadrowId := 1;
                             row_PadId := 1; row_SpectrumADC := 0;
                             row_Gain := 0 |}] |}.
Proof. vm_compute. repeat split. Qed.

(** C5, amended. A pad is fitted only when its histogram has at least
    [fMinHistogramEntries] entries; a pad below that leaves the second
    pass as if it were absent: no position is stored for it and no
    sector averager changes.  It is not absent from the output: a pad
    of a calibrated chamber without stored position, as every pad below
    the threshold is, gets a row in the result tree with position 0 and
    gain 0, and the text of −1 in the gain table.  With the fit
    function "Gaussian" or "Fermi", a pad with enough entries always
    stores its position and adds it to its sector's averager, so that
    every sector has received exactly one value per pad of it with
    enough entries. *)
Theorem entries_threshold `{ext : External} (cfg : Config) :
  (forall p k h, enough_entries cfg h = false -> locate_pad cfg p (k, h) = p)
  /\ (forall order k v,
        spectrumADCs (locate_all cfg order) !! k = Some v ->
        exists h, (k, h) ∈ order /\ enough_entries cfg h = true)
  /\ (forall order,
        locate_all cfg (filter (fun kh => enough_entries cfg kh.2 = true) order)
        = locate_all cfg order)
  /\ (forall order updateGains chamber sectorId sectorADC padrow out padId,
        chamber_GetId chamber ∈ fTPCIdList cfg ->
        (forall h,
            ((chamber_GetId chamber, sectorId, padrow_GetId padrow, padId), h) ∈ order ->
            enough_entries cfg h = false) ->
        emit_pad cfg updateGains (locate_all cfg order) chamber sectorId sectorADC
                 padrow out padId
        = extend out
            [Value (ostream_double (-1))]
            [{| row_TPCId := chamber_GetId chamber; row_SectorId := sectorId;
                row_PadrowId := padrow_GetId padrow; row_PadId := padId;
                row_SpectrumADC := 0; row_Gain := 0 |}])
  /\ (fFitFunction cfg = "Gaussian" \/ fFitFunction cfg = "Fermi" ->
      (forall p k h,
          enough_entries cfg h = true ->
          exists v,
            locate_pad cfg p (k, h)
            = {| spectrumADCs := <[k := v]> (spectrumADCs p);
                 totalAccumulators :=
                   AddValue (totalAccumulators p) k.1.1.1 k.1.1.2 v |})
      /\ (forall order tpcId sectorId,
             sector_count (totalAccumulators (locate_all cfg order)) tpcId sectorId
             = N.of_nat (length (filter
                 (fun kh => (in_sector tpcId sectorId kh.1
                             && enough_entries cfg kh.2)%bool = true) order)))).
Proof.
  assert (forall order k v,
             spectrumADCs (locate_all cfg order) !! k = Some v ->
             exists h, (k, h) ∈ order /\ enough_entries cfg h = true) as Hstored.
  { intros order k v Hk. unfold locate_all in Hk.
    apply fold_locate_record in Hk as [Hk|Hk]; [|exact Hk].
    simpl in Hk. rewrite lookup_empty in Hk. discriminate. }
  split; [|split; [|split; [|split]]].
  - intros p k h. apply locate_pad_few_entries.
  - exact Hstored.
  - intros order. unfold locate_all. apply fold_locate_filter.
  - intros order updateGains chamber sectorId sectorADC padrow out padId Hin Hfew.
    rewrite emit_pad_extend.
    destruct (decide _) as [_|Hout]; [|contradiction].
    assert (spectrumADCs (locate_all cfg order)
              !! (chamber_GetId chamber, sectorId, padrow_GetId padrow, padId) = None)
      as Hnone.
    { destruct (spectrumADCs (locate_all cfg order) !! _) as [v|] eqn:E;
        [|reflexivity].
      destruct (Hstored _ _ _ E) as (h & Hh & He).
      rewrite (Hfew h Hh) in He. discriminate He. }
    unfold pad_row, pad_gain, padADC_of. rewrite Hnone. simpl.
    rewrite (table_value_nan_or_inf cfg _ (computeGain_unfitted _ _ _)).
    unfold sanitize. rewrite computeGain_unfitted. reflexivity.
  - intros Hm. split.
    + intros p k h He. apply locate_pad_valid_mode; assumption.
    + intros order t s. unfold locate_all.
      rewrite fold_locate_count by exact Hm. reflexivity.
Qed.

(** C6 fails as stated.  A histogram with fewer entries than
    [fMinHistogramEntries] is not fitted at all; and the search does not
    visit every bin: in [histB] the fullest bin above the search bound
    is bin 7, with three entries, and the search, which stops before
    [lastBin = 7], settles on bin 6 with one entry. *)
Lemma peak_search_leaves_bins_out :
  enough_entries cfgA histOne = false
  /\ locate_pad cfgA no_peaks ((1%N, 2%N, 1%N, 1%N), histOne) = no_peaks
  /\ GetBinContent histB 7 = 3%Z
  /\ (GetBinCenter (GetXaxis histB) 7 <? minADCPeakSearch cfgA 1 2) = false
  /\ find_peak cfgA 1 2 histB
     = {| maxBin := 6; chargePeak := 5.5; chargePeakValue := 1 |}.
Proof. vm_compute. repeat split. Qed.

(** C6, amended. With the fit function "Gaussian", a pad histogram with
    at least [fMinHistogramEntries] entries is located as follows.
    (1) Among the bins of index below [lastBin = nbins − 1] whose centre
    is not below the search bound, the first bin of maximal content is
    the provisional peak: [maxBin], with centre [chargePeak] and content
    [chargePeakValue].  (2) The first bin, going from [maxBin] down to
    bin 1, whose content is below half of [chargePeakValue] gives the
    lower fit bound, and the first such bin going from [maxBin] up to
    [lastBin] gives the upper one, each walk on its own.  (3) A "gaus"
    function restricted to these bounds is fitted, and its parameter 1,
    the mean, is stored as the position of the pad. *)
Theorem peak_mode_locator
    `{ext : External} (cfg : Config) (p : Peaks) (k : PadKey) (h : TH1D) :
  fFitFunction cfg = "Gaussian" ->
  enough_entries cfg h = true ->
  let pk := find_peak cfg k.1.1.1 k.1.1.2 h in
  peak_found cfg k.1.1.1 k.1.1.2 h (lastBin h) pk
  /\ (forall b, (1 <= b <= maxBin pk)%Z ->
                (2 * GetBinContent h b <? chargePeakValue pk)%Z = true ->
                (forall b', (b < b' <= maxBin pk)%Z ->
                            (2 * GetBinContent h b' <? chargePeakValue pk)%Z = false) ->
                minChargeForFit h pk = GetBinCenter (GetXaxis h) b)
  /\ (forall b, (maxBin pk <= b <= lastBin h)%Z ->
                (2 * GetBinContent h b <? chargePeakValue pk)%Z = true ->
                (forall b', (maxBin pk <= b' < b)%Z ->
                            (2 * GetBinContent h b' <? chargePeakValue pk)%Z = false) ->
                maxChargeForFit h pk = GetBinCenter (GetXaxis h) b)
  /\ gausFit h pk
     = {| tf1_formula := "gaus";
          tf1_xmin := minChargeForFit h pk;
          tf1_xmax := maxChargeForFit h pk;
          tf1_fixed := []; tf1_start := []; tf1_limits := [] |}
  /\ locate_pad cfg p (k, h) = record_peak k (Fit h (gausFit h pk) 1%nat) p
  /\ spectrumADCs (locate_pad cfg p (k, h)) !! k = Some (Fit h (gausFit h pk) 1%nat).
Proof.
  intros Hm He pk.
  split; [apply find_peak_found|].
  split; [intros b; apply minChargeForFit_first|].
  split; [intros b; apply maxChargeForFit_first|].
  split; [reflexivity|].
  rewrite (locate_pad_gaussian cfg p k h He Hm).
  split; [reflexivity|].
  unfold record_peak. simpl. apply lookup_insert_eq.
Qed.

Lemma peak_mode_locator_witness :
  find_peak cfgA 1 2 histA = {| maxBin := 6; chargePeak := 5.5; chargePeakValue := 3 |}
  /\ spectrumADCs (locate_pad cfgA no_peaks ((1%N, 2%N, 1%N, 1%N), histA))
       !! (1%N, 2%N, 1%N, 1%N)
     = Some (Fit histA (gausFit histA (find_peak cfgA 1 2 histA)) 1%nat).
Proof.
  pose proof (peak_mode_locator cfgA no_peaks (1%N, 2%N, 1%N, 1%N) histA) as H.
  destruct H as (_ & _ & _ & _ & _ & H).
  - reflexivity.
  - vm_compute. reflexivity.
  - split; [vm_compute; reflexivity | exact H].
Defined.

(** C7 fails as stated: the fit range does not reach the upper end of
    the histogram.  For an axis from 0 to 8 with 8 bins it ends at 6.5,
    the centre of bin 7. *)
Lemma edge_fit_ends_before_histogram_end :
  tf1_xmax (fermiFit histA (find_peak cfgFermi 1 2 histA)) = 6.5
  /\ axis_Xmax (GetXaxis histA) = 8
  /\ axis_Nbins (GetXaxis histA) = 8%Z
  /\ (6.5 <? 8) = true.
Proof. vm_compute. repeat split. Qed.

(** C7, amended. With the fit function "Fermi", a pad histogram with at
    least [fMinHistogramEntries] entries is fitted with
    [[0]/(1+exp([1]*(x-[2])))] from the provisional peak position up to
    [maxCharge], the centre of bin [nbins − 1]; parameter 0, the
    amplitude, is fixed to the provisional peak value, parameter 1, the
    slope, is kept between 0.0001 and 1, and parameter 2, the edge, is
    stored as the position of the pad. *)
Theorem edge_mode_locator
    `{ext : External} (cfg : Config) (p : Peaks) (k : PadKey) (h : TH1D) :
  fFitFunction cfg = "Fermi" ->
  enough_entries cfg h = true ->
  let pk := find_peak cfg k.1.1.1 k.1.1.2 h in
  fermiFit h pk
  = {| tf1_formula := "[0]/(1+TMath::Exp([1]*(x-[2])))";
       tf1_xmin := chargePeak pk;
       tf1_xmax := GetBinCenter (GetXaxis h) (axis_Nbins (GetXaxis h) - 1);
       tf1_fixed := [(0%nat, Z2double (chargePeakValue pk))];
       tf1_start := [(1%nat, 0.01); (2%nat, chargePeak pk)];
       tf1_limits := [(1%nat, (0.0001, 1))] |}
  /\ (0 <? 0.0001) = true /\ (0.0001 <? 1) = true
  /\ peak_found cfg k.1.1.1 k.1.1.2 h (lastBin h) pk
  /\ locate_pad cfg p (k, h) = record_peak k (Fit h (fermiFit h pk) 2%nat) p
  /\ spectrumADCs (locate_pad cfg p (k, h)) !! k = Some (Fit h (fermiFit h pk) 2%nat).
Proof.
  intros Hm He pk.
  split; [reflexivity|].
  split; [reflexivity|]. split; [reflexivity|].
  split; [apply find_peak_found|].
  rewrite (locate_pad_fermi cfg p k h He Hm).
  split; [reflexivity|].
  unfold record_peak. simpl. apply lookup_insert_eq.
Qed.

Lemma edge_mode_locator_witness :
  fermiFit histA (find_peak cfgFermi 1 2 histA)
  = {| tf1_formula := "[0]/(1+TMath::Exp([1]*(x-[2])))";
       tf1_xmin := 5.5;
       tf1_xmax := 6.5;
       tf1_fixed := [(0%nat, 3)];
       tf1_start := [(1%nat, 0.01); (2%nat, 5.5)];
       tf1_limits := [(1%nat, (0.0001, 1))] |}
  /\ spectrumADCs (locate_pad cfgFermi no_peaks ((1%N, 2%N, 1%N, 1%N), histA))
       !! (1%N, 2%N, 1%N, 1%N)
     = Some 6.
Proof.
  pose proof (edge_mode_locator cfgFermi no_peaks (1%N, 2%N, 1%N, 1%N) histA) as H.
  destruct H as (_ & _ & _ & _ & _ & H).
  - reflexivity.
  - vm_compute. reflexivity.
  - split; [vm_compute; reflexivity|].
    rewrite H. vm_compute. reflexivity.
Defined.

(** ** C9: a sector without any fitted pad *)

Section EmptySectorFacts.

Context {ext : External} (cfg : Config) (updateGains : bool).

#[local] Arguments locate_pad : simpl never.





End EmptySectorFacts.




(** ** Further properties of the histogram creation and the cluster loop *)

Lemma fold_left_flat_map {A B C} (f : A -> B -> A) (g : C -> list B)
    (l : list C) (a : A) :
  fold_left f (flat_map g l) a = fold_left (fun a x => fold_left f (g x) a) l a.
Proof.
  revert a. induction l as [|x l IH]; intros a; simpl; [reflexivity|].
  rewrite fold_left_app. apply IH.
Qed.

Lemma fold_left_ext_eq {A B} (f g : A -> B -> A) (l : list B) (a : A) :
  (forall a b, f a b = g a b) -> fold_left f l a = fold_left g l a.
Proof.
  intros H. revert a. induction l as [|x l IH]; intros a; simpl; [reflexivity|].
  rewrite H. apply IH.
Qed.

Lemma fold_left_fmap {A B C} (f : A -> B -> A) (g : C -> B) (l : list C) (a : A) :
  fold_left f (map g l) a = fold_left (fun a x => f a (g x)) l a.
Proof.
  revert a. induction l as [|x l IH]; intros a; simpl; [reflexivity | apply IH].
Qed.

Section CreateFacts.

Context {ext : External} (cfg : Config).

Lemma create_histograms_pads (tpc : list TPCChamber) :
  create_histograms cfg tpc = fold_left (add_fresh cfg) (calibrated_pads cfg tpc) ∅.
Proof.
  unfold create_histograms, calibrated_pads.
  rewrite fold_left_flat_map. apply fold_left_ext_eq. intros m c.
  unfold create_chamber, chamber_pads.
  destruct (decide _); [|reflexivity].
  rewrite fold_left_flat_map. apply fold_left_ext_eq. intros m' s.
  unfold create_sector, sector_pads.
  rewrite fold_left_flat_map. apply fold_left_ext_eq. intros m'' r.
  unfold create_padrow, padrow_pads.
  rewrite fold_left_fmap. reflexivity.
Qed.

Lemma fold_add_fresh_lookup (l : list PadKey) (m : gmap PadKey TH1D) (k : PadKey) :
  fold_left (add_fresh cfg) l m !! k
  = if decide (k ∈ l) then Some (fresh_histogram cfg k) else m !! k.
Proof.
  revert m. induction l as [|x l IH]; intros m; simpl.
  - destruct (decide (k ∈ [])) as [H|_]; [|reflexivity].
    apply elem_of_nil in H. contradiction.
  - rewrite IH. unfold add_fresh.
    destruct (decide (k ∈ l)) as [Hl|Hl].
    + destruct (decide (k ∈ x :: l)) as [_|H]; [reflexivity|].
      exfalso. apply H. right. exact Hl.
    + destruct (decide (x = k)) as [->|Hne].
      * rewrite lookup_insert_eq.
        destruct (decide (k ∈ k :: l)) as [_|H]; [reflexivity|].
        exfalso. apply H. left.
      * rewrite lookup_insert_ne by exact Hne.
        destruct (decide (k ∈ x :: l)) as [H|_]; [|reflexivity].
        apply elem_of_cons in H as [->|H]; contradiction.
Qed.

Lemma elem_of_flat_map {A B} (f : A -> list B) (l : list A) (b : B) :
  b ∈ flat_map f l <-> exists a, a ∈ l /\ b ∈ f a.
Proof.
  rewrite !list_elem_of_In, in_flat_map.
  split; intros (a & Ha & Hb); exists a; rewrite ?list_elem_of_In in *; auto.
Qed.

Lemma elem_of_pad_ids (n pad : N) : pad ∈ pad_ids n <-> (1 <= pad <= n)%N.
Proof.
  unfold pad_ids. rewrite list_elem_of_In, in_map_iff. split.
  - intros (i & <- & Hi). apply in_seq in Hi. lia.
  - intros H. exists (N.to_nat pad). split; [apply N2Nat.id|].
    apply in_seq. lia.
Qed.

Lemma elem_of_calibrated_pads (tpc : list TPCChamber) (t s r pad : N) :
  (t, s, r, pad) ∈ calibrated_pads cfg tpc
  <-> exists chamber sector padrow,
        chamber ∈ tpc /\ chamber_GetId chamber = t /\ t ∈ fTPCIdList cfg
        /\ sector ∈ chamber_Sectors chamber /\ sector_GetId sector = s
        /\ padrow ∈ sector_Padrows sector /\ padrow_GetId padrow = r
        /\ (1 <= pad <= padrow_GetNPads padrow)%N.
Proof.
  unfold calibrated_pads. rewrite elem_of_flat_map. split.
  - intros (c & Hc & Hk). unfold chamber_pads in Hk.
    destruct (decide _) as [Hin|_]; [|apply elem_of_nil in Hk; contradiction].
    apply elem_of_flat_map in Hk as (sec & Hsec & Hk). unfold sector_pads in Hk.
    apply elem_of_flat_map in Hk as (row & Hrow & Hk). unfold padrow_pads in Hk.
    apply list_elem_of_fmap in Hk as (p & [= -> -> -> ->] & Hp).
    apply elem_of_pad_ids in Hp.
    exists c, sec, row. repeat split; try assumption; lia.
  - intros (c & sec & row & Hc & <- & Hin & Hsec & <- & Hrow & <- & Hp).
    exists c. split; [exact Hc|]. unfold chamber_pads.
    destruct (decide _) as [_|H]; [|contradiction].
    apply elem_of_flat_map. exists sec. split; [exact Hsec|].
    apply elem_of_flat_map. exists row. split; [exact Hrow|].
    unfold padrow_pads. apply list_elem_of_fmap. exists pad.
    split; [reflexivity|]. apply elem_of_pad_ids. exact Hp.
Qed.

Lemma fresh_histogram_axis (k : PadKey) :
  created_axis cfg k.1.1.1 k.1.1.2 (GetXaxis (fresh_histogram cfg k)).
Proof.
  unfold created_axis, fresh_histogram, new_TH1D, Int_t_of_UInt. simpl.
  split; [reflexivity|]. split; [reflexivity|].
  change (2 ^ 31)%N with 2147483648%N. change (2 ^ 32)%N with 4294967296%N.
  change (2 ^ 31)%Z with 2147483648%Z. change (2 ^ 32)%Z with 4294967296%Z.
  pose proof (Z.mod_pos_bound (Z.of_N (fHistogramBins cfg)) 4294967296 eq_refl) as Hw.
  split; [|split].
  - intros Hn. rewrite Z.mod_small by lia.
    destruct (_ <? _)%Z eqn:E; [|apply Z.ltb_ge in E; lia].
    destruct (_ <=? _)%Z eqn:E'; [apply Z.leb_le in E'; lia | reflexivity].
  - intros Hn.
    assert (Z.of_N (fHistogramBins cfg) mod 4294967296 = Z.of_N (fHistogramBins cfg))%Z
      as -> by (apply Z.mod_small; lia).
    destruct Hn as [->|Hn]; [reflexivity|].
    destruct (_ <? _)%Z eqn:E; [apply Z.ltb_lt in E; lia|].
    destruct (_ <=? _)%Z eqn:E'; [reflexivity | apply Z.leb_gt in E'; lia].
  - destruct (_ <? _)%Z eqn:E;
      [apply Z.ltb_lt in E | apply Z.ltb_ge in E];
      destruct (_ <=? _)%Z eqn:E';
      first [apply Z.leb_le in E' | apply Z.leb_gt in E']; lia.
Qed.

End CreateFacts.

(** X1. The creation loops make a histogram for a pad exactly when its
    chamber is in the calibration list and the pad belongs to a padrow of
    a sector of that chamber, with pad number from 1 to the padrow's pad
    count; the histogram is empty and ranges from 0 to the search bound
    of its sector times the padding; it has [fHistogramBins] bins when
    that is between 1 and 2^31 − 1, and one bin when it is 0 or does not
    fit a signed 32-bit integer. *)
Theorem created_histograms `{ext : External} (cfg : Config)
    (tpc : list TPCChamber) (t s r pad : N) :
  (is_Some (create_histograms cfg tpc !! (t, s, r, pad))
   <-> exists chamber sector padrow,
         chamber ∈ tpc /\ chamber_GetId chamber = t /\ t ∈ fTPCIdList cfg
         /\ sector ∈ chamber_Sectors chamber /\ sector_GetId sector = s
         /\ padrow ∈ sector_Padrows sector /\ padrow_GetId padrow = r
         /\ (1 <= pad <= padrow_GetNPads padrow)%N)
  /\ (forall h,
        create_histograms cfg tpc !! (t, s, r, pad) = Some h ->
        fills h = [] /\ created_axis cfg t s (GetXaxis h)).
Proof.
  rewrite create_histograms_pads, fold_add_fresh_lookup.
  rewrite <- elem_of_calibrated_pads.
  destruct (decide _) as [Hin|Hout].
  - split.
    + split; [intros _; exact Hin | intros _; eexists; reflexivity].
    + intros h [= <-]. split; [reflexivity|].
      apply (fresh_histogram_axis cfg (t, s, r, pad)).
  - rewrite lookup_empty. split.
    + split; [intros [h Hh]; discriminate | intros H; contradiction].
    + intros h Hh. discriminate.
Qed.

Lemma for_each_invariant {A S} (I : S -> Prop) (body : A -> S -> outcome S)
    (l : list A) :
  (forall a s s', I s -> body a s = Done s' -> I s') ->
  forall s s', I s -> for_each body l s = Done s' -> I s'.
Proof.
  intros Hbody. induction l as [|a l IH]; intros s s' Hs Hrun; simpl in Hrun.
  - injection Hrun as <-. exact Hs.
  - destruct (body a s) as [s1|w] eqn:E; [|discriminate].
    simpl in Hrun. eapply IH; [|exact Hrun]. eapply Hbody; eassumption.
Qed.

Section ClusterLoopInvariants.

Context {ext : External} (cfg : Config) (updateGains : bool).

(** What a step of the cluster loop can do to the histograms. *)
Lemma process_entry_done tpcId sectorId sector e st st' :
  process_entry cfg updateGains tpcId sectorId sector e st = Done st' ->
  st' = fill_no_cuts (tpcId, sectorId) e st
  \/ exists h charge,
       skipped cfg e = false
       /\ fSpectraHistograms st !! (tpcId, sectorId, fPadrow e, fPad e) = Some h
       /\ st' = fill_all_cuts (tpcId, sectorId) charge e h
                              (fill_no_cuts (tpcId, sectorId) e st).
Proof.
  intros Hrun. destruct (skipped cfg e) eqn:Hs.
  - rewrite process_entry_skipped in Hrun by exact Hs.
    injection Hrun as <-. left. reflexivity.
  - rewrite process_entry_kept in Hrun by exact Hs.
    destruct (filled_charge updateGains sector e) as [charge|w]; [|discriminate].
    simpl in Hrun.
    destruct (fSpectraHistograms st !! _) as [h|] eqn:Hh; [|discriminate].
    injection Hrun as <-. right. exists h, charge. auto.
Qed.

Lemma fill_all_cuts_pads k charge e h st :
  fSpectraHistograms (fill_all_cuts k charge e h st)
  = <[(k.1, k.2, fPadrow e, fPad e) := Fill h charge]> (fSpectraHistograms st).
Proof. unfold fill_all_cuts. destruct (QA_pair st k). reflexivity. Qed.

Lemma QA_pair_fill_no_cuts_ne k k' e st :
  k <> k' -> QA_pair (fill_no_cuts k e st) k' = QA_pair st k'.
Proof.
  intros Hne. unfold fill_no_cuts. destruct (QA_pair st k) as [q1 q2].
  unfold QA_pair. simpl. rewrite lookup_insert_ne by exact Hne. reflexivity.
Qed.

Lemma QA_pair_fill_all_cuts_ne k k' charge e h st :
  k <> k' -> QA_pair (fill_all_cuts k charge e h st) k' = QA_pair st k'.
Proof.
  intros Hne. unfold fill_all_cuts. destruct (QA_pair st k) as [q1 q2].
  unfold QA_pair. simpl. rewrite lookup_insert_ne by exact Hne. reflexivity.
Qed.

Lemma grown_refl m : grown m m.
Proof.
  intros k. destruct (m !! k) as [h|]; constructor.
  split; [reflexivity|]. exists []. rewrite app_nil_r. reflexivity.
Qed.

Lemma grown_trans m0 m1 m2 : grown m0 m1 -> grown m1 m2 -> grown m0 m2.
Proof.
  intros H01 H12 k. specialize (H01 k). specialize (H12 k).
  destruct H01 as [h0 h1 [Hax1 [a1 Hf1]]|]; inversion H12 as [? h2 [Hax2 [a2 Hf2]]|];
    subst; constructor.
  split; [congruence|]. exists (a1 ++ a2). rewrite Hf2, Hf1, app_assoc. reflexivity.
Qed.

Lemma grown_Fill m k h x :
  m !! k = Some h -> grown m (<[k := Fill h x]> m).
Proof.
  intros Hk k'. destruct (decide (k = k')) as [<-|Hne].
  - rewrite lookup_insert_eq, Hk. constructor.
    split; [reflexivity|]. exists [x]. reflexivity.
  - rewrite lookup_insert_ne by exact Hne. apply grown_refl.
Qed.

Lemma process_entry_grown tpcId sectorId sector e st st' :
  process_entry cfg updateGains tpcId sectorId sector e st = Done st' ->
  grown (fSpectraHistograms st) (fSpectraHistograms st').
Proof.
  intros Hrun.
  apply process_entry_done in Hrun as [->|(h & charge & _ & Hh & ->)].
  - rewrite fill_no_cuts_pads. apply grown_refl.
  - rewrite fill_all_cuts_pads, fill_no_cuts_pads. simpl.
    apply grown_Fill, Hh.
Qed.

(** A tree that the loop gets through is left out, or it is identified
    and its entries are processed from the state in which the quality
    histograms of its sector are booked. *)
Lemma process_tree_done tpc t st st' :
  process_tree cfg updateGains tpc t st = Done st' ->
  st' = st
  \/ exists tpcId sectorId sector,
       resolve tpc t = Done (tpcId, sectorId, sector)
       /\ tpcId ∈ fTPCIdList cfg
       /\ is_Some (sector_GetPadrow sector (sector_GetNPadrows sector))
       /\ for_each (process_entry cfg updateGains tpcId sectorId sector)
                   (tree_entries t)
                   {| fSpectraHistograms := fSpectraHistograms st;
                      sectorQAHistograms :=
                        <[(tpcId, sectorId) := QA_pair st (tpcId, sectorId)]>
                          (sectorQAHistograms st) |}
          = Done st'.
Proof.
  unfold process_tree. destruct (tree_entries t) as [|e es].
  - intros [= <-]. left. reflexivity.
  - destruct (resolve tpc t) as [[[tpcId sectorId] sector]|w];
      [|discriminate].
    unfold mbind, outcome_bind. cbn [fst snd].
    destruct (decide _) as [Hin|Hout]; [|intros [= <-]; left; reflexivity].
    destruct (sector_GetPadrow sector (sector_GetNPadrows sector)) as [r|] eqn:Hr;
      [|discriminate].
    intros Hrun. right. exists tpcId, sectorId, sector.
    split; [reflexivity|]. split; [exact Hin|].
    split; [exists r; exact Hr | exact Hrun].
Qed.

Lemma process_tree_grown tpc t st st' :
  process_tree cfg updateGains tpc t st = Done st' ->
  grown (fSpectraHistograms st) (fSpectraHistograms st').
Proof.
  intros Hrun.
  apply process_tree_done in Hrun
    as [->|(tpcId & sectorId & sector & _ & _ & _ & Hrun)]; [apply grown_refl|].
  eapply (for_each_invariant
            (fun s => grown (fSpectraHistograms st) (fSpectraHistograms s)));
    [| |exact Hrun].
  - intros a s s1 Hs Hstep. eapply grown_trans; [exact Hs|].
    eapply process_entry_grown, Hstep.
  - simpl. apply grown_refl.
Qed.

Lemma fill_spectra_grown tpc trees st :
  fill_spectra cfg updateGains tpc trees = Done st ->
  grown (create_histograms cfg tpc) (fSpectraHistograms st).
Proof.
  intros Hrun. unfold fill_spectra in Hrun.
  eapply (for_each_invariant
            (fun s => grown (create_histograms cfg tpc) (fSpectraHistograms s)));
    [| |exact Hrun].
  - intros t s s1 Hs Hstep. eapply grown_trans; [exact Hs|].
    eapply process_tree_grown, Hstep.
  - simpl. apply grown_refl.
Qed.

End ClusterLoopInvariants.

(** X2. A run that gets through the cluster loop has kept the pad
    histograms it created: no histogram is added or removed, and every
    histogram has the axis it was created with. *)
Theorem cluster_loop_keeps_histograms `{ext : External} (cfg : Config)
    (updateGains : bool) (tpc : list TPCChamber) (trees : list ClusterTree)
    (st : Spectra) :
  fill_spectra cfg updateGains tpc trees = Done st ->
  dom (fSpectraHistograms st) = dom (create_histograms cfg tpc)
  /\ forall k h,
       fSpectraHistograms st !! k = Some h ->
       created_axis cfg k.1.1.1 k.1.1.2 (GetXaxis h)
       /\ exists h0,
            create_histograms cfg tpc !! k = Some h0
            /\ GetXaxis h = GetXaxis h0.
Proof.
  intros Hrun. pose proof (fill_spectra_grown cfg updateGains _ _ _ Hrun) as Hg.
  split.
  - apply set_eq. intros k. rewrite !elem_of_dom. specialize (Hg k).
    destruct Hg; split; intros [z Hz]; try discriminate; eexists; reflexivity.
  - intros k h Hk. specialize (Hg k). rewrite Hk in Hg.
    destruct (create_histograms cfg tpc !! k) as [h0|] eqn:H0; [|inversion Hg].
    inversion Hg as [? ? [Hax _]|]; subst.
    rewrite create_histograms_pads, fold_add_fresh_lookup in H0.
    destruct (decide _); [|rewrite lookup_empty in H0; discriminate].
    injection H0 as <-. rewrite Hax.
    split; [apply fresh_histogram_axis|].
    eexists. split; reflexivity.
Qed.

Lemma cluster_loop_keeps_histograms_witness :
  dom (fSpectraHistograms spectraA_filled)
  = dom (create_histograms cfgA [chamber1; chamber7]).
Proof.
  destruct (cluster_loop_keeps_histograms cfgA false [chamber1; chamber7]
              treesA spectraA_filled) as [H _].
  - vm_compute. reflexivity.
  - exact H.
Defined.

Section QAInvariants.

Context {ext : External} (cfg : Config) (updateGains : bool).

Lemma charges_of_pad_snoc (q : SectorQA) charge (e : Cluster) (r pad : N) :
  length (qa_spectrum q) = length (qa_padEntries q) ->
  charges_of_pad (fill_QA q charge e) r pad
  = charges_of_pad q r pad
    ++ (if decide ((fPad e, fPadrow e) = (pad, r)) then [charge] else []).
Proof.
  intros Hlen. unfold charges_of_pad, fill_QA. simpl.
  rewrite zip_with_app by exact Hlen. simpl.
  rewrite filter_app, fmap_app. f_equal.
  rewrite filter_cons, filter_nil. simpl.
  destruct (decide _); reflexivity.
Qed.

Lemma pads_match_fill_no_cuts k e st :
  pads_match_QA st -> pads_match_QA (fill_no_cuts k e st).
Proof.
  intros H t s.
  assert ((QA_pair (fill_no_cuts k e st) (t, s)).2 = (QA_pair st (t, s)).2) as ->.
  { destruct (decide (k = (t, s))) as [->|Hne].
    - rewrite fill_no_cuts_QA. reflexivity.
    - rewrite QA_pair_fill_no_cuts_ne by exact Hne. reflexivity. }
  rewrite fill_no_cuts_pads. apply H.
Qed.

Lemma pads_match_fill_all_cuts t0 s0 charge e h st :
  fSpectraHistograms st !! (t0, s0, fPadrow e, fPad e) = Some h ->
  pads_match_QA st -> pads_match_QA (fill_all_cuts (t0, s0) charge e h st).
Proof.
  intros Hh H t s. specialize (H t s) as [Hlen Hpads].
  rewrite fill_all_cuts_pads. simpl.
  destruct (decide ((t0, s0) = (t, s))) as [[= <- <-]|Hne].
  - rewrite fill_all_cuts_QA. simpl. split.
    + unfold fill_QA. simpl. rewrite !length_app, Hlen. reflexivity.
    + intros r pad h' Hk. rewrite charges_of_pad_snoc by exact Hlen.
      destruct (decide ((fPad e, fPadrow e) = (pad, r))) as [[= <- <-]|Hpad].
      * rewrite lookup_insert_eq in Hk. injection Hk as <-. simpl.
        rewrite (Hpads _ _ _ Hh). reflexivity.
      * rewrite lookup_insert_ne in Hk by congruence.
        rewrite app_nil_r. apply Hpads, Hk.
  - rewrite QA_pair_fill_all_cuts_ne by exact Hne. split; [exact Hlen|].
    intros r pad h' Hk. rewrite lookup_insert_ne in Hk by congruence.
    apply Hpads, Hk.
Qed.

Lemma process_entry_pads_match tpcId sectorId sector e st st' :
  pads_match_QA st ->
  process_entry cfg updateGains tpcId sectorId sector e st = Done st' ->
  pads_match_QA st'.
Proof.
  intros H Hrun.
  apply process_entry_done in Hrun as [->|(h & charge & _ & Hh & ->)].
  - apply pads_match_fill_no_cuts, H.
  - apply pads_match_fill_all_cuts.
    + rewrite fill_no_cuts_pads. exact Hh.
    + apply pads_match_fill_no_cuts, H.
Qed.

(** Booking the quality histograms of a sector does not change what
    they hold. *)
Lemma QA_pair_booked st k k' :
  QA_pair {| fSpectraHistograms := fSpectraHistograms st;
             sectorQAHistograms := <[k := QA_pair st k]> (sectorQAHistograms st) |} k'
  = QA_pair st k'.
Proof.
  unfold QA_pair at 1. simpl. destruct (decide (k = k')) as [<-|Hne].
  - rewrite lookup_insert_eq. reflexivity.
  - rewrite lookup_insert_ne by exact Hne. reflexivity.
Qed.

Lemma process_tree_pads_match tpc t st st' :
  pads_match_QA st ->
  process_tree cfg updateGains tpc t st = Done st' ->
  pads_match_QA st'.
Proof.
  intros H Hrun.
  apply process_tree_done in Hrun
    as [->|(tpcId & sectorId & sector & _ & _ & _ & Hrun)]; [exact H|].
  revert Hrun. apply (for_each_invariant pads_match_QA).
  - intros a s s1 Hs Hstep. eapply process_entry_pads_match; eassumption.
  - intros t1 s1. unfold pads_match_QA in H. rewrite QA_pair_booked. apply H.
Qed.

Lemma sublist_snoc_r {A} (l k : list A) (x : A) :
  l `sublist_of` k -> l `sublist_of` k ++ [x].
Proof. intros H. apply sublist_inserts_r, H. Qed.

Lemma sublist_snoc {A} (l k : list A) (x : A) :
  l `sublist_of` k -> l ++ [x] `sublist_of` k ++ [x].
Proof. intros H. apply sublist_app; [exact H | reflexivity]. Qed.

Lemma QA_nested_fill_no_cuts k e st :
  QA_nested st -> QA_nested (fill_no_cuts k e st).
Proof.
  intros H k'. destruct (decide (k = k')) as [<-|Hne].
  - rewrite fill_no_cuts_QA. simpl. destruct (H k) as (H1 & H2 & H3).
    repeat split; apply sublist_snoc_r; assumption.
  - rewrite QA_pair_fill_no_cuts_ne by exact Hne. apply H.
Qed.

Lemma QA_nested_fill_both k charge e h st :
  QA_nested st -> QA_nested (fill_all_cuts k charge e h (fill_no_cuts k e st)).
Proof.
  intros H k'. destruct (decide (k = k')) as [<-|Hne].
  - rewrite fill_all_cuts_QA, fill_no_cuts_QA. simpl.
    destruct (H k) as (H1 & H2 & H3).
    repeat split; apply sublist_snoc; assumption.
  - rewrite QA_pair_fill_all_cuts_ne, QA_pair_fill_no_cuts_ne by exact Hne.
    apply H.
Qed.

Lemma process_tree_QA_nested tpc t st st' :
  QA_nested st ->
  process_tree cfg updateGains tpc t st = Done st' ->
  QA_nested st'.
Proof.
  intros H Hrun.
  apply process_tree_done in Hrun
    as [->|(tpcId & sectorId & sector & _ & _ & _ & Hrun)]; [exact H|].
  revert Hrun. apply (for_each_invariant QA_nested).
  - intros a s s1 Hs Hstep.
    apply process_entry_done in Hstep as [->|(h & charge & _ & Hh & ->)].
    + apply QA_nested_fill_no_cuts, Hs.
    + apply QA_nested_fill_both, Hs.
  - intros k'. rewrite QA_pair_booked. apply H.
Qed.

End QAInvariants.

(** X3. After the cluster loop, the histogram of a pad holds exactly
    the charges that the all-cuts quality histograms of its sector
    received for that pad, in the same order. *)
Theorem pad_histograms_match_all_cuts `{ext : External} (cfg : Config)
    (updateGains : bool) (tpc : list TPCChamber) (trees : list ClusterTree)
    (st : Spectra) (t s r pad : N) (h : TH1D) :
  fill_spectra cfg updateGains tpc trees = Done st ->
  fSpectraHistograms st !! (t, s, r, pad) = Some h ->
  fills h = charges_of_pad (QA_pair st (t, s)).2 r pad
  /\ GetEntries h
     = Z.of_nat (length (filter (fun pr => pr = (pad, r))
                                (qa_padEntries (QA_pair st (t, s)).2))).
Proof.
  intros Hrun Hk.
  assert (pads_match_QA st) as Hm.
  { unfold fill_spectra in Hrun.
    eapply (for_each_invariant pads_match_QA); [| |exact Hrun].
    - intros tr s0 s1 Hs Hstep. eapply process_tree_pads_match; eassumption.
    - intros t1 s1. split; [reflexivity|]. simpl. intros r1 p1 h1 H1.
      rewrite create_histograms_pads, fold_add_fresh_lookup in H1.
      destruct (decide _); [|rewrite lookup_empty in H1; discriminate].
      injection H1 as <-. reflexivity. }
  destruct (Hm t s) as [Hlen Hpads].
  pose proof (Hpads r pad h Hk) as Hf. split; [exact Hf|].
  unfold GetEntries. rewrite Hf. unfold charges_of_pad. rewrite length_fmap.
  f_equal. clear -Hlen.
  revert Hlen. generalize (qa_padEntries (QA_pair st (t, s)).2).
  induction (qa_spectrum (QA_pair st (t, s)).2) as [|c cs IH];
    intros [|p ps] Hlen; try discriminate; [reflexivity|].
  simpl. rewrite !filter_cons. simpl.
  destruct (decide (p = (pad, r))); simpl; rewrite IH by (simpl in Hlen; lia);
    reflexivity.
Qed.

Lemma pad_histograms_match_all_cuts_witness :
  fills histFilled
  = charges_of_pad (QA_pair spectraA_filled (1%N, 2%N)).2 1 1.
Proof.
  destruct (pad_histograms_match_all_cuts cfgA false [chamber1; chamber7]
              treesA spectraA_filled 1 2 1 1 histFilled) as [H _].
  - vm_compute. reflexivity.
  - vm_compute. reflexivity.
  - exact H.
Defined.

(** X4. After the cluster loop, what the all-cuts quality histograms of
    a sector hold is part of what its no-cuts histograms hold, in the
    same order; so no all-cuts histogram has more entries than its
    no-cuts partner. *)
Theorem all_cuts_within_no_cuts `{ext : External} (cfg : Config)
    (updateGains : bool) (tpc : list TPCChamber) (trees : list ClusterTree)
    (st : Spectra) (k : SectorKey) :
  fill_spectra cfg updateGains tpc trees = Done st ->
  qa_padEntries (QA_pair st k).2 `sublist_of` qa_padEntries (QA_pair st k).1
  /\ qa_timeSlices (QA_pair st k).2 `sublist_of` qa_timeSlices (QA_pair st k).1
  /\ qa_nPadsVsNTimeSlices (QA_pair st k).2
     `sublist_of` qa_nPadsVsNTimeSlices (QA_pair st k).1
  /\ (length (qa_timeSlices (QA_pair st k).2)
      <= length (qa_timeSlices (QA_pair st k).1))%nat.
Proof.
  intros Hrun.
  assert (QA_nested st) as Hn.
  { unfold fill_spectra in Hrun.
    eapply (for_each_invariant QA_nested); [| |exact Hrun].
    - intros tr s0 s1 Hs Hstep. eapply process_tree_QA_nested; eassumption.
    - intros k'. unfold QA_pair. simpl. rewrite lookup_empty. simpl.
      repeat split; reflexivity. }
  destruct (Hn k) as (H1 & H2 & H3).
  repeat split; try assumption. apply sublist_length, H2.
Qed.

Lemma all_cuts_within_no_cuts_witness :
  qa_padEntries (QA_pair spectraA_filled (1%N, 2%N)).2
  `sublist_of` qa_padEntries (QA_pair spectraA_filled (1%N, 2%N)).1.
Proof.
  destruct (all_cuts_within_no_cuts cfgA false [chamber1; chamber7]
              treesA spectraA_filled (1%N, 2%N)) as [H _].
  - vm_compute. reflexivity.
  - exact H.
Defined.

(** ** Further properties of the second pass *)

(** The last bin of [1 .. m] with a property, if there is one. *)
Lemma last_bin_with (P : Z -> bool) (m : nat) :
  (forall b, (1 <= b <= Z.of_nat m)%Z -> P b = false)
  \/ exists b, (1 <= b <= Z.of_nat m)%Z /\ P b = true
               /\ forall b', (b < b' <= Z.of_nat m)%Z -> P b' = false.
Proof.
  induction m as [|m IH].
  - left. intros b Hb. lia.
  - destruct (P (Z.of_nat (S m))) eqn:E.
    + right. exists (Z.of_nat (S m)). split; [lia|]. split; [exact E|].
      intros b' Hb'. lia.
    + destruct IH as [IH|(b & Hb & HP & Hrest)].
      * left. intros b Hb.
        destruct (decide (b = Z.of_nat (S m))) as [->|Hne]; [exact E|].
        apply IH. lia.
      * right. exists b. split; [lia|]. split; [exact HP|].
        intros b' Hb'.
        destruct (decide (b' = Z.of_nat (S m))) as [->|Hne]; [exact E|].
        apply Hrest. lia.
Qed.

(** The first bin of [lo .. lo + n − 1] with a property, if there is one. *)
Lemma first_bin_with (P : Z -> bool) (lo : Z) (n : nat) :
  (forall b, (lo <= b < lo + Z.of_nat n)%Z -> P b = false)
  \/ exists b, (lo <= b < lo + Z.of_nat n)%Z /\ P b = true
               /\ forall b', (lo <= b' < b)%Z -> P b' = false.
Proof.
  induction n as [|n IH].
  - left. intros b Hb. lia.
  - destruct IH as [IH|(b & Hb & HP & Hrest)].
    + destruct (P (lo + Z.of_nat n)%Z) eqn:E.
      * right. exists (lo + Z.of_nat n)%Z. split; [lia|]. split; [exact E|].
        intros b' Hb'. apply IH. lia.
      * left. intros b Hb.
        destruct (decide (b = lo + Z.of_nat n)%Z) as [->|Hne]; [exact E|].
        apply IH. lia.
    + right. exists b. split; [lia|]. split; [exact HP|exact Hrest].
Qed.

(** The provisional peak bin is never below half of its own content. *)
Lemma peak_bin_not_below_half `{ext : External} (cfg : Config)
    (t s : N) (h : TH1D) :
  below_half h (find_peak cfg t s h) (maxBin (find_peak cfg t s h)) = false.
Proof.
  destruct (find_peak_found cfg t s h) as (Hpos & _ & _ & Hsome).
  unfold below_half. apply Z.ltb_ge.
  destruct (decide (0 < chargePeakValue (find_peak cfg t s h))%Z) as [Hv|Hv].
  - destruct (Hsome Hv) as (_ & _ & -> & _). lia.
  - pose proof (GetBinContent_nonneg h (maxBin (find_peak cfg t s h))). lia.
Qed.

(** X5. The two walks from the provisional peak: each bound of the
    Gaussian fit is either 0, when no bin on that side of the peak is
    below half of the peak value, or the centre of the nearest bin on
    that side that is; this bin is never the peak bin itself.  Without a
    provisional peak the fit range is from 0 to 0. *)
Theorem fit_window_around_peak `{ext : External} (cfg : Config)
    (t s : N) (h : TH1D) :
  let pk := find_peak cfg t s h in
  ((minChargeForFit h pk = 0
    /\ forall b, (1 <= b <= maxBin pk)%Z -> below_half h pk b = false)
   \/ exists b, (1 <= b < maxBin pk)%Z
                /\ minChargeForFit h pk = GetBinCenter (GetXaxis h) b
                /\ below_half h pk b = true
                /\ forall b', (b < b' <= maxBin pk)%Z -> below_half h pk b' = false)
  /\ ((maxChargeForFit h pk = 0
       /\ forall b, (maxBin pk <= b <= lastBin h)%Z -> below_half h pk b = false)
      \/ exists b, (maxBin pk < b <= lastBin h)%Z
                   /\ maxChargeForFit h pk = GetBinCenter (GetXaxis h) b
                   /\ below_half h pk b = true
                   /\ forall b', (maxBin pk <= b' < b)%Z ->
                                 below_half h pk b' = false)
  /\ (chargePeakValue pk = 0%Z ->
      tf1_xmin (gausFit h pk) = 0 /\ tf1_xmax (gausFit h pk) = 0).
Proof.
  intros pk.
  pose proof (peak_bin_not_below_half cfg t s h) as Hpeak. fold pk in Hpeak.
  split; [|split].
  - destruct (last_bin_with (below_half h pk) (Z.to_nat (maxBin pk)))
      as [Hnone|(b & Hb & HP & Hrest)].
    + left. split.
      * apply minChargeForFit_none. intros b Hb. apply Hnone. lia.
      * intros b Hb. apply Hnone. lia.
    + right. exists b.
      assert (b <> maxBin pk) by (intros ->; congruence).
      split; [lia|]. split; [|split; [exact HP|]].
      * apply minChargeForFit_first; [lia | exact HP|].
        intros b' Hb'. apply Hrest. lia.
      * intros b' Hb'. apply Hrest. lia.
  - destruct (first_bin_with (below_half h pk) (maxBin pk)
                (Z.to_nat (lastBin h - maxBin pk + 1)))
      as [Hnone|(b & Hb & HP & Hrest)].
    + left. split.
      * apply maxChargeForFit_none. intros b Hb. apply Hnone. lia.
      * intros b Hb. apply Hnone. lia.
    + right. exists b.
      assert (b <> maxBin pk) by (intros ->; congruence).
      split; [lia|]. split; [|split; [exact HP|exact Hrest]].
      apply maxChargeForFit_first; [lia | exact HP | exact Hrest].
  - intros Hv. simpl.
    assert (forall b, below_half h pk b = false) as Hall.
    { intros b. unfold below_half. apply Z.ltb_ge. rewrite Hv.
      pose proof (GetBinContent_nonneg h b). lia. }
    split.
    + apply minChargeForFit_none. intros b _. apply Hall.
    + apply maxChargeForFit_none. intros b _. apply Hall.
Qed.

Section OrderFacts.

Context {ext : External} (cfg : Config).

#[local] Arguments locate_pad : simpl never.

Lemma locate_pad_located (p : Peaks) (k : PadKey) (h : TH1D) :
  locate_pad cfg p (k, h)
  = match located_position cfg k h with
    | Some v => record_peak k v p
    | None => p
    end.
Proof.
  unfold locate_pad, located_position, enough_entries.
  destruct (_ <=? _)%Z; [|reflexivity].
  destruct (String.eqb _ "Gaussian"); [reflexivity|].
  destruct (String.eqb _ "Fermi"); reflexivity.
Qed.

Lemma fold_locate_positions (order : list (PadKey * TH1D)) (p : Peaks) (k : PadKey) :
  NoDup order.*1 ->
  spectrumADCs (fold_left (locate_pad cfg) order p) !! k
  = match list_to_map (M := gmap PadKey TH1D) order !! k with
    | Some h => match located_position cfg k h with
                | Some v => Some v
                | None => spectrumADCs p !! k
                end
    | None => spectrumADCs p !! k
    end.
Proof.
  revert p. induction order as [|[k' h'] order IH]; intros p Hnd; [reflexivity|].
  apply NoDup_cons in Hnd as [Hnotin Hnd]. simpl.
  rewrite IH by exact Hnd. rewrite locate_pad_located.
  destruct (decide (k' = k)) as [->|Hne].
  - rewrite lookup_insert_eq.
    rewrite (not_elem_of_list_to_map_1 (M := gmap PadKey) order k Hnotin).
    destruct (located_position cfg k h'); [|reflexivity].
    unfold record_peak. simpl. apply lookup_insert_eq.
  - rewrite lookup_insert_ne by exact Hne.
    assert (spectrumADCs
              match located_position cfg k' h' with
              | Some v => record_peak k' v p
              | None => p
              end !! k = spectrumADCs p !! k) as ->; [|reflexivity].
    destruct (located_position cfg k' h'); [|reflexivity].
    unfold record_peak. simpl. apply lookup_insert_ne, Hne.
Qed.

Lemma locate_all_lookup (m : gmap PadKey TH1D) (order : list (PadKey * TH1D))
    (k : PadKey) :
  order ≡ₚ map_to_list m ->
  spectrumADCs (locate_all cfg order) !! k
  = match m !! k with
    | Some h => located_position cfg k h
    | None => None
    end.
Proof.
  intros Hperm. unfold locate_all. rewrite fold_locate_positions.
  - simpl. rewrite lookup_empty.
    rewrite (list_to_map_proper (M := gmap PadKey) order (map_to_list m)).
    + rewrite list_to_map_to_list.
      destruct (m !! k) as [h|]; [|reflexivity].
      destruct (located_position cfg k h); reflexivity.
    + rewrite Hperm. apply NoDup_fst_map_to_list.
    + exact Hperm.
  - rewrite Hperm. apply NoDup_fst_map_to_list.
Qed.

End OrderFacts.

(** X6. The positions the second pass stores do not depend on the order
    in which the pad histograms are visited: whatever enumeration of the
    histograms is used, a pad has a stored position exactly when its
    histogram has enough entries and the fit function is one of the two
    known ones, and the position is the fitted parameter. *)
Theorem positions_independent_of_order `{ext : External} (cfg : Config)
    (m : gmap PadKey TH1D) (order : list (PadKey * TH1D)) :
  order ≡ₚ map_to_list m ->
  spectrumADCs (locate_all cfg order) = map_imap (located_position cfg) m.
Proof.
  intros Hperm. apply map_eq. intros k.
  unfold locate_all. rewrite fold_locate_positions.
  - simpl. rewrite lookup_empty, map_lookup_imap.
    rewrite (list_to_map_proper (M := gmap PadKey) order (map_to_list m)).
    + rewrite list_to_map_to_list.
      destruct (m !! k) as [h|]; simpl; [|reflexivity].
      destruct (located_position cfg k h); reflexivity.
    + rewrite Hperm. apply NoDup_fst_map_to_list.
    + exact Hperm.
  - rewrite Hperm. apply NoDup_fst_map_to_list.
Qed.

Lemma positions_independent_of_order_witness :
  spectrumADCs (locate_all cfgA spectrumOrder)
  = map_imap (located_position cfgA) spectrumMap.
Proof.
  apply (positions_independent_of_order cfgA spectrumMap spectrumOrder).
  vm_compute. first [reflexivity | apply perm_swap].
Defined.

(** ** Further properties of the gain table and the result tree *)

Lemma values_of_app (l k : list Token) :
  values_of (l ++ k) = values_of l ++ values_of k.
Proof. unfold values_of. apply omap_app. Qed.

Lemma values_of_flat_map {A} (f : A -> list Token) (l : list A) :
  values_of (flat_map f l) = flat_map (fun a => values_of (f a)) l.
Proof.
  induction l as [|a l IH]; simpl; [reflexivity|].
  rewrite values_of_app, IH. reflexivity.
Qed.

Lemma values_of_Values {A} (f : A -> string) (l : list A) :
  values_of (map (fun a => Value (f a)) l) = map f l.
Proof.
  unfold values_of. induction l as [|a l IH]; [reflexivity|].
  cbn. f_equal. exact IH.
Qed.

Lemma Forall2_flat_map {A B C} (P : B -> C -> Prop)
    (f : A -> list B) (g : A -> list C) (l : list A) :
  (forall a, Forall2 P (f a) (g a)) -> Forall2 P (flat_map f l) (flat_map g l).
Proof.
  intros H. induction l as [|a l IH]; simpl; [constructor|].
  apply Forall2_app; [apply H | exact IH].
Qed.

Lemma Forall2_map_same {A B C} (P : B -> C -> Prop) (f : A -> B) (g : A -> C)
    (l : list A) :
  (forall a, P (f a) (g a)) -> Forall2 P (map f l) (map g l).
Proof.
  intros H. induction l as [|a l IH]; simpl; constructor; [apply H | exact IH].
Qed.

Lemma map_flat_map {A B C} (f : B -> C) (g : A -> list B) (l : list A) :
  map f (flat_map g l) = flat_map (fun a => map f (g a)) l.
Proof.
  induction l as [|a l IH]; simpl; [reflexivity|].
  rewrite map_app, IH. reflexivity.
Qed.

Lemma sanitize_of_finite (g : float) : is_finite g = true -> sanitize g = g.
Proof.
  unfold is_finite, sanitize. intros H. apply negb_true_iff in H.
  rewrite H. reflexivity.
Qed.

Section TableTreeFacts.

Context {ext : External} (cfg : Config) (updateGains : bool) (p : Peaks).

Lemma values_of_padrow_block chamber sectorId sectorADC padrow :
  values_of (padrow_block cfg updateGains p chamber sectorId sectorADC padrow)
  = if decide (chamber_GetId chamber ∈ fTPCIdList cfg) then
      map (fun padId => ostream_double (table_value cfg
             (pad_gain updateGains p (chamber_GetId chamber) sectorId
                       sectorADC padrow padId)))
          (pad_ids (padrow_GetNPads padrow))
    else [].
Proof.
  unfold padrow_block, padrow_values. rewrite !values_of_app. simpl.
  rewrite app_nil_r. destruct (decide _); [|reflexivity].
  apply (values_of_Values
           (fun padId => ostream_double (table_value cfg
              (pad_gain updateGains p (chamber_GetId chamber) sectorId
                        sectorADC padrow padId)))).
Qed.

Lemma values_of_table_layout (tpc : list TPCChamber) :
  values_of (table_layout cfg updateGains p tpc)
  = flat_map (fun c =>
      flat_map (fun s =>
        flat_map (fun r =>
          values_of (padrow_block cfg updateGains p c (sector_GetId s)
                       (GetAverage (totalAccumulators p)
                                   (chamber_GetId c) (sector_GetId s)) r))
          (sector_Padrows s))
        (chamber_Sectors c)) tpc.
Proof.
  unfold table_layout. rewrite !values_of_app, values_of_flat_map. simpl.
  rewrite app_nil_r. apply flat_map_ext. intros c. unfold chamber_block.
  rewrite !values_of_app, values_of_flat_map. simpl. rewrite app_nil_r.
  apply flat_map_ext. intros s. unfold sector_block.
  rewrite !values_of_app, values_of_flat_map. simpl. rewrite app_nil_r.
  reflexivity.
Qed.

Lemma pad_value_and_row tpcId sectorId sectorADC padrow padId :
  let text := ostream_double (table_value cfg
                (pad_gain updateGains p tpcId sectorId sectorADC padrow padId)) in
  let row := pad_row updateGains p tpcId sectorId sectorADC padrow padId in
  text = ostream_double (-1) \/ text = ostream_double (row_Gain row).
Proof.
  simpl.
  destruct (table_value_cases cfg
              (pad_gain updateGains p tpcId sectorId sectorADC padrow padId))
    as [E|(E & _ & Hf)]; [left; rewrite E; reflexivity | right].
  rewrite E, (sanitize_of_finite _ Hf). reflexivity.
Qed.

Lemma row_keys_of_chamber (c : TPCChamber) :
  map row_key (chamber_rows cfg updateGains p c) = chamber_pads cfg c.
Proof.
  unfold chamber_pads. destruct (decide _) as [Hin|Hout].
  - unfold chamber_rows. rewrite map_flat_map. apply flat_map_ext. intros s.
    unfold sector_rows, sector_pads. rewrite map_flat_map.
    apply flat_map_ext. intros r. unfold padrow_rows, padrow_pads.
    destruct (decide _) as [_|H]; [|contradiction].
    rewrite map_map. reflexivity.
  - destruct (chamber_block_uncalibrated cfg updateGains p c Hout) as [_ ->].
    reflexivity.
Qed.

Lemma row_keys_of_table (tpc : list TPCChamber) :
  map row_key (flat_map (chamber_rows cfg updateGains p) tpc)
  = calibrated_pads cfg tpc.
Proof.
  unfold calibrated_pads. rewrite map_flat_map. apply flat_map_ext.
  intros c. apply row_keys_of_chamber.
Qed.

Lemma row_positions (tpc : list TPCChamber) :
  Forall (fun row => row_SpectrumADC row = padADC_of p (row_key row))
         (flat_map (chamber_rows cfg updateGains p) tpc).
Proof.
  apply Forall_flat_map. intros c. unfold chamber_rows.
  apply Forall_flat_map. intros s. unfold sector_rows.
  apply Forall_flat_map. intros r. unfold padrow_rows.
  destruct (decide _); [|constructor].
  apply Forall_map, Forall_forall. intros padId _. reflexivity.
Qed.

End TableTreeFacts.

(** X7. The gain table and the result tree describe the same pads: the
    tree has one row for every pad of the calibrated chambers, in
    detector order; the table has one value per row, in the same order;
    and every value is the text that the stream makes of −1 or of the
    gain of its row.  The gain of a row is always a finite number, and
    its position is the stored one (0 for a pad that was not fitted). *)
Theorem table_and_tree_agree `{ext : External} (cfg : Config)
    (updateGains : bool) (p : Peaks) (tpc : list TPCChamber) :
  map row_key (fResultTree (emit_table cfg updateGains p tpc))
  = calibrated_pads cfg tpc
  /\ Forall2 (fun text row => text = ostream_double (-1)
                              \/ text = ostream_double (row_Gain row))
             (values_of (gainsFileStream (emit_table cfg updateGains p tpc)))
             (fResultTree (emit_table cfg updateGains p tpc))
  /\ Forall (fun row => is_finite (row_Gain row) = true
                        /\ row_SpectrumADC row = padADC_of p (row_key row))
            (fResultTree (emit_table cfg updateGains p tpc)).
Proof.
  rewrite emit_table_layout. cbn [gainsFileStream fResultTree]. split; [|split].
  - unfold calibrated_pads. rewrite map_flat_map. apply flat_map_ext.
    intros c. apply row_keys_of_chamber.
  - rewrite values_of_table_layout.
    apply Forall2_flat_map. intros c. unfold chamber_rows.
    apply Forall2_flat_map. intros s. unfold sector_rows.
    apply Forall2_flat_map. intros r.
    rewrite values_of_padrow_block. unfold padrow_rows.
    destruct (decide _); [|constructor].
    apply Forall2_map_same. intros padId. apply pad_value_and_row.
  - apply Forall_flat_map. intros c. unfold chamber_rows.
    apply Forall_flat_map. intros s. unfold sector_rows.
    apply Forall_flat_map. intros r. unfold padrow_rows.
    destruct (decide _); [|constructor].
    apply Forall_map, Forall_forall. intros padId _. simpl.
    split; [apply sanitize_finite | reflexivity].
Qed.

(** The table holds a gain with six significant digits, the tree holds
    the double: for a sector average of 100, a pad position of 150 is
    written as 0.666667, and a pad position of 50.00001, whose gain is
    below the upper bound 2, is written as 2. *)
Example table_text_of_a_gain :
  emit_pad cfgA false (peaksAt 150) chamber1 2 100 padrowA no_output 1
  = {| gainsFileStream := [Value "0.666667"];
       fResultTree := [{| row_TPCId := 1; row_SectorId := 2; row_PadrowId := 1;
                          row_PadId := 1; row_SpectrumADC := 150;
                          row_Gain := 100 / 150 |}] |}
  /\ emit_pad cfgA false (peaksAt 50.00001) chamber1 2 100 padrowA no_output 1
     = {| gainsFileStream := [Value "2"];
          fResultTree := [{| row_TPCId := 1; row_SectorId := 2; row_PadrowId := 1;
                             row_PadId := 1; row_SpectrumADC := 50.00001;
                             row_Gain := 100 / 50.00001 |}] |}
  /\ (100 / 50.00001 <? fMaxAcceptableGain cfgA) = true.
Proof. vm_compute. repeat split. Qed.

(** Division by a zero of either sign, or by NaN, gives NaN or an
    infinity. *)
Lemma div_by_zero_or_nan (x y : float) :
  (y =? 0) = true \/ is_nan y = true ->
  (is_nan (x / y) || is_infinity (x / y))%bool = true.
Proof.
  intros H. apply orb_true_iff.
  rewrite Double.is_nan_SF, Double.is_infinity_SF, FloatAxioms.div_spec.
  unfold SF64div, SFdiv. destruct H as [H|H].
  - rewrite FloatAxioms.eqb_spec, Double.SF_zero in H. unfold SFeqb, SFcompare in H.
    destruct (Prim2SF y) as [sy| sy| |sy my ey]; try destruct sy; try discriminate;
      destruct (Prim2SF x) as [sx| sx| |sx mx ex];
      first [left; reflexivity | right; eexists; reflexivity].
  - apply Double.is_nan_SF in H. rewrite H. left.
    destruct (Prim2SF x); reflexivity.
Qed.

(** X8. A pad whose stored position is zero (of either sign) or NaN
    gets −1 in the gain table and gain 0 in the result tree, whatever
    the sector average, the previous gain and the acceptable bounds
    are. *)
Theorem unusable_position `{ext : External} (cfg : Config)
    (updateGains : bool) (p : Peaks) (chamber : TPCChamber) (sectorId : N)
    (sectorADC : float) (padrow : TPCPadrow) (out : Output) (padId : N)
    (padPeak : float) :
  chamber_GetId chamber ∈ fTPCIdList cfg ->
  spectrumADCs p !! (chamber_GetId chamber, sectorId, padrow_GetId padrow, padId)
    = Some padPeak ->
  (padPeak =? 0) = true \/ is_nan padPeak = true ->
  emit_pad cfg updateGains p chamber sectorId sectorADC padrow out padId
  = extend out
      [Value (ostream_double (-1))]
      [{| row_TPCId := chamber_GetId chamber; row_SectorId := sectorId;
          row_PadrowId := padrow_GetId padrow; row_PadId := padId;
          row_SpectrumADC := padPeak; row_Gain := 0 |}].
Proof.
  intros Hin Hk Hbad. rewrite emit_pad_extend.
  destruct (decide _) as [_|H]; [|contradiction].
  unfold pad_row, pad_gain, padADC_of. rewrite Hk. simpl.
  assert ((is_nan (computeGain updateGains (padrow_GetPadGain padrow padId)
                               sectorADC padPeak)
           || is_infinity (computeGain updateGains (padrow_GetPadGain padrow padId)
                                       sectorADC padPeak))%bool = true) as Hg.
  { unfold computeGain. destruct updateGains; apply div_by_zero_or_nan, Hbad. }
  rewrite (table_value_nan_or_inf cfg _ Hg).
  unfold sanitize. rewrite Hg. reflexivity.
Qed.

Lemma unusable_position_witness :
  emit_pad cfgA false peaksZero chamber1 2 100 padrowA no_output 1
  = extend no_output
      [Value "-1"]
      [{| row_TPCId := 1; row_SectorId := 2; row_PadrowId := 1; row_PadId := 1;
          row_SpectrumADC := 0; row_Gain := 0 |}].
Proof.
  rewrite (unusable_position cfgA false peaksZero chamber1 2 100 padrowA
             no_output 1 0).
  - vm_compute. reflexivity.
  - vm_compute. reflexivity.
  - vm_compute. reflexivity.
  - left. reflexivity.
Defined.

(** ** The padrow colours *)

Lemma fold_colors_lookup (color : Z) (n : nat) (padrow : Z) :
  fold_left (fun m i => <[(i + 1)%Z := (color + i)%Z]> m)
            (seqZ 0 (Z.of_nat n)) (∅ : gmap Z Z) !! padrow
  = if decide (1 <= padrow <= Z.of_nat n)%Z then Some (color + padrow - 1)%Z
    else None.
Proof.
  revert padrow. induction n as [|n IH]; intros padrow.
  - simpl. rewrite lookup_empty. destruct (decide _); [exfalso; lia | reflexivity].
  - rewrite seqZ_S, fold_left_app. cbn [fold_left].
    replace (Z.of_nat (S n)) with (Z.of_nat n + 1)%Z by lia.
    replace (0 + Z.of_nat n)%Z with (Z.of_nat n) by lia.
    destruct (decide (padrow = Z.of_nat n + 1)%Z) as [->|Hne].
    + rewrite lookup_insert_eq.
      destruct (decide _) as [Hd|Hd]; [f_equal; lia | exfalso; lia].
    + rewrite lookup_insert_ne by lia. rewrite IH.
      repeat case_decide; try reflexivity; exfalso; lia.
Qed.

(** X9. The colour map of a sector with [maxPadrows] padrows has
    exactly the keys 1 to [maxPadrows]; padrow [i] gets the colour
    [color + i − 1], so different padrows get different colours, and the
    map is empty when [maxPadrows] is not positive. *)
Theorem padrow_colors (color maxPadrows padrow : Z) :
  GetPadrowColorMap color maxPadrows !! padrow
  = (if decide (1 <= padrow <= maxPadrows)%Z then Some (color + padrow - 1)%Z
     else None)
  /\ (forall padrow' c,
        GetPadrowColorMap color maxPadrows !! padrow = Some c ->
        GetPadrowColorMap color maxPadrows !! padrow' = Some c ->
        padrow = padrow')
  /\ ((maxPadrows <= 0)%Z -> GetPadrowColorMap color maxPadrows = ∅).
Proof.
  assert (forall q, GetPadrowColorMap color maxPadrows !! q
                    = if decide (1 <= q <= maxPadrows)%Z
                      then Some (color + q - 1)%Z else None) as Hlookup.
  { intros q. unfold GetPadrowColorMap.
    destruct (decide (0 <= maxPadrows)%Z) as [Hn|Hn].
    - rewrite <- (Z2Nat.id maxPadrows) at 1 by exact Hn.
      rewrite fold_colors_lookup. rewrite Z2Nat.id by exact Hn. reflexivity.
    - rewrite seqZ_nil by lia. simpl. rewrite lookup_empty.
      destruct (decide _); [exfalso; lia | reflexivity]. }
  split; [apply Hlookup|]. split.
  - intros padrow' c. rewrite !Hlookup.
    repeat case_decide; intros [= <-] [= Heq]; lia.
  - intros Hn. apply map_eq. intros q. rewrite Hlookup, lookup_empty.
    destruct (decide _); [exfalso; lia | reflexivity].
Qed.

(** ** The command line *)

Lemma no_dash_not_flag (v : string) :
  starts_with_dash v = false ->
  v <> "-h" /\ v <> "--help" /\ v <> "-u" /\ v <> "--updateGains" /\ v <> "-o".
Proof.
  intros H. repeat split; intros ->; discriminate H.
Qed.

Lemma check_options_accepted (o o' : Options) :
  check_options o = Accepted o' ->
  o' = o /\ filenamesVector o <> [] /\ outputPrefix o <> EmptyString.
Proof.
  unfold check_options. destruct (filenamesVector o) eqn:Ef; [discriminate|].
  destruct (outputPrefix o) eqn:Ep; [discriminate|].
  intros [= <-]. repeat split; discriminate.
Qed.

(** What an accepted command line looks like, from any options read so
    far that hold no input file yet. *)
Lemma parse_arguments_accepted (n : nat) :
  forall (args : list string) (o0 o : Options),
    (length args <= n)%nat ->
    filenamesVector o0 = [] ->
    parse_arguments args o0 = Accepted o ->
    exists pre flag,
      args = pre ++ flag :: filenamesVector o
      /\ (flag = "-i" \/ flag = "--inputFiles")
      /\ filenamesVector o <> []
      /\ outputPrefix o <> EmptyString
      /\ (outputPrefix o = outputPrefix o0
          \/ exists p : string, outputPrefix o = (p ++ "-KryptonAnalysis")%string
                                /\ p ∈ pre /\ "-o" ∈ pre)
      /\ (opt_updateGains o = true
          <-> opt_updateGains o0 = true \/ "-u" ∈ pre \/ "--updateGains" ∈ pre)
      /\ ("-h" ∉ pre) /\ ("--help" ∉ pre).
Proof.
  induction n as [|n IH]; intros args o0 o Hlen Hnil Hrun.
  - destruct args; [|simpl in Hlen; lia].
    simpl in Hrun. apply check_options_accepted in Hrun as (_ & Hf & _).
    contradiction.
  - destruct args as [|it rest].
    { simpl in Hrun. apply check_options_accepted in Hrun as (_ & Hf & _).
      contradiction. }
    simpl in Hrun, Hlen.
    destruct (String.eqb_spec it "-h") as [->|Nh]; [discriminate|].
    destruct (String.eqb_spec it "--help") as [->|Nhelp]; [discriminate|].
    simpl in Hrun.
    destruct (String.eqb_spec it "-o") as [->|No].
    { destruct rest as [|v rest']; [discriminate|].
      destruct (starts_with_dash v) eqn:Hv; [discriminate|].
      apply no_dash_not_flag in Hv as (V1 & V2 & V3 & V4 & V5).
      apply IH in Hrun as (pre & flag & -> & Hflag & Hf & Hp & Hpre & Hu & H1 & H2);
        [|simpl in Hlen |- *; lia | exact Hnil].
      exists ("-o" :: v :: pre), flag. simpl in *.
      split; [reflexivity|]. split; [exact Hflag|]. split; [exact Hf|].
      split; [exact Hp|]. split; [|split; [|split]].
      - right. destruct Hpre as [Hpre|(p & Hpre & Hin & Ho)].
        + exists v. split; [exact Hpre|]. split; [right; left | left].
        + exists p. split; [exact Hpre|]. split; [right; right; exact Hin | left].
      - rewrite Hu, !elem_of_cons. intuition congruence.
      - rewrite !elem_of_cons. intuition congruence.
      - rewrite !elem_of_cons. intuition congruence. }
    destruct (String.eqb_spec it "-c") as [->|Nc];
      [|destruct (String.eqb_spec it "--config") as [->|Nconfig]].
    1,2: destruct rest as [|v rest']; [discriminate|];
         simpl in Hrun;
         destruct (starts_with_dash v) eqn:Hv; [discriminate|];
         apply no_dash_not_flag in Hv as (V1 & V2 & V3 & V4 & V5);
         apply IH in Hrun
           as (pre & flag & -> & Hflag & Hf & Hp & Hpre & Hu & H1 & H2);
         [|simpl in Hlen |- *; lia | exact Hnil];
         eexists (_ :: v :: pre), flag; simpl in *;
         (split; [reflexivity|]); (split; [exact Hflag|]); (split; [exact Hf|]);
         (split; [exact Hp|]); (split; [|split; [|split]]);
         [ destruct Hpre as [Hpre|(p & Hpre & Hin & Ho)];
           [left; exact Hpre
           |right; exists p; split; [exact Hpre|];
            split; right; right; assumption]
         | rewrite Hu, !elem_of_cons; intuition congruence
         | rewrite !elem_of_cons; intuition congruence
         | rewrite !elem_of_cons; intuition congruence ].
    simpl in Hrun.
    destruct (String.eqb_spec it "-u") as [->|Nu];
      [|destruct (String.eqb_spec it "--updateGains") as [->|Nupdate]].
    1,2: destruct rest as [|v rest']; [discriminate|];
         simpl in Hrun;
         destruct (starts_with_dash v) eqn:Hv; [discriminate|];
         apply no_dash_not_flag in Hv as (V1 & V2 & V3 & V4 & V5);
         apply IH in Hrun
           as (pre & flag & -> & Hflag & Hf & Hp & Hpre & Hu & H1 & H2);
         [|simpl in Hlen |- *; lia | exact Hnil];
         eexists (_ :: v :: pre), flag; simpl in *;
         (split; [reflexivity|]); (split; [exact Hflag|]); (split; [exact Hf|]);
         (split; [exact Hp|]); (split; [|split; [|split]]);
         [ destruct Hpre as [Hpre|(p & Hpre & Hin & Ho)];
           [left; exact Hpre
           |right; exists p; split; [exact Hpre|];
            split; right; right; assumption]
         | rewrite Hu, !elem_of_cons; intuition congruence
         | rewrite !elem_of_cons; intuition congruence
         | rewrite !elem_of_cons; intuition congruence ].
    simpl in Hrun.
    assert (it = "-i" \/ it = "--inputFiles") as Hflag.
    { destruct (String.eqb_spec it "-i") as [->|Ni]; [left; reflexivity|].
      destruct (String.eqb_spec it "--inputFiles") as [->|Ninput];
        [right; reflexivity | discriminate]. }
    assert ((String.eqb it "-i" || String.eqb it "--inputFiles")%bool = true) as E
      by (destruct Hflag as [->| ->]; reflexivity).
    rewrite E in Hrun.
    apply check_options_accepted in Hrun as (-> & Hf & Hp). simpl in *.
    exists [], it. simpl. split; [reflexivity|]. split; [exact Hflag|].
    split; [exact Hf|]. split; [exact Hp|]. split; [left; reflexivity|].
    split; [|split; apply not_elem_of_nil].
    split; [intros H; left; exact H|].
    intros [H|[H|H]]; [exact H | | ]; apply elem_of_nil in H; contradiction.
Qed.

(** X10. An accepted command line ends with [-i] (or [--inputFiles])
    followed by at least one input file, and everything after it is
    taken as a file name as it stands.  Before it there is an [-o]
    with a value that, with "-KryptonAnalysis" appended, is the output
    prefix; gains are updated exactly when [-u] (or [--updateGains])
    occurs before it; and no [-h] or [--help] occurs before it. *)
Theorem accepted_command_line (args : list string) (o : Options) :
  command_line args = Accepted o ->
  exists pre flag,
    args = pre ++ flag :: filenamesVector o
    /\ (flag = "-i" \/ flag = "--inputFiles")
    /\ filenamesVector o <> []
    /\ (exists p : string,
          outputPrefix o = (p ++ "-KryptonAnalysis")%string /\ p ∈ pre /\ "-o" ∈ pre)
    /\ (opt_updateGains o = true <-> "-u" ∈ pre \/ "--updateGains" ∈ pre)
    /\ ("-h" ∉ pre) /\ ("--help" ∉ pre).
Proof.
  intros Hrun. unfold command_line in Hrun.
  apply (parse_arguments_accepted (length args)) in Hrun
    as (pre & flag & Hargs & Hflag & Hf & Hp & Hpre & Hu & H1 & H2);
    [|lia | reflexivity].
  exists pre, flag. split; [exact Hargs|]. split; [exact Hflag|].
  split; [exact Hf|]. split; [|split; [|split; assumption]].
  - destruct Hpre as [Hpre|Hpre]; [simpl in Hpre; contradiction | exact Hpre].
  - rewrite Hu. simpl. intuition discriminate.
Qed.

Lemma accepted_command_line_witness :
  exists pre flag,
    ["-o"; "out"; "-u"; "gains.root"; "-i"; "a.root"; "b.root"]
    = pre ++ flag :: ["a.root"; "b.root"]
    /\ (flag = "-i" \/ flag = "--inputFiles").
Proof.
  destruct (accepted_command_line
              ["-o"; "out"; "-u"; "gains.root"; "-i"; "a.root"; "b.root"]
              optionsA) as (pre & flag & H1 & H2 & _).
  - vm_compute. reflexivity.
  - exists pre, flag. split; [exact H1 | exact H2].
Defined.

(** X11. The documented call is read back as written: for an output
    prefix, a configuration file and a gains file that do not start
    with a dash and at least one input file, the options are exactly
    these values, with "-KryptonAnalysis" appended to the prefix and
    gains updated; without [-c] and [-u] the configuration file is
    "Config.txt" and gains are not updated. *)
Theorem documented_command_line (p c g : string) (files : list string) :
  starts_with_dash p = false ->
  starts_with_dash c = false ->
  starts_with_dash g = false ->
  files <> [] ->
  command_line (["-o"; p; "-c"; c; "-u"; g; "-i"] ++ files)
  = Accepted {| configFilename := c;
                outputPrefix := p ++ "-KryptonAnalysis";
                previousGainsFilename := g;
                opt_updateGains := true;
                filenamesVector := files |}
  /\ command_line (["-o"; p; "-i"] ++ files)
     = Accepted {| configFilename := "Config.txt";
                   outputPrefix := p ++ "-KryptonAnalysis";
                   previousGainsFilename := EmptyString;
                   opt_updateGains := false;
                   filenamesVector := files |}.
Proof.
  intros Hp Hc Hg Hfiles. unfold command_line. simpl.
  rewrite Hp, Hc, Hg. simpl. unfold check_options. simpl.
  destruct files as [|f files]; [contradiction|].
  destruct p; split; reflexivity.
Qed.

Lemma documented_command_line_witness :
  command_line (["-o"; "out"; "-c"; "Config.txt"; "-u"; "gains.root"; "-i"]
                ++ ["a.root"; "b.root"])
  = Accepted {| configFilename := "Config.txt";
                outputPrefix := "out" ++ "-KryptonAnalysis";
                previousGainsFilename := "gains.root";
                opt_updateGains := true;
                filenamesVector := ["a.root"; "b.root"] |}.
Proof.
  destruct (documented_command_line "out" "Config.txt" "gains.root"
              ["a.root"; "b.root"]) as [H _].
  - reflexivity.
  - reflexivity.
  - reflexivity.
  - discriminate.
  - exact H.
Defined.

(** ** Further properties of the cluster loop and the peak search *)

(** X12. When gains are updated, the charge of a cluster that passes
    the cuts is multiplied by the previous gain of its pad, and narrowed
    to single precision, before it is filled into the histogram of the
    pad and the all-cuts histograms of the sector; the no-cuts
    histograms hold the charge as read. *)
Theorem update_mode_scales_charge `{ext : External} (cfg : Config)
    (tpcId sectorId : N) (sector : TPCSector) (e : Cluster) (st : Spectra)
    (detPadrow : TPCPadrow) (h : TH1D) :
  skipped cfg e = false ->
  sector_GetPadrow sector (fPadrow e) = Some detPadrow ->
  fSpectraHistograms st !! (tpcId, sectorId, fPadrow e, fPad e) = Some h ->
  let scaled := to_float32 (fCharge e * padrow_GetPadGain detPadrow (fPad e)) in
  exists st',
    process_entry cfg true tpcId sectorId sector e st = Done st'
    /\ (fills <$> fSpectraHistograms st' !! (tpcId, sectorId, fPadrow e, fPad e))
       = Some (fills h ++ [scaled])
    /\ qa_spectrum (QA_pair st' (tpcId, sectorId)).2
       = qa_spectrum (QA_pair st (tpcId, sectorId)).2 ++ [scaled]
    /\ qa_chargeVsMaxADC (QA_pair st' (tpcId, sectorId)).2
       = qa_chargeVsMaxADC (QA_pair st (tpcId, sectorId)).2 ++ [(scaled, fMaxADC e)]
    /\ qa_spectrum (QA_pair st' (tpcId, sectorId)).1
       = qa_spectrum (QA_pair st (tpcId, sectorId)).1 ++ [fCharge e].
Proof.
  intros Hs Hrow Hh scaled.
  rewrite (process_entry_kept cfg true tpcId sectorId sector e st Hs).
  unfold filled_charge. rewrite Hrow. simpl. rewrite Hh.
  eexists. split; [reflexivity|].
  rewrite fill_all_cuts_pads, fill_all_cuts_QA, fill_no_cuts_QA. simpl.
  rewrite lookup_insert_eq. simpl. repeat split; reflexivity.
Qed.

Lemma update_mode_scales_charge_witness :
  exists st',
    process_entry cfgA true 1 2 sectorA (cluster 2.5 3 1) spectraA = Done st'
    /\ (fills <$> fSpectraHistograms st' !! (1%N, 2%N, 1%N, 1%N))
       = Some [to_float32 (2.5 * 2)].
Proof.
  destruct (update_mode_scales_charge cfgA 1 2 sectorA (cluster 2.5 3 1)
              spectraA padrowA histFresh) as (st' & H1 & H2 & _).
  - vm_compute. reflexivity.
  - vm_compute. reflexivity.
  - vm_compute. reflexivity.
  - exists st'. split; [exact H1 | exact H2].
Defined.

(** X13. The search finds no provisional peak exactly when every bin it
    visits whose centre is not below the search bound is empty; it then
    ends as it started, with bin 0, position 0 and value 0, and the
    sigmoid fit starts at 0 with its amplitude fixed to 0. *)
Theorem no_provisional_peak `{ext : External} (cfg : Config)
    (t s : N) (h : TH1D) :
  ((forall i, (0 <= i < lastBin h)%Z -> eligible cfg t s h i ->
              GetBinContent h i = 0%Z)
   <-> chargePeakValue (find_peak cfg t s h) = 0%Z)
  /\ (chargePeakValue (find_peak cfg t s h) = 0%Z ->
      find_peak cfg t s h = no_peak
      /\ tf1_xmin (fermiFit h (find_peak cfg t s h)) = 0
      /\ tf1_fixed (fermiFit h (find_peak cfg t s h)) = [(0%nat, 0)]).
Proof.
  destruct (find_peak_found cfg t s h) as (Hpos & Hmax & Hnone & Hsome).
  split; [split|].
  - intros Hempty.
    destruct (decide (0 < chargePeakValue (find_peak cfg t s h))%Z) as [Hv|Hv];
      [|lia].
    destruct (Hsome Hv) as (Hb & Hel & Hc & _).
    rewrite (Hempty _ Hb Hel) in Hc. lia.
  - intros Hv i Hi Hel. specialize (Hmax i Hi Hel).
    pose proof (GetBinContent_nonneg h i). lia.
  - intros Hv. rewrite (Hnone Hv). repeat split; reflexivity.
Qed.

(** ** Replacing the pad gain path *)

(** A string that has [t] at position [n] is what precedes, [t], and
    what follows. *)
Lemma substring_split (s t : string) (n : nat) :
  String.substring n (String.length t) s = t ->
  s = (String.substring 0 n s ++ t ++ string_drop (n + String.length t) s)%string.
Proof.
  revert s. induction n as [|n IH]; intros s Ht.
  - revert s Ht. induction t as [|c t IHt]; intros s Ht.
    + destruct s; reflexivity.
    + destruct s as [|c' s]; [discriminate|].
      injection Ht as -> Ht. specialize (IHt s Ht).
      change (String c s = String c (t ++ string_drop (String.length t) s)%string).
      f_equal. destruct s; exact IHt.
  - destruct s as [|c s].
    + change (EmptyString = t) in Ht. subst t. reflexivity.
    + change (String c s
              = String c (String.substring 0 n s ++ t
                          ++ string_drop (n + String.length t) s)%string).
      f_equal. apply IH, Ht.
Qed.

Lemma substring_prefix_length (s t : string) (n : nat) :
  String.substring n (String.length t) s = t -> t <> EmptyString ->
  String.length (String.substring 0 n s) = n.
Proof.
  revert s. induction n as [|n IH]; intros s Ht Hne.
  - destruct s; reflexivity.
  - destruct s as [|c s]; simpl in Ht.
    + congruence.
    + simpl. f_equal. apply IH; assumption.
Qed.

(** X14. [ReplacePadGainPath] keeps the number of lines and works line
    by line: a line that does not contain the default pad gain path is
    copied as it is; in a line that contains it, the first occurrence,
    and only this one, is replaced by the new path. *)
Theorem pad_gain_path_replaced (newPadGainXML : string) (lines : list string) :
  length (ReplacePadGainPath newPadGainXML lines) = length lines
  /\ forall i line,
       lines !! i = Some line ->
       exists line',
         ReplacePadGainPath newPadGainXML lines !! i = Some line'
         /\ ((String.index 0 defaultPadGainXML line = None /\ line' = line)
             \/ exists before after : string,
                  line = (before ++ defaultPadGainXML ++ after)%string
                  /\ line' = (before ++ newPadGainXML ++ after)%string
                  /\ String.index 0 defaultPadGainXML line
                     = Some (String.length before)
                  /\ forall n, (n < String.length before)%nat ->
                       String.substring n (String.length defaultPadGainXML) line
                       <> defaultPadGainXML).
Proof.
  unfold ReplacePadGainPath. split; [apply length_map|].
  intros i line Hi. exists (replace_in_line newPadGainXML line).
  split; [rewrite list_lookup_fmap, Hi; reflexivity|].
  unfold replace_in_line.
  destruct (String.index 0 defaultPadGainXML line) as [pos|] eqn:E.
  - right.
    pose proof (String.index_correct1 _ _ _ _ E) as Hat.
    pose proof (substring_prefix_length _ _ _ Hat ltac:(discriminate)) as Hlen.
    exists (String.substring 0 pos line),
           (string_drop (pos + String.length defaultPadGainXML) line).
    split; [apply substring_split, Hat|]. split; [reflexivity|].
    rewrite Hlen. split; [reflexivity|].
    intros n Hn. apply (String.index_correct2 _ _ _ _ E); lia.
  - left. split; reflexivity.
Qed.

(** ** The keywords of the configuration file *)

Lemma found_nil (word : string) :
  found word EmptyString = match word with EmptyString => true | _ => false end.
Proof. destruct word; reflexivity. Qed.

Lemma found_cons (word : string) (c : Ascii.ascii) (s : string) :
  found word (String c s) = (String.prefix word (String c s) || found word s)%bool.
Proof.
  unfold found.
  change (String.index 0 word (String c s))
    with (if String.prefix word (String c s) then Some 0%nat
          else match String.index 0 word s with
               | Some n => Some (S n)
               | None => None
               end).
  destruct (String.prefix word (String c s)); [reflexivity|].
  destruct (String.index 0 word s); reflexivity.
Qed.

(** A word without a blank is not a prefix across a blank. *)
Lemma prefix_before_blank (word x v : string) :
  no_blank word = true ->
  String.prefix word (x ++ String Ascii.Space v) = String.prefix word x.
Proof.
  revert x. induction word as [|a word IH]; intros x Hw.
  - destruct x; reflexivity.
  - simpl in Hw. apply andb_true_iff in Hw as [Ha Hw].
    destruct x as [|b x].
    + change (String.prefix (String a word) (String Ascii.Space v) = false).
      simpl. destruct (Ascii.ascii_dec a Ascii.Space) as [->|_]; [discriminate | reflexivity].
    + change (String.prefix (String a word) (String b (x ++ String Ascii.Space v))
              = String.prefix (String a word) (String b x)).
      simpl. destruct (Ascii.ascii_dec a b); [apply IH, Hw | reflexivity].
Qed.

(** A word without a blank occurs in [x v] only inside [x] or inside [v]. *)
Lemma found_around_blank (word x v : string) :
  word <> EmptyString -> no_blank word = true ->
  found word (x ++ String Ascii.Space v) = (found word x || found word v)%bool.
Proof.
  intros Hne Hw. induction x as [|b x IH].
  - change (found word (String Ascii.Space v) = (found word EmptyString || found word v)%bool).
    rewrite found_cons, found_nil.
    destruct word as [|a word]; [contradiction|].
    simpl in Hw. apply andb_true_iff in Hw as [Ha _].
    simpl. destruct (Ascii.ascii_dec a Ascii.Space) as [->|_]; [discriminate | reflexivity].
  - change (found word (String b (x ++ String Ascii.Space v))
            = (found word (String b x) || found word v)%bool).
    rewrite !found_cons, IH.
    change (String b (x ++ String Ascii.Space v)) with (String b x ++ String Ascii.Space v)%string.
    rewrite prefix_before_blank by exact Hw.
    rewrite orb_assoc. reflexivity.
Qed.

(** A word that starts with a character no numeric value has does not
    occur in a numeric value. *)
Lemma word_not_in_numeric (a : Ascii.ascii) (word v : string) :
  found (String a EmptyString) "0123456789.+-eE" = false ->
  numeric v = true -> found (String a word) v = false.
Proof.
  intros Ha. induction v as [|c v IH]; intros Hv; [reflexivity|].
  simpl in Hv. apply andb_true_iff in Hv as [Hc Hv].
  rewrite found_cons, (IH Hv), orb_false_r.
  simpl. destruct (Ascii.ascii_dec a c) as [->|_]; [congruence | reflexivity].
Qed.

Lemma word_in_line (a : Ascii.ascii) (word x v : string) :
  found (String a EmptyString) "0123456789.+-eE" = false ->
  no_blank (String a word) = true ->
  numeric v = true ->
  found (String a word) (x ++ String Ascii.Space v) = found (String a word) x.
Proof.
  intros Ha Hw Hv. rewrite found_around_blank by (discriminate || exact Hw).
  rewrite (word_not_in_numeric a word v Ha Hv), orb_false_r. reflexivity.
Qed.

Lemma keyword_in_line (k k' : ConfigKey) (v : string) :
  numeric v = true ->
  found (keyword k') (keyword k ++ String Ascii.Space v) = found (keyword k') (keyword k).
Proof.
  intros Hv. destruct k'; apply word_in_line; (reflexivity || exact Hv).
Qed.

(** What the tests of [ParseConfigFile] find in a line of the form
    keyword, blank, numeric value. *)
Lemma keyword_line_tests (k : ConfigKey) (v : string) :
  numeric v = true ->
  let line := (keyword k ++ String Ascii.Space v)%string in
  ignored line = false
  /\ found "tpcList" line = false
  /\ found "tpcListEnd" line = false
  /\ config_branch line = Some k.
Proof.
  intros Hv line. subst line. split; [destruct k; reflexivity|]. split.
  { rewrite word_in_line by (reflexivity || exact Hv). destruct k; reflexivity. }
  split.
  { rewrite word_in_line by (reflexivity || exact Hv). destruct k; reflexivity. }
  unfold config_branch.
  change "fitFunction" with (keyword key_fitFunction).
  change "minAcceptableGain" with (keyword key_minAcceptableGain).
  change "maxAcceptableGain" with (keyword key_maxAcceptableGain).
  change "minADCPeakSearch" with (keyword key_minADCPeakSearch).
  change "vtpc1UpstreamSectorsMinADCPeakSearch"
    with (keyword key_vtpc1UpstreamSectorsMinADCPeakSearch).
  change "minHistogramEntries" with (keyword key_minHistogramEntries).
  change "histogramBins" with (keyword key_histogramBins).
  change "histogramPadding" with (keyword key_histogramPadding).
  change "minPads" with (keyword key_minPads).
  change "maxPads" with (keyword key_maxPads).
  change "minTimeSliceNumber" with (keyword key_minTimeSliceNumber).
  change "minTimeSlices" with (keyword key_minTimeSlices).
  change "maxTimeSlices" with (keyword key_maxTimeSlices).
  change "maxADCCut" with (keyword key_maxADCCut).
  change "chargeCut" with (keyword key_chargeCut).
  rewrite !(keyword_in_line k _ v Hv).
  destruct k; reflexivity.
Qed.

Lemma add_events_nil (r : Parsed) : add_events [] r = r.
Proof. destruct r; reflexivity. Qed.

Lemma add_events_add_events (a b : list ConfigEvent) (r : Parsed) :
  add_events a (add_events b r) = add_events (a ++ b) r.
Proof. destruct r; simpl; rewrite app_assoc; reflexivity. Qed.

Lemma add_events_Returns (a events : list ConfigEvent) (r : Parsed) :
  add_events a r = Returns events ->
  exists events', r = Returns events' /\ events = a ++ events'.
Proof.
  destruct r as [ev|ev]; simpl; intros [= <-]. exists ev. split; reflexivity.
Qed.

Lemma add_events_Hangs (a events : list ConfigEvent) (r : Parsed) :
  add_events a r = Hangs events ->
  exists events', r = Hangs events' /\ events = a ++ events'.
Proof.
  destruct r as [ev|ev]; simpl; intros [= <-]. exists ev. split; reflexivity.
Qed.

(** A part of the file after which the function would return leaves it
    in the outer loop. *)
Lemma parse_lines_returns (pre rest : list string) :
  forall pos events,
    parse_lines pos pre = Returns events ->
    parse_lines pos (pre ++ rest) = add_events events (parse_lines Outer rest).
Proof.
  induction pre as [|line pre IH]; intros pos events H.
  - destruct pos; [|discriminate H]. injection H as <-.
    symmetry. apply add_events_nil.
  - destruct pos as [|header]; cbn [parse_lines app] in *.
    + destruct (ignored line); [apply IH, H|].
      destruct (found "tpcList" line).
      * destruct (found "tpcListEnd" line); [|apply IH, H].
        apply add_events_Returns in H as (ev & H & ->).
        rewrite (IH _ _ H), add_events_add_events. reflexivity.
      * apply add_events_Returns in H as (ev & H & ->).
        rewrite (IH _ _ H), add_events_add_events. reflexivity.
    + destruct (found "tpcListEnd" line);
        apply add_events_Returns in H as (ev & H & ->);
        rewrite (IH _ _ H), add_events_add_events; reflexivity.
Qed.

(** A part of the file at whose end the function would hang leaves it
    in a chamber list. *)
Lemma parse_lines_hangs (pre : list string) :
  forall pos events,
    parse_lines pos pre = Hangs events ->
    exists header, forall rest,
      parse_lines pos (pre ++ rest)
      = add_events events (parse_lines (ChamberList header) rest).
Proof.
  induction pre as [|line pre IH]; intros pos events H.
  - destruct pos as [|header]; [discriminate H|]. injection H as <-.
    exists header. intros rest. symmetry. apply add_events_nil.
  - destruct pos as [|header]; cbn [parse_lines app] in *.
    + destruct (ignored line); [apply IH, H|].
      destruct (found "tpcList" line).
      * destruct (found "tpcListEnd" line); [|apply IH, H].
        apply add_events_Hangs in H as (ev & H & ->).
        destruct (IH _ _ H) as [hd Hhd]. exists hd. intros rest.
        rewrite Hhd, add_events_add_events. reflexivity.
      * apply add_events_Hangs in H as (ev & H & ->).
        destruct (IH _ _ H) as [hd Hhd]. exists hd. intros rest.
        rewrite Hhd, add_events_add_events. reflexivity.
    + destruct (found "tpcListEnd" line);
        apply add_events_Hangs in H as (ev & H & ->);
        destruct (IH _ _ H) as [hd Hhd]; exists hd; intros rest;
        rewrite Hhd, add_events_add_events; reflexivity.
Qed.

(** X15. A line of the form keyword, blank, numeric value that
    [ParseConfigFile] reads in its outer loop is read by the branch of
    its own keyword, for each of the fifteen keywords: the order of the
    keyword tests does no harm there.  The same line inside a chamber
    list, that is after a line with "tpcList" and before the line with
    "tpcListEnd", is taken as a chamber name and reaches no keyword
    test. *)
Theorem keyword_line_branch (k : ConfigKey) (v : string) :
  numeric v = true ->
  let line := (keyword k ++ String Ascii.Space v)%string in
  (forall rest,
      parse_lines Outer (line :: rest)
      = add_events [Assignment k line] (parse_lines Outer rest))
  /\ (forall header rest,
        parse_lines (ChamberList header) (line :: rest)
        = add_events [ChamberLine line] (parse_lines (ChamberList header) rest))
  /\ (forall pre rest events,
        ParseConfigFile pre = Returns events ->
        ParseConfigFile (pre ++ line :: rest)
        = add_events (events ++ [Assignment k line]) (parse_lines Outer rest))
  /\ (forall pre rest events,
        ParseConfigFile pre = Hangs events ->
        exists header,
          ParseConfigFile (pre ++ line :: rest)
          = add_events (events ++ [ChamberLine line])
                       (parse_lines (ChamberList header) rest)).
Proof.
  intros Hv line.
  destruct (keyword_line_tests k v Hv) as (Hi & Hl & He & Hb).
  fold line in Hi, Hl, He, Hb.
  assert (forall rest,
             parse_lines Outer (line :: rest)
             = add_events [Assignment k line] (parse_lines Outer rest)) as Houter.
  { intros rest. cbn [parse_lines]. rewrite Hi, Hl. unfold assignment.
    rewrite Hb. reflexivity. }
  assert (forall header rest,
             parse_lines (ChamberList header) (line :: rest)
             = add_events [ChamberLine line]
                          (parse_lines (ChamberList header) rest)) as Hinner.
  { intros header rest. cbn [parse_lines]. rewrite Hi, He. reflexivity. }
  split; [exact Houter|]. split; [exact Hinner|]. split.
  - intros pre rest events H. unfold ParseConfigFile in *.
    rewrite (parse_lines_returns pre (line :: rest) _ _ H), Houter.
    apply add_events_add_events.
  - intros pre rest events H. unfold ParseConfigFile in *.
    destruct (parse_lines_hangs pre _ _ H) as [header Hh]. exists header.
    rewrite Hh, Hinner. apply add_events_add_events.
Qed.

Lemma keyword_line_branch_witness :
  ParseConfigFile ["# cluster cuts"; "minPads 3"]
  = Returns [Assignment key_minPads "minPads 3"]
  /\ ParseConfigFile ["tpcList"; "VTPC1"; "minPads 3"]
     = Hangs [ChamberLine "VTPC1"; ChamberLine "minPads 3"].
Proof.
  destruct (keyword_line_branch key_minPads "3") as (_ & _ & H1 & H2).
  - reflexivity.
  - split.
    + apply (H1 ["# cluster cuts"] [] []). reflexivity.
    + destruct (H2 ["tpcList"; "VTPC1"] [] [ChamberLine "VTPC1"]) as [header H].
      * reflexivity.
      * exact H.
Defined.

(** ** When the cluster loop completes *)

Lemma for_each_done_iff {A S} (I : S -> Prop) (ok : A -> Prop)
    (body : A -> S -> outcome S) (l : list A) :
  (forall a s s', I s -> body a s = Done s' -> I s') ->
  (forall a s, I s -> (exists s', body a s = Done s') <-> ok a) ->
  forall s, I s -> (exists s', for_each body l s = Done s') <-> Forall ok l.
Proof.
  intros Hinv Hok. induction l as [|a l IH]; intros s Hs; simpl.
  - split; [constructor | eexists; reflexivity].
  - destruct (body a s) as [s1|w] eqn:E; simpl.
    + rewrite (IH s1) by (eapply Hinv; eassumption). rewrite Forall_cons.
      split; [|intros [_ H]; exact H].
      intros H. split; [|exact H]. apply (Hok a s Hs). eexists. exact E.
    + split; [intros [s' H]; discriminate H|].
      intros H. apply Forall_cons in H as [Ha _].
      apply (Hok a s Hs) in Ha as [s' Hs']. congruence.
Qed.

Lemma grown_is_Some (m0 m : gmap PadKey TH1D) (k : PadKey) :
  grown m0 m -> is_Some (m !! k) <-> is_Some (m0 !! k).
Proof.
  intros Hg. specialize (Hg k).
  destruct Hg; split; intros [z Hz]; try discriminate; eexists; reflexivity.
Qed.

Section CompletionFacts.

Context {ext : External} (cfg : Config) (updateGains : bool)
        (tpc : list TPCChamber).

Lemma created_is_Some (k : PadKey) :
  is_Some (create_histograms cfg tpc !! k) <-> k ∈ calibrated_pads cfg tpc.
Proof.
  rewrite create_histograms_pads, fold_add_fresh_lookup.
  destruct (decide _) as [Hin|Hout].
  - split; [intros _; exact Hin | intros _; eexists; reflexivity].
  - rewrite lookup_empty. split; [intros [z Hz]; discriminate | contradiction].
Qed.

Lemma process_entry_done_iff (tpcId sectorId : N) (sector : TPCSector)
    (e : Cluster) (st : Spectra) :
  grown (create_histograms cfg tpc) (fSpectraHistograms st) ->
  (exists st', process_entry cfg updateGains tpcId sectorId sector e st = Done st')
  <-> entry_ok cfg updateGains tpc tpcId sectorId sector e.
Proof.
  intros Hg. unfold entry_ok.
  pose proof (grown_is_Some _ _ (tpcId, sectorId, fPadrow e, fPad e) Hg)
    as Hsome.
  rewrite created_is_Some in Hsome. rewrite <- Hsome.
  destruct (skipped cfg e) eqn:Hs.
  - rewrite process_entry_skipped by exact Hs.
    split; [intros _ Hk; discriminate Hk | intros _; eexists; reflexivity].
  - rewrite process_entry_kept by exact Hs. unfold filled_charge.
    destruct updateGains.
    + destruct (sector_GetPadrow sector (fPadrow e)) as [r|]; simpl.
      * destruct (fSpectraHistograms st !! _) as [h|].
        -- split; [|intros _; eexists; reflexivity].
           intros _ _. split; [eexists; reflexivity | intros _; eexists; reflexivity].
        -- split; [intros [st' H]; discriminate H|].
           intros H. destruct (H eq_refl) as [[z Hz] _]. discriminate Hz.
      * split; [intros [st' H]; discriminate H|].
        intros H. destruct (H eq_refl) as [_ Hr].
        destruct (Hr eq_refl) as [z Hz]. discriminate Hz.
    + simpl. destruct (fSpectraHistograms st !! _) as [h|].
      * split; [|intros _; eexists; reflexivity].
        intros _ _. split; [eexists; reflexivity | intros Hu; discriminate Hu].
      * split; [intros [st' H]; discriminate H|].
        intros H. destruct (H eq_refl) as [[z Hz] _]. discriminate Hz.
Qed.

Lemma process_tree_done_iff (t : ClusterTree) (st : Spectra) :
  grown (create_histograms cfg tpc) (fSpectraHistograms st) ->
  (exists st', process_tree cfg updateGains tpc t st = Done st')
  <-> tree_ok cfg updateGains tpc t.
Proof.
  intros Hg. unfold process_tree, tree_ok.
  destruct (tree_entries t) as [|e es] eqn:E.
  - split; [intros _ H; contradiction | intros _; eexists; reflexivity].
  - assert (e :: es <> []) as Hne by discriminate.
    destruct (resolve tpc t) as [[[tpcId sectorId] sector]|w].
    + unfold mbind, outcome_bind. cbn [fst snd].
      destruct (decide (tpcId ∈ fTPCIdList cfg)) as [Hin|Hout].
      * destruct (sector_GetPadrow sector (sector_GetNPadrows sector))
          as [r|] eqn:Hr.
        -- rewrite (for_each_done_iff
                      (fun s => grown (create_histograms cfg tpc)
                                      (fSpectraHistograms s))
                      (entry_ok cfg updateGains tpc tpcId sectorId sector)).
           ++ split.
              ** intros H _. exists tpcId, sectorId, sector.
                 split; [reflexivity|]. intros _.
                 split; [exists r; exact Hr | exact H].
              ** intros H.
                 destruct (H Hne) as (a & b & c & [= <- <- <-] & H').
                 exact (proj2 (H' Hin)).
           ++ intros a s s1 Hs Hstep. eapply grown_trans; [exact Hs|].
              eapply process_entry_grown, Hstep.
           ++ intros a s Hs. apply process_entry_done_iff, Hs.
           ++ simpl. exact Hg.
        -- split; [intros [st' H]; discriminate H|].
           intros H. destruct (H Hne) as (a & b & c & [= <- <- <-] & H').
           destruct (H' Hin) as [[z Hz] _]. congruence.
      * split; [|intros _; eexists; reflexivity].
        intros _ _. exists tpcId, sectorId, sector.
        split; [reflexivity | intros Hin; contradiction].
    + split; [intros [st' H]; discriminate H|].
      intros H. destruct (H Hne) as (a & b & c & Hd & _). discriminate Hd.
Qed.

End CompletionFacts.

(** X17. The cluster loop gets through exactly when every tree with
    entries is identified as a sector of the detector, that is, its
    name yields a chamber and a sector number that the detector has,
    and, if its chamber is calibrated, the sector has a padrow numbered
    as its padrow count, and every cluster of the tree that passes the
    cuts names a pad that has a histogram and, when gains are updated,
    a padrow that the sector has.  Trees without entries and clusters
    that fail a cut never end the run. *)
Theorem cluster_loop_completes `{ext : External} (cfg : Config)
    (updateGains : bool) (tpc : list TPCChamber) (trees : list ClusterTree) :
  (exists st, fill_spectra cfg updateGains tpc trees = Done st)
  <-> forall t,
        t ∈ trees -> tree_entries t <> [] ->
        exists tpcId sectorId sector,
          resolve tpc t = Done (tpcId, sectorId, sector)
          /\ (tpcId ∈ fTPCIdList cfg ->
              is_Some (sector_GetPadrow sector (sector_GetNPadrows sector))
              /\ forall e,
                   e ∈ tree_entries t -> skipped cfg e = false ->
                   (tpcId, sectorId, fPadrow e, fPad e) ∈ calibrated_pads cfg tpc
                   /\ (updateGains = true ->
                       is_Some (sector_GetPadrow sector (fPadrow e)))).
Proof.
  unfold fill_spectra.
  rewrite (for_each_done_iff
             (fun s => grown (create_histograms cfg tpc) (fSpectraHistograms s))
             (tree_ok cfg updateGains tpc)).
  - rewrite Forall_forall. unfold tree_ok, entry_ok. split.
    + intros H t Ht Hne.
      destruct (H t Ht Hne) as (tpcId & sectorId & sector & Hres & Hin).
      exists tpcId, sectorId, sector. split; [exact Hres|].
      intros Hcal. destruct (Hin Hcal) as [Hlast Hall].
      split; [exact Hlast|]. rewrite Forall_forall in Hall. exact Hall.
    + intros H t Ht Hne.
      destruct (H t Ht Hne) as (tpcId & sectorId & sector & Hres & Hin).
      exists tpcId, sectorId, sector. split; [exact Hres|].
      intros Hcal. destruct (Hin Hcal) as [Hlast Hall].
      split; [exact Hlast|]. apply Forall_forall. exact Hall.
  - intros t s s1 Hs Hstep. eapply grown_trans; [exact Hs|].
    eapply process_tree_grown, Hstep.
  - intros t s Hs. apply process_tree_done_iff, Hs.
  - simpl. apply grown_refl.
Qed.

(** ** The whole run *)

(** X16. A run that completes returns 0 and has got through the
    cluster loop; its result tree has one row for every pad of the
    calibrated chambers, each of these pads has a histogram, and the
    position in the row is the fitted position of this histogram as it
    is after the cluster loop, or 0 when the pad was not fitted.  This
    holds for every enumeration order of the histograms. *)
Theorem completed_run `{ext : External} (cfg : Config) (updateGains : bool)
    (tpc : list TPCChamber) (trees : list ClusterTree) (run : Run) :
  (forall m, iteration_order m ≡ₚ map_to_list m) ->
  analyze cfg updateGains tpc trees = Done run ->
  exitCode run = 0%Z
  /\ exists st,
       fill_spectra cfg updateGains tpc trees = Done st
       /\ map row_key (resultTree run) = calibrated_pads cfg tpc
       /\ Forall (fun row =>
                   exists h,
                     fSpectraHistograms st !! row_key row = Some h
                     /\ row_SpectrumADC row
                        = default 0 (located_position cfg (row_key row) h))
                 (resultTree run).
Proof.
  intros Horder Hrun. unfold analyze in Hrun.
  destruct (fill_spectra cfg updateGains tpc trees) as [st|a] eqn:Hfill;
    [|discriminate Hrun].
  set (peaks := locate_all cfg (iteration_order (fSpectraHistograms st))) in *.
  change (Done {| exitCode := 0;
                  gainsFile := gainsFileStream (emit_table cfg updateGains peaks tpc);
                  resultTree := fResultTree (emit_table cfg updateGains peaks tpc) |}
          = Done run) in Hrun.
  rewrite emit_table_layout in Hrun. injection Hrun as <-.
  cbn [exitCode resultTree gainsFileStream fResultTree]. split; [reflexivity|].
  exists st. split; [reflexivity|].
  split; [apply row_keys_of_table|].
  apply Forall_forall. intros row Hrow.
  assert (row_key row ∈ calibrated_pads cfg tpc) as Hkey.
  { rewrite <- (row_keys_of_table cfg updateGains peaks tpc).
    apply list_elem_of_fmap. exists row. split; [reflexivity | exact Hrow]. }
  pose proof (fill_spectra_grown cfg updateGains _ _ _ Hfill (row_key row)) as Hg.
  rewrite create_histograms_pads, fold_add_fresh_lookup in Hg.
  destruct (decide _) as [_|Hout]; [|contradiction].
  inversion Hg as [h0 h _ H0 Hh|]; subst. exists h. split; [reflexivity|].
  pose proof (row_positions cfg updateGains peaks tpc) as Hpos.
  rewrite Forall_forall in Hpos. rewrite (Hpos row Hrow).
  unfold padADC_of, peaks.
  rewrite (locate_all_lookup cfg (fSpectraHistograms st) _ _ (Horder _)).
  rewrite <- Hh. reflexivity.
Qed.

Lemma completed_run_witness :
  exists run,
    analyze cfgA false [chamber1; chamber7] treesA = Done run
    /\ map row_key (resultTree run)
       = [(1%N, 2%N, 1%N, 1%N); (1%N, 2%N, 1%N, 2%N)].
Proof.
  exists (match analyze cfgA false [chamber1; chamber7] treesA with
          | Done run => run
          | Aborted _ => {| exitCode := 0; gainsFile := []; resultTree := [] |}
          end).
  split; [vm_compute; reflexivity|].
  destruct (completed_run cfgA false [chamber1; chamber7] treesA
              (match analyze cfgA false [chamber1; chamber7] treesA with
               | Done run => run
               | Aborted _ => {| exitCode := 0; gainsFile := []; resultTree := [] |}
               end)) as (_ & st & _ & H & _).
  - intros m. reflexivity.
  - vm_compute. reflexivity.
  - rewrite H. vm_compute. reflexivity.
Defined.
